(** * News-Weather-App: summarizer fallback chain and event-document merge

    A shallow embedding of [scripts/daily_brief.py] (three-tier
    summarizer, batch title translator) and [scripts/up_ahead.py]
    (fallback event-document generator, merge engine), followed by the
    properties established about them.

    Conventions of the embedding.
    - Python [str] is [string]; one [ascii] stands for one character.
      Case mapping and white space follow Python on the ASCII range.
    - A Python dict with a fixed set of possible keys is a record whose
      optional keys are [option] fields; a dict used as a mapping whose
      key order is never observed is a [gmap]; a dict whose insertion
      order is observed is an association list.
    - The collaborators that the scripts call but do not define (the
      LLM client, the LexRank summarizer, Python's [hash], the clock)
      are arguments of the functions that use them.
    - A Python exception that can leave a function is an explicit
      [Raise] result.
    - [merge_data] is embedded twice: on buckets as values, and on
      bucket objects in a heap, where the in-place appends of the code
      and the sharing of a bucket between the two timelines are
      explicit. The two are proved to give the same timeline
      ([InPlaceProps.merge_timeline_ref_refines]), so the properties of
      the merge are stated on the first. *)

From Stdlib Require Import ZArith Ascii String List Lia Permutation Sorted.
From stdpp Require Import gmap strings list pretty.

Open Scope string_scope.
Open Scope list_scope.

(* ===================================================================== *)
(** * Python string primitives *)
(* ===================================================================== *)

Module PyStr.

Definition code (c : ascii) : N := N_of_ascii c.

Definition in_range (lo hi : N) (c : ascii) : bool :=
  ((lo <=? code c) && (code c <=? hi))%N.

(** [str.isspace] on one ASCII character: TAB..CR, FS..US and SPACE. *)
Definition is_space (c : ascii) : bool :=
  in_range 9 13 c || in_range 28 32 c.

Definition is_digit (c : ascii) : bool := in_range 48 57 c.

Definition digit_val (c : ascii) : Z := Z.of_N (code c) - 48.

Definition lower_char (c : ascii) : ascii :=
  if in_range 65 90 c then ascii_of_N (code c + 32) else c.

(** [s.lower()] *)
Fixpoint lower (s : string) : string :=
  match s with
  | EmptyString => EmptyString
  | String c r => String (lower_char c) (lower r)
  end.

Definition is_empty (s : string) : bool :=
  match s with EmptyString => true | _ => false end.

(** [s.lstrip()] *)
Fixpoint lstrip (s : string) : string :=
  match s with
  | EmptyString => EmptyString
  | String c r => if is_space c then lstrip r else s
  end.

(** [s.rstrip()] *)
Fixpoint rstrip (s : string) : string :=
  match s with
  | EmptyString => EmptyString
  | String c r =>
      let r' := rstrip r in
      if is_empty r' && is_space c then EmptyString else String c r'
  end.

(** [s.strip()] *)
Definition strip (s : string) : string := rstrip (lstrip s).

(** [sub in s] *)
Fixpoint contains (sub s : string) : bool :=
  String.prefix sub s ||
  match s with
  | EmptyString => false
  | String _ r => contains sub r
  end.

(** [s[n:]] *)
Fixpoint drop_chars (n : nat) (s : string) : string :=
  match n, s with
  | O, _ => s
  | S _, EmptyString => EmptyString
  | S k, String _ r => drop_chars k r
  end.

(** [s[:-1]] *)
Fixpoint drop_last (s : string) : string :=
  match s with
  | EmptyString => EmptyString
  | String c r => if is_empty r then EmptyString else String c (drop_last r)
  end.

(** [s.split(sep)] for a one-character separator. *)
Fixpoint split_char (sep : ascii) (s : string) : list string :=
  match s with
  | EmptyString => [EmptyString]
  | String c r =>
      if Ascii.eqb c sep then EmptyString :: split_char sep r
      else match split_char sep r with
           | h :: t => String c h :: t
           | [] => [String c EmptyString]
           end
  end.

(** [s.split(sep, 1)] for a one-character separator: one part when the
    separator does not occur, otherwise the text before and after its
    first occurrence. *)
Fixpoint split_first (sep : ascii) (s : string) : list string :=
  match s with
  | EmptyString => [EmptyString]
  | String c r =>
      if Ascii.eqb c sep then [EmptyString; r]
      else match split_first sep r with
           | [h] => [String c h]
           | [h; t] => [String c h; t]
           | _ => [s]
           end
  end.

(** The rightmost occurrence of a non-empty [sep] in [s], as the text
    before it and the text after it. *)
Fixpoint rfind_split (sep s : string) : option (string * string) :=
  match s with
  | EmptyString => None
  | String c r =>
      match rfind_split sep r with
      | Some (a, b) => Some (String c a, b)
      | None =>
          if String.prefix sep s
          then Some (EmptyString, drop_chars (String.length sep) s)
          else None
      end
  end.

(** [s.rsplit(sep, 1)] for a non-empty separator. *)
Definition rsplit_last (sep s : string) : list string :=
  match rfind_split sep s with
  | Some (a, b) => [a; b]
  | None => [s]
  end.

(** [sep.join(parts)] *)
Definition join (sep : string) (parts : list string) : string :=
  String.concat sep parts.

(** The digits of a base-10 literal after its first digit: digits, each
    optionally preceded by one underscore. *)
Fixpoint int_digits (acc : Z) (s : string) : option Z :=
  match s with
  | EmptyString => Some acc
  | String c r =>
      if is_digit c then int_digits (10 * acc + digit_val c) r
      else if Ascii.eqb c "_" then
        match r with
        | String d r' =>
            if is_digit d then int_digits (10 * acc + digit_val d) r'
            else None
        | EmptyString => None
        end
      else None
  end.

Definition int_unsigned (s : string) : option Z :=
  match s with
  | String c r => if is_digit c then int_digits (digit_val c) r else None
  | EmptyString => None
  end.

(** [int(s)]: [None] stands for [ValueError]. *)
Definition int_of_str (s : string) : option Z :=
  match strip s with
  | String "+" r => int_unsigned r
  | String "-" r => Z.opp <$> int_unsigned r
  | t => int_unsigned t
  end.

(** [len(s)] *)
Definition len (s : string) : nat := String.length s.

Definition nl : string := String (ascii_of_nat 10) EmptyString.
Definition dquote : string := String (ascii_of_nat 34) EmptyString.


(** [s[:n]] *)
Fixpoint take_chars (n : nat) (s : string) : string :=
  match n, s with
  | S k, String c r => String c (take_chars k r)
  | _, _ => EmptyString
  end.

(** [s[:-n]] for [n > 0] *)
Definition drop_end (n : nat) (s : string) : string :=
  take_chars (String.length s - n) s.

(** [s.startswith(prefix)] *)
Definition startswith (prefix s : string) : bool := String.prefix prefix s.

(** [s.endswith(suffix)] *)
Definition endswith (suffix s : string) : bool :=
  String.eqb (drop_chars (String.length s - String.length suffix) s) suffix.

End PyStr.

(* ===================================================================== *)
(** * scripts/daily_brief.py *)
(* ===================================================================== *)

Module DailyBrief.
Import PyStr.

(** An article dict: [title] and [link] are set by every scraper,
    [body] by the body fetch, [title_en] by the translator. *)
Record Article := mkArticle {
  title : string;
  link : string;
  body : option string;
  title_en : option string
}.

(** What [model.generate_content(prompt)] followed by [response.text]
    gives: the text, or an exception with its message [str(e)]. *)
Inductive llm_reply :=
| Raises (msg : string)
| Text (t : string).

(** The module-level globals: [model] (None without an API key),
    [HAS_SUMY], and the LexRank summarizer of the sumy package, which
    returns its sentences or raises ([None]). *)
Record Env := mkEnv {
  model : option (string → llm_reply);
  HAS_SUMY : bool;
  lexrank : string → nat → option (list string)
}.

(** The dict returned by the summarizer: every key it may carry. *)
Record Result := mkResult {
  summary : option string;
  summary_ta : option string;
  method : option string;
  error : option string
}.

Definition bullet : string := "•".

Definition truthy (s : string) : bool := negb (is_empty s).

(** [s.split(sep)] for a non-empty separator; [skip] counts the
    characters of a separator occurrence still to be passed over. *)
Fixpoint split_on (sep : string) (skip : nat) (s : string) : list string :=
  match s with
  | EmptyString => [EmptyString]
  | String c r =>
      match skip with
      | S k => split_on sep k r
      | O =>
          if String.prefix sep s
          then EmptyString :: split_on sep (String.length sep - 1) r
          else match split_on sep 0 r with
               | h :: t => String c h :: t
               | [] => [String c EmptyString]
               end
      end
  end.

Definition split_str (sep s : string) : list string := split_on sep 0 s.

(** Tier 2: extractive summary of [text]. *)
Definition summarize_extractive_sumy (env : Env) (text : string)
    (sentence_count : nat) : option string :=
  if negb (HAS_SUMY env) || is_empty text || (len text <? 100)%nat then None
  else match lexrank env text sentence_count with
       | Some sentences => Some (join " " sentences)
       | None => None
       end.

(** Tier 3: one bullet per non-blank title among the first ten. *)
Definition summarize_headline_bullets (articles : list Article)
    : option string :=
  match articles with
  | [] => None
  | _ =>
      let lines :=
        flat_map (λ a, let t := strip (title a) in
                       if truthy t then [bullet +:+ " " +:+ t] else [])
                 (take 10 articles) in
      match lines with
      | [] => None
      | _ => Some (join nl lines)
      end
  end.

Definition is_tamil_source (source_name : string) : bool :=
  bool_decide (source_name ∈ ["DINAMANI"; "DAILY_THANTHI"]).

Definition base_prompt (source_name section_name article_list : string)
    : string :=
  join nl
    [ "You are a professional news editor. Summarize the following news headlines from "
        +:+ source_name +:+ " - " +:+ section_name
        +:+ " into a concise, insightful daily briefing.";
      "";
      "Headlines:";
      article_list;
      "" ].

Definition tamil_requirements : string :=
  join nl
    [ "";
      "REQUIREMENTS:";
      "1. Provide the summary in TWO languages: English and Tamil.";
      "2. Format: 3-4 bullet points highlighting the most important stories.";
      "3. Style: Professional, objective, and journalistic.";
      "4. SEPARATE the English summary and Tamil summary with "
        +:+ dquote +:+ "|||" +:+ dquote +:+ ".";
      "";
      "OUTPUT FORMAT:";
      "<English Summary>";
      "|||";
      "<Tamil Summary>";
      "" ].

Definition english_requirements : string :=
  join nl
    [ "";
      "REQUIREMENTS:";
      "1. Language: English ONLY. (Translate if source is not English).";
      "2. Format: 3-4 bullet points highlighting the most important stories.";
      "3. Style: Professional, objective, and journalistic.";
      "4. No introductory text.";
      "" ].

Definition gemini_prompt (source_name section_name : string)
    (articles : list Article) : string :=
  let article_list :=
    join nl (map (λ a, "- " +:+ title a) (take 15 articles)) in
  base_prompt source_name section_name article_list
    +:+ (if is_tamil_source source_name
         then tamil_requirements else english_requirements).

(** Tier 1. [llm] is the configured [model]; the function is only
    called when there is one. [None] is Python's [None]. *)
Definition _summarize_gemini (llm : string → llm_reply)
    (source_name section_name : string) (articles : list Article)
    : option Result :=
  let is_tamil := is_tamil_source source_name in
  match llm (gemini_prompt source_name section_name articles) with
  | Text t =>
      let text := strip t in
      if is_tamil && contains "|||" text then
        let parts := split_str "|||" text in
        Some {| summary := Some (strip (nth 0 parts ""));
                summary_ta := Some (strip (nth 1 parts ""));
                method := None; error := None |}
      else
        Some {| summary := Some text; summary_ta := None;
                method := None; error := None |}
  | Raises err =>
      if contains "429" err then
        Some {| summary := None; summary_ta := None; method := None;
                error := Some "Quota Exceeded" |}
      else if contains "403" err then
        Some {| summary := None; summary_ta := None; method := None;
                error := Some "Invalid API Key" |}
      else None
  end.

(** [body_texts]: the non-empty bodies, in article order. *)
Definition body_texts (articles : list Article) : list string :=
  flat_map (λ a, match body a with
                 | Some b => if truthy b then [b] else []
                 | None => []
                 end) articles.

Definition combined_bodies (articles : list Article) : string :=
  join (nl +:+ nl) (take 5 (body_texts articles)).

(** The Tier 2 block of [summarize_section]. *)
Definition extractive_tier (env : Env) (articles : list Article)
    : option Result :=
  match body_texts articles with
  | [] => None
  | _ =>
      let combined := combined_bodies articles in
      if (200 <? len combined)%nat then
        match summarize_extractive_sumy env combined 8 with
        | Some sumy_summary =>
            if truthy sumy_summary then
              Some {| summary := Some sumy_summary; summary_ta := None;
                      method := Some "extractive"; error := None |}
            else None
        | None => None
        end
      else None
  end.

(** The Tier 3 block and the final return of [summarize_section]. *)
Definition headlines_tier (articles : list Article) : Result :=
  match summarize_headline_bullets articles with
  | Some bullets =>
      if truthy bullets then
        {| summary := Some bullets; summary_ta := None;
           method := Some "headlines"; error := None |}
      else
        {| summary := None; summary_ta := None; method := None;
           error := Some "No summary generated" |}
  | None =>
      {| summary := None; summary_ta := None; method := None;
         error := Some "No summary generated" |}
  end.

Definition lower_tiers (env : Env) (articles : list Article) : Result :=
  match extractive_tier env articles with
  | Some r => r
  | None => headlines_tier articles
  end.

Definition summarize_section (env : Env) (source_name section_name : string)
    (articles : list Article) : Result :=
  match articles with
  | [] =>
      {| summary := None; summary_ta := None; method := None;
         error := Some "No articles to summarize" |}
  | _ =>
      let gemini :=
        match model env with
        | Some llm => _summarize_gemini llm source_name section_name articles
        | None => None
        end in
      match gemini with
      | Some result =>
          if bool_decide (is_Some (summary result)) then result
          else lower_tiers env articles
      | None => lower_tiers env articles
      end
  end.

(** The prompt of [translate_titles_batch]. *)
Definition numbered_titles (articles : list Article) : string :=
  join nl (imap (λ i a, pretty (i + 1)%nat +:+ ". " +:+ title a) articles).

Definition translate_prompt (articles : list Article) : string :=
  join nl
    [ "Translate the following Tamil news headlines to English.";
      "Maintain the original meaning and journalistic style.";
      "Return ONLY the translated titles, one per line, numbered exactly as input.";
      "";
      "Headlines:";
      numbered_titles articles;
      "" ].

Definition set_title_en (t : string) (a : Article) : Article :=
  {| title := title a; link := link a; body := body a; title_en := Some t |}.

(** The body of the [for line in ...] loop of [translate_titles_batch]:
    the article list after one response line. *)
Definition translate_line (articles : list Article) (line : string)
    : list Article :=
  match split_first "." line with
  | [p0; p1] =>
      match int_of_str (strip p0) with
      | Some n =>
          let idx := (n - 1)%Z in
          if ((0 <=? idx) && (idx <? Z.of_nat (length articles)))%Z
          then alter (set_title_en (strip p1)) (Z.to_nat idx) articles
          else articles
      | None => articles
      end
  | _ => articles
  end.

(** [translate_titles_batch] mutates the article dicts in place; the
    embedding returns the article list as it stands afterwards. *)
Definition translate_titles_batch (env : Env) (articles : list Article)
    : list Article :=
  match model env, articles with
  | None, _ => articles
  | _, [] => articles
  | Some llm, _ =>
      match llm (translate_prompt articles) with
      | Text t => fold_left translate_line (split_char (ascii_of_nat 10) (strip t)) articles
      | Raises _ => articles
      end
  end.


(** ** [clean_text] *)

(** [s.replace(old, new)] for a non-empty [old]; [skip] counts the
    characters of an occurrence still to be passed over. *)
Fixpoint replace_on (old new : string) (skip : nat) (s : string) : string :=
  match s with
  | EmptyString => EmptyString
  | String c r =>
      match skip with
      | S k => replace_on old new k r
      | O =>
          if String.prefix old s
          then new +:+ replace_on old new (String.length old - 1) r
          else String c (replace_on old new 0 r)
      end
  end.

Definition replace (old new s : string) : string := replace_on old new 0 s.

Definition clean_text (text : string) : string :=
  if is_empty text then ""
  else replace "  " " " (replace nl " " (strip text)).

(** ** [fetch_article_body] *)

(** The trafilatura package: whether it is installed, [fetch_url] and
    [extract]; [None] stands for a call that raises or returns
    [None]. *)
Record Trafilatura := mkTrafilatura {
  HAS_TRAFILATURA : bool;
  fetch_url : string → option string;
  extract : string → option string
}.

Definition fetch_article_body (tr : Trafilatura) (url : string) : string :=
  if negb (HAS_TRAFILATURA tr) then ""
  else match fetch_url tr url with
       | Some downloaded =>
           if truthy downloaded then default "" (extract tr downloaded)
           else ""
       | None => ""
       end.

(** ** Scrapers *)

Definition MAX_ARTICLES_PER_SECTION : nat := 15.
Definition BODY_FETCH_LIMIT : nat := 5.

(** A section dict: [page] and [articles] are set by the scrapers, the
    other keys by [main]. [sec_summary] is [Some None] when the key is
    set to [None]. *)
Record Section := mkSection {
  page : string;
  articles : list Article;
  sec_error : option string;
  sec_summary : option (option string);
  summary_method : option string;
  sec_summary_ta : option string
}.

(** [{"page": p, "articles": arts}] *)
Definition new_section (p : string) (arts : list Article) : Section :=
  {| page := p; articles := arts; sec_error := None; sec_summary := None;
     summary_method := None; sec_summary_ta := None |}.

(** [{"title": t, "link": l}] *)
Definition new_article (t l : string) : Article :=
  {| title := t; link := l; body := None; title_en := None |}.

(** The articles of the entries of one feed: an entry is its title and
    link, or [None] when reading one of them raises, which leaves the
    [try] block of this feed. *)
Fixpoint entry_articles (entries : list (option (string * string)))
    : option (list Article) :=
  match entries with
  | [] => Some []
  | Some (t, l) :: r => cons (new_article t l) <$> entry_articles r
  | None :: _ => None
  end.

(** A feed is its page name and its URL. [parse] is [feedparser.parse]
    followed by [.entries]; [None] when it raises. *)
Definition fetch_from_feeds
    (parse : string → option (list (option (string * string))))
    (feed_list : list (string * string)) : list Section :=
  flat_map
    (λ f, match parse f.2 with
          | Some entries =>
              match entry_articles (take MAX_ARTICLES_PER_SECTION entries) with
              | Some (a :: arts) => [new_section f.1 (a :: arts)]
              | _ => []
              end
          | None => []
          end) feed_list.

Definition _fetch_hindu_rss
    (parse : string → option (list (option (string * string))))
    : list Section :=
  fetch_from_feeds parse
    [ ("Front Page", "https://www.thehindu.com/news/national/feeder/default.rss");
      ("Opinion", "https://www.thehindu.com/opinion/feeder/default.rss");
      ("Business", "https://www.thehindu.com/business/feeder/default.rss");
      ("Cities", "https://www.thehindu.com/news/cities/feeder/default.rss") ].

Definition fetch_indian_express
    (parse : string → option (list (option (string * string))))
    : list Section :=
  fetch_from_feeds parse
    [ ("Front Page", "https://indianexpress.com/feed/");
      ("India", "https://indianexpress.com/section/india/feed/");
      ("World", "https://indianexpress.com/section/world/feed/");
      ("Opinion", "https://indianexpress.com/section/opinion/editorials/feed/");
      ("Business", "https://indianexpress.com/section/business/feed/") ].

Definition fetch_dinamani
    (parse : string → option (list (option (string * string))))
    : list Section :=
  fetch_from_feeds parse
    [ ("Latest News", "https://news.google.com/rss/search?q=site:dinamani.com+when:1d&hl=ta&gl=IN&ceid=IN:ta");
      ("Tamil Nadu", "https://news.google.com/rss/search?q=site:dinamani.com+Tamil+Nadu+when:1d&hl=ta&gl=IN&ceid=IN:ta") ].

Definition fetch_daily_thanthi
    (parse : string → option (list (option (string * string))))
    : list Section :=
  fetch_from_feeds parse
    [ ("Latest News", "https://news.google.com/rss/search?q=site:dailythanthi.com+when:1d&hl=ta&gl=IN&ceid=IN:ta");
      ("Cinema", "https://news.google.com/rss/search?q=site:dailythanthi.com+cinema+when:1d&hl=ta&gl=IN&ceid=IN:ta") ].

Definition _detect_hindu_section (url : string) : string :=
  if contains "/opinion/" url then "Opinion"
  else if contains "/business/" url then "Business"
  else if contains "/sport/" url then "Sport"
  else if contains "/entertainment/" url then "Entertainment"
  else if contains "/national/" url then "National"
  else if contains "/international/" url then "International"
  else if contains "/cities/" url then "Cities"
  else if contains "/science/" url || contains "/technology/" url
  then "Sci-Tech"
  else "Front Page".

Definition set_page (p : string) (s : Section) : Section :=
  {| page := p; articles := articles s; sec_error := sec_error s;
     sec_summary := sec_summary s; summary_method := summary_method s;
     sec_summary_ta := sec_summary_ta s |}.

Definition set_articles (arts : list Article) (s : Section) : Section :=
  {| page := page s; articles := arts; sec_error := sec_error s;
     sec_summary := sec_summary s; summary_method := summary_method s;
     sec_summary_ta := sec_summary_ta s |}.

(** The state of the loop over [all_links]: [seen_links], the sections
    appended before the current one, and [current_section], which is
    the last element of [sections]. *)
Record Scrape := mkScrape {
  seen_links : gset string;
  earlier : list Section;
  current_section : Section
}.

(** Body of the loop over [all_links]; an [a] tag is its text and its
    [href] attribute, if it has one. *)
Definition scrape_link (st : Scrape) (a_tag : string * option string)
    : Scrape :=
  let title := clean_text a_tag.1 in
  let href := default "" a_tag.2 in
  if is_empty title || (len title <? 10)%nat || is_empty href then st
  else
    let href := if startswith "http" href then href
                else "https://www.thehindu.com" +:+ href in
    if decide (href ∈ seen_links st) then st
    else
      let section_name := _detect_hindu_section href in
      let '(earlier, current) :=
        if negb (String.eqb section_name (page (current_section st)))
           && negb (bool_decide (articles (current_section st) = []))
        then (earlier st ++ [current_section st], new_section section_name [])
        else if negb (String.eqb section_name (page (current_section st)))
        then (earlier st, set_page section_name (current_section st))
        else (earlier st, current_section st) in
      {| seen_links := {[ href ]} ∪ seen_links st;
         earlier := earlier;
         current_section :=
           set_articles (articles current ++ [new_article title href]) current |}.

(** [sections] after the loop over [all_links]. *)
Definition scrape_links (all_links : list (string * option string))
    : list Section :=
  let st := fold_left scrape_link all_links
              {| seen_links := ∅; earlier := [];
                 current_section := new_section "Front Page" [] |} in
  earlier st ++ [current_section st].

(** The closing loop: the non-empty sections, cut to the first
    [MAX_ARTICLES_PER_SECTION] articles. *)
Definition limit_sections (sections : list Section) : list Section :=
  flat_map (λ s, match articles s with
                 | [] => []
                 | arts => [set_articles (take MAX_ARTICLES_PER_SECTION arts) s]
                 end) sections.

(** [all_links] is what the request and the two [soup.select] calls
    give, [None] when one of them raises. *)
Definition fetch_the_hindu
    (parse : string → option (list (option (string * string))))
    (all_links : option (list (string * option string))) : list Section :=
  match all_links with
  | None => _fetch_hindu_rss parse
  | Some tags =>
      let sections := scrape_links tags in
      let sections :=
        if (list_sum (map (λ s, length (articles s)) sections) <? 5)%nat
        then sections ++ _fetch_hindu_rss parse
        else sections in
      limit_sections sections
  end.


(** ** [main] *)

Definition set_body (b : string) (a : Article) : Article :=
  {| title := title a; link := link a; body := Some b;
     title_en := title_en a |}.

(** [article.pop('body', None)] *)
Definition pop_body (a : Article) : Article :=
  {| title := title a; link := link a; body := None;
     title_en := title_en a |}.

(** Step 1 of the loop over the sections: the article list after the
    bodies of the first [BODY_FETCH_LIMIT] articles have been fetched. *)
Definition fetch_bodies (tr : Trafilatura) (arts : list Article)
    : list Article :=
  map (λ article,
         let body := fetch_article_body tr (link article) in
         if truthy body then set_body (take_chars 3000 body) article
         else article)
      (take BODY_FETCH_LIMIT arts)
  ++ drop BODY_FETCH_LIMIT arts.

(** [if result:] on the result dict. *)
Definition result_truthy (r : Result) : bool :=
  bool_decide (is_Some (summary r)) || bool_decide (is_Some (summary_ta r))
  || bool_decide (is_Some (method r)) || bool_decide (is_Some (error r)).

(** Step 2: the keys [main] copies from the result to the section. *)
Definition record_result (result : Result) (s : Section) : Section :=
  if negb (result_truthy result) then s
  else match error result with
       | Some e =>
           {| page := page s; articles := articles s; sec_error := Some e;
              sec_summary := sec_summary s;
              summary_method := summary_method s;
              sec_summary_ta := sec_summary_ta s |}
       | None =>
           {| page := page s; articles := articles s;
              sec_error := sec_error s;
              sec_summary := Some (summary result);
              summary_method :=
                match method result with
                | Some m => if truthy m then Some m else summary_method s
                | None => summary_method s
                end;
              sec_summary_ta :=
                match summary_ta result with
                | Some t => Some t
                | None => sec_summary_ta s
                end |}
       end.

(** Body of the loop over the sections of the source [key]. *)
Definition process_section (env : Env) (tr : Trafilatura) (key : string)
    (section : Section) : Section :=
  let arts := fetch_bodies tr (articles section) in
  let result := summarize_section env key (page section) arts in
  let section := record_result result (set_articles arts section) in
  let arts :=
    if is_tamil_source key && bool_decide (is_Some (model env))
    then translate_titles_batch env arts else arts in
  set_articles (map pop_body arts) section.

(** What the run reads from outside: the [a] tags of the Hindu page,
    the feeds, trafilatura, and the clock. *)
Record Web := mkWeb {
  hindu_links : option (list (string * option string));
  parse : string → option (list (option (string * string)));
  trafilatura : Trafilatura;
  now : string
}.

(** The dict written to the output file. *)
Record Brief := mkBrief {
  lastUpdated : string;
  sources : list (string * list Section)
}.

Definition main (env : Env) (web : Web) : Brief :=
  let fetchers :=
    [ ("THE_HINDU", fetch_the_hindu (parse web) (hindu_links web));
      ("INDIAN_EXPRESS", fetch_indian_express (parse web));
      ("DINAMANI", fetch_dinamani (parse web));
      ("DAILY_THANTHI", fetch_daily_thanthi (parse web)) ] in
  {| lastUpdated := now web;
     sources :=
       map (λ kf, (kf.1, map (process_section env (trafilatura web) kf.1) kf.2))
           fetchers |}.

End DailyBrief.

(* ===================================================================== *)
(** * scripts/up_ahead.py *)
(* ===================================================================== *)

Module UpAhead.
Import PyStr.

(** ** Exceptions *)

Inductive exn := KeyError (key : string).

Inductive res (A : Type) :=
| Ok (a : A)
| Raise (e : exn).
Arguments Ok {A} a.
Arguments Raise {A} e.

#[global] Instance res_ret : MRet res := λ A a, Ok a.
#[global] Instance res_bind : MBind res :=
  λ A B f c, match c with Ok a => f a | Raise e => Raise e end.

(** A [for x in l] loop whose body may raise. *)
Fixpoint for_each {A S : Type} (body : S → A → res S) (l : list A) (s : S)
    : res S :=
  match l with
  | [] => Ok s
  | x :: r => s' ← body s x; for_each body r s'
  end.

(** ** Calendar dates and [datetime.strptime(s, "%Y-%m-%d").date()] *)

Record Date := mkDate { year : nat; month : nat; day : nat }.

(** [a <= b] on dates. *)
Definition date_leb (a b : Date) : bool :=
  ((year a <? year b) ||
   ((year a =? year b) &&
    ((month a <? month b) ||
     ((month a =? month b) && (day a <=? day b)))))%nat.

Definition is_leap (y : nat) : bool :=
  ((y mod 4 =? 0) && (negb (y mod 100 =? 0) || (y mod 400 =? 0)))%nat.

Definition days_in_month (y m : nat) : nat :=
  match m with
  | 2 => if is_leap y then 29 else 28
  | 4 | 6 | 9 | 11 => 30
  | _ => 31
  end.

Definition dnat (c : ascii) : nat := N.to_nat (code c) - 48.

(** The alternatives of the [%m] pattern [1[0-2]|0[1-9]|[1-9]] that
    match a prefix of [s], in the order the regex engine tries them,
    each with the text left after it. *)
Definition month_alternatives (s : string) : list (nat * string) :=
  match s with
  | String c1 r1 =>
      match r1 with
      | String c2 r2 =>
          (if Ascii.eqb c1 "1" && in_range 48 50 c2
           then [(10 + dnat c2, r2)] else []) ++
          (if Ascii.eqb c1 "0" && in_range 49 57 c2
           then [(dnat c2, r2)] else [])
      | EmptyString => []
      end ++
      (if in_range 49 57 c1 then [(dnat c1, r1)] else [])
  | EmptyString => []
  end.

(** The same for the [%d] pattern [3[0-1]|[1-2]\d|0[1-9]|[1-9]| [1-9]]. *)
Definition day_alternatives (s : string) : list (nat * string) :=
  match s with
  | String c1 r1 =>
      match r1 with
      | String c2 r2 =>
          (if Ascii.eqb c1 "3" && in_range 48 49 c2
           then [(30 + dnat c2, r2)] else []) ++
          (if in_range 49 50 c1 && is_digit c2
           then [(10 * dnat c1 + dnat c2, r2)] else []) ++
          (if Ascii.eqb c1 "0" && in_range 49 57 c2
           then [(dnat c2, r2)] else [])
      | EmptyString => []
      end ++
      (if in_range 49 57 c1 then [(dnat c1, r1)] else []) ++
      match r1 with
      | String c2 r2 =>
          if Ascii.eqb c1 " " && in_range 49 57 c2
          then [(dnat c2, r2)] else []
      | EmptyString => []
      end
  | EmptyString => []
  end.

(** The regex match of the format [%Y-%m-%d] at the start of [s]: the
    three groups and the text the match leaves unconsumed. *)
Definition match_ymd (s : string) : option (nat * nat * nat * string) :=
  match s with
  | String y1 (String y2 (String y3 (String y4 (String "-" r)))) =>
      if is_digit y1 && is_digit y2 && is_digit y3 && is_digit y4 then
        let y := 1000 * dnat y1 + 100 * dnat y2 + 10 * dnat y3 + dnat y4 in
        head (flat_map
                (λ '(m, r1),
                   match r1 with
                   | String "-" r2 =>
                       match day_alternatives r2 with
                       | (d, r3) :: _ => [(y, m, d, r3)]
                       | [] => []
                       end
                   | _ => []
                   end)
                (month_alternatives r))
      else None
  | _ => None
  end.

(** [datetime.strptime(s, "%Y-%m-%d").date()]; [None] is [ValueError]
    (no match, unconverted data left, or no such calendar day). *)
Definition strptime (s : string) : option Date :=
  match match_ymd s with
  | Some (y, m, d, EmptyString) =>
      if ((1 <=? y) && (1 <=? d) && (d <=? days_in_month y m))%nat
      then Some (mkDate y m d) else None
  | _ => None
  end.

(** ** The event document *)

Inductive value :=
| VStr (s : string)
| VList (l : list string).

(** An item dict (timeline item or category item): its [title] key,
    when it has one, and its other keys in order. A title is a
    string: a document in which a [title] holds another JSON value
    (on which [.lower()] raises [AttributeError]) is no value of this
    type. *)
Record Item := mkItem {
  title : option string;
  fields : list (string * value)
}.

(** A day bucket. [date] is read with [day["date"]], which raises
    [KeyError] on a bucket without that key; [items] is read with
    [day.get("items", [])]. The type holds the well-typed buckets
    only: a [date], when present, is a string and [items], when
    present, is a list of item dicts. A bucket whose [date] is null or
    a number, or whose [items] is null, on which [strptime], the
    iteration or the sort raise [TypeError], is no value of this
    type, and no statement below speaks of one. *)
Record DayBucket := mkDay {
  date : option string;
  dayLabel : string;
  items : option (list Item)
}.

Record EventDocument := mkDoc {
  timeline : option (list DayBucket);
  sections : option (gmap string (list Item));
  weekly_plan : option (gmap string string);
  lastUpdated : option string
}.

(** Truth value of a document dict: it has at least one key. *)
Definition doc_truthy (d : EventDocument) : bool :=
  bool_decide (is_Some (timeline d)) || bool_decide (is_Some (sections d)) ||
  bool_decide (is_Some (weekly_plan d)) || bool_decide (is_Some (lastUpdated d)).

(** [day["date"]] *)
Definition get_date (d : DayBucket) : res string :=
  match date d with
  | Some s => Ok s
  | None => Raise (KeyError "date")
  end.

(** [item.get("title", "")] *)
Definition get_title (i : Item) : string := default "" (title i).

(** ** [timeline_map]: a dict in insertion order *)

Fixpoint dict_get {V : Type} (k : string) (m : list (string * V))
    : option V :=
  match m with
  | [] => None
  | (k', v) :: r => if String.eqb k k' then Some v else dict_get k r
  end.

(** [m[k] = v]: a present key keeps its place, a new key goes last. *)
Fixpoint dict_set {V : Type} (k : string) (v : V) (m : list (string * V))
    : list (string * V) :=
  match m with
  | [] => [(k, v)]
  | (k', v') :: r =>
      if String.eqb k k' then (k, v) :: r else (k', v') :: dict_set k v r
  end.

Definition dict_values {V : Type} (m : list (string * V)) : list V :=
  map snd m.

(** [timeline_map], holding the buckets themselves. *)
Definition tmap := list (string * DayBucket).

(** The sort key [lambda x: x["date"]]. Every bucket that reaches the
    sort was read with [day["date"]] before, so the key is present. *)
Definition date_key (d : DayBucket) : string := default "" (date d).

Fixpoint insert_by_date (x : DayBucket) (l : list DayBucket)
    : list DayBucket :=
  match l with
  | [] => [x]
  | y :: r =>
      if String.leb (date_key x) (date_key y) then x :: y :: r
      else y :: insert_by_date x r
  end.

(** [sorted(l, key=lambda x: x["date"])]: a stable sort, so its result
    is the one of stable insertion sort. *)
Definition sorted_by_date (l : list DayBucket) : list DayBucket :=
  foldr insert_by_date [] l.

(** ** [merge_data] *)

(** Body of the loop over [existing["timeline"]]. *)
Definition seed_day (today : Date) (m : tmap) (d : DayBucket) : res tmap :=
  s ← get_date d;
  match strptime s with
  | Some date_obj =>
      if date_leb today date_obj then Ok (dict_set s d m) else Ok m
  | None => Ok m
  end.

Definition set_items (l : list Item) (d : DayBucket) : DayBucket :=
  {| date := date d; dayLabel := dayLabel d; items := Some l |}.

(** The items of a bucket after the incoming items [new_items] have
    been merged into [existing_items]. *)
Definition merge_items (existing_items new_items : list Item) : list Item :=
  let existing_titles : gset string :=
    list_to_set (map (λ item, lower (get_title item)) existing_items) in
  fold_left
    (λ acc item,
       if decide (lower (get_title item) ∈ existing_titles) then acc
       else acc ++ [item])
    new_items existing_items.

(** Body of the loop over [new_data["timeline"]]. *)
Definition merge_day (m : tmap) (d : DayBucket) : res tmap :=
  date_str ← get_date d;
  match dict_get date_str m with
  | None => Ok (dict_set date_str d m)
  | Some target =>
      let existing_items := default [] (items target) in
      let new_items := default [] (items d) in
      Ok (dict_set date_str
            (set_items (merge_items existing_items new_items) target) m)
  end.

(** One step of either loop over a category list: [seen_titles] and
    [merged_list] after [item]. *)
Definition dedup_step (st : gset string * list Item) (item : Item)
    : gset string * list Item :=
  let t := lower (strip (get_title item)) in
  if negb (is_empty t) && bool_decide (t ∉ st.1)
  then ({[ t ]} ∪ st.1, st.2 ++ [item])
  else st.

Definition merge_category (e_list n_list : list Item) : list Item :=
  (fold_left dedup_step n_list (fold_left dedup_step e_list (∅, []))).2.

Definition merge_sections (existing_sections new_sections
    : gmap string (list Item)) : gmap string (list Item) :=
  let all_keys : gset string := dom existing_sections ∪ dom new_sections in
  set_fold
    (λ key merged_sections,
       <[ key := merge_category (default [] (existing_sections !! key))
                                (default [] (new_sections !! key)) ]>
         merged_sections)
    ∅ all_keys.

(** Block 1 of [merge_data]: the merged timeline of two timelines.
    The buckets are values here; the same block on bucket objects is
    [merge_timeline_ref] below. *)
Definition merge_timeline (today : Date)
    (existing_timeline new_timeline : list DayBucket)
    : res (list DayBucket) :=
  m0 ← for_each (seed_day today) existing_timeline [];
  m1 ← for_each merge_day new_timeline m0;
  Ok (sorted_by_date (dict_values m1)).

(** [today] is [datetime.now().date()]. *)
Definition merge_data (today : Date) (existing : option EventDocument)
    (new_data : EventDocument) : res EventDocument :=
  match existing with
  | None => Ok new_data
  | Some ex =>
      if negb (doc_truthy ex) then Ok new_data
      else
        merged_timeline ← merge_timeline today (default [] (timeline ex))
                             (default [] (timeline new_data));
        Ok {| timeline := Some merged_timeline;
              sections :=
                Some (merge_sections (default ∅ (sections ex))
                                     (default ∅ (sections new_data)));
              weekly_plan :=
                Some (match weekly_plan new_data with
                      | Some w => w
                      | None => default ∅ (weekly_plan ex)
                      end);
              lastUpdated := None |}
  end.

(** ** [generate_fallback_data] *)

Definition noise_words : list string :=
  [ "review"; "gossip"; "rumour"; "spotted"; "dating"; "box office";
    "collection"; "shocking"; "viral"; "video"; "photo"; "leaked";
    "renamed"; "locks release date"; "casts"; "producer"; "court";
    "petition"; "arrested"; "stealing"; "sewage"; "warns"; "talks";
    "deal"; "financial results"; "board meeting"; "fog"; "mist" ].

(** The keyword categorization of a lower-cased title. *)
Definition categorize (lower : string) : string :=
  if contains "movie" lower || contains "review" lower
     || contains "release" lower then "movie"
  else if contains "festival" lower || contains "holiday" lower
  then "festival"
  else if contains "cricket" lower || contains "match" lower then "sport"
  else if contains "rain" lower || contains "alert" lower then "alert"
  else "event".

Definition is_noise (lower : string) : bool :=
  existsb (λ w, contains w lower) noise_words.

(** [str(abs(hash(title)))]; [hash] is Python's salted string hash. *)
Definition item_id (hash : string → Z) (t : string) : string :=
  pretty (Z.abs (hash t)).

(** [i[k]] for a key holding a string. *)
Definition field_str (k : string) (i : Item) : string :=
  match list_find (λ kv, kv.1 = k) (fields i) with
  | Some (_, (_, VStr s)) => s
  | _ => ""
  end.

(** Body of the loop over the headline lines: [items] after [line]. *)
Definition fallback_line (hash : string → Z) (acc : list Item)
    (line : string) : list Item :=
  if negb (String.prefix "- " line) then acc
  else
    let parts := rsplit_last " (" (drop_chars 2 line) in
    let t := nth 0 parts "" in
    let lnk := match parts with
               | _ :: p1 :: _ => drop_last p1
               | _ => ""
               end in
    let lower := lower t in
    let cat := categorize lower in
    if is_noise lower then acc
    else acc ++
         [ {| title := Some t;
              fields := [ ("id", VStr (item_id hash t));
                          ("type", VStr cat);
                          ("subtitle", VStr "From RSS");
                          ("description", VStr "Latest update");
                          ("link", VStr lnk);
                          ("tags", VList [cat]) ] |} ].

Definition fallback_items (hash : string → Z) (headlines_text : string)
    : list Item :=
  fold_left (fallback_line hash)
            (split_char (ascii_of_nat 10) headlines_text) [].

Definition of_type (ty : string) (i : Item) : bool :=
  String.eqb (field_str "type" i) ty.

Definition titled_entry (i : Item) : Item :=
  {| title := Some (get_title i);
     fields := [ ("text", VStr (get_title i));
                 ("link", VStr (field_str "link" i)) ] |}.

Definition alert_entry (i : Item) : Item :=
  {| title := None;
     fields := [ ("text", VStr (get_title i));
                 ("severity", VStr "medium") ] |}.

(** [today_str] is [datetime.now().date().strftime("%Y-%m-%d")]. *)
Definition generate_fallback_data (hash : string → Z) (today_str : string)
    (headlines_text : string) : EventDocument :=
  let items := fallback_items hash headlines_text in
  {| timeline :=
       Some [ {| date := Some today_str;
                 dayLabel := "Latest Updates";
                 items := Some (take 20 items) |} ];
     sections :=
       Some (<[ "movies" := map titled_entry (filter (λ i, of_type "movie" i = true) items) ]>
             (<[ "festivals" := map titled_entry (filter (λ i, of_type "festival" i = true) items) ]>
             (<[ "alerts" := map alert_entry (filter (λ i, of_type "alert" i = true) items) ]> ∅)));
     weekly_plan :=
       Some {[ "note" := "AI generation unavailable. Showing latest RSS feeds." ]};
     lastUpdated := None |}.

(** ** The timeline block on bucket objects

    [merge_data] does not copy a bucket: [timeline_map] holds references
    to the bucket dicts of its two arguments and the second loop appends
    to their item lists in place. Here the bucket objects live in a heap
    and the timelines are lists of addresses, so that a bucket reached
    twice (as in [merge_data(D, D)]) is one object. *)

Abbreviation addr := nat.
Abbreviation heap := (list DayBucket).

Definition no_bucket : DayBucket :=
  {| date := None; dayLabel := ""; items := None |}.

(** The object at an address. Timelines only hold addresses of their
    heap. *)
Definition bucket_at (h : heap) (a : addr) : DayBucket :=
  default no_bucket (h !! a).

(** [d.get("items", [])] *)
Definition item_list (d : DayBucket) : list Item := default [] (items d).

(** Body of the loop over [existing["timeline"]]. *)
Definition seed_ref (today : Date) (h : heap) (m : list (string * addr))
    (a : addr) : res (list (string * addr)) :=
  s ← get_date (bucket_at h a);
  match strptime s with
  | Some date_obj =>
      if date_leb today date_obj then Ok (dict_set s a m) else Ok m
  | None => Ok m
  end.

(** [existing_items.append(item)] on the item list of a bucket. *)
Definition append_item (item : Item) (d : DayBucket) : DayBucket :=
  set_items (item_list d ++ [item]) d.

(** [for item in new_items: ...]: the list iterator stands at index [i]
    of the item list of the object [src], read anew at every round; the
    appends go to the item list of the object [dst]. [None] when the
    rounds allowed by [fuel] do not reach the end of the list. *)
Fixpoint append_loop (fuel : nat) (existing_titles : gset string)
    (src dst : addr) (i : nat) (h : heap) : option heap :=
  match fuel with
  | O => None
  | S fuel' =>
      match item_list (bucket_at h src) !! i with
      | None => Some h
      | Some item =>
          append_loop fuel' existing_titles src dst (S i)
            (if decide (lower (get_title item) ∈ existing_titles) then h
             else alter (append_item item) dst h)
      end
  end.

(** Body of the loop over [new_data["timeline"]]. The inner loop is
    given one round more than the incoming bucket has items. *)
Definition merge_ref (st : heap * list (string * addr)) (a : addr)
    : option (res (heap * list (string * addr))) :=
  let '(h, m) := st in
  match get_date (bucket_at h a) with
  | Raise e => Some (Raise e)
  | Ok date_str =>
      match dict_get date_str m with
      | None => Some (Ok (h, dict_set date_str a m))
      | Some target =>
          let existing_titles : gset string :=
            list_to_set (map (λ item, lower (get_title item))
                             (item_list (bucket_at h target))) in
          match append_loop (S (length (item_list (bucket_at h a))))
                            existing_titles a target 0 h with
          | Some h' =>
              Some (Ok (alter (λ d, set_items (item_list d) d) target h', m))
          | None => None
          end
      end
  end.

Fixpoint merge_refs (l : list addr) (st : heap * list (string * addr))
    : option (res (heap * list (string * addr))) :=
  match l with
  | [] => Some (Ok st)
  | a :: r =>
      match merge_ref st a with
      | Some (Ok st') => merge_refs r st'
      | other => other
      end
  end.

(** Block 1 of [merge_data] on a heap: the merged timeline, read in the
    heap as the block leaves it. *)
Definition merge_timeline_ref (today : Date) (h : heap)
    (existing_timeline new_timeline : list addr)
    : option (res (list DayBucket)) :=
  match for_each (seed_ref today h) existing_timeline [] with
  | Raise e => Some (Raise e)
  | Ok m0 =>
      match merge_refs new_timeline (h, m0) with
      | Some (Ok (h', m1)) =>
          Some (Ok (sorted_by_date (map (bucket_at h') (dict_values m1))))
      | Some (Raise e) => Some (Raise e)
      | None => None
      end
  end.

(** ** [fetch_rss_feeds] *)

Definition rss_feeds : list string :=
  [ "https://www.thehindu.com/entertainment/feeder/default.rss";
    "https://www.thehindu.com/news/cities/chennai/feeder/default.rss";
    "https://www.hindustantimes.com/feeds/rss/entertainment/tamil-cinema/rssfeed.xml";
    "https://www.hindustantimes.com/feeds/rss/entertainment/bollywood/rssfeed.xml";
    "https://timesofindia.indiatimes.com/rssfeeds/1081479906.cms";
    "https://www.livemint.com/rss/news" ].

(** [f"- {entry.title} ({entry.link})"] *)
Definition headline_line (t lnk : string) : string :=
  "- " +:+ t +:+ " (" +:+ lnk +:+ ")".

(** The lines the inner loop appends for the entries of one feed: an
    entry is its title and link, or [None] when reading one of them
    raises, which ends the loop over this feed. *)
Fixpoint entry_lines (entries : list (option (string * string)))
    : list string :=
  match entries with
  | Some (t, lnk) :: r => headline_line t lnk :: entry_lines r
  | _ => []
  end.

(** [parse] is [feedparser.parse] followed by [.entries]; [None] when it
    raises. *)
Definition fetch_rss_feeds
    (parse : string → option (list (option (string * string)))) : string :=
  join nl
    (flat_map (λ url, match parse url with
                      | Some entries => entry_lines (take 10 entries)
                      | None => []
                      end) rss_feeds).

(** ** [generate_up_ahead_data] *)

(** The prompt; [today_str] is [datetime.now().strftime] with the
    format [%A, %d %B %Y]. *)
Definition up_ahead_prompt (today_str headlines : string) : string :=
  join nl
    [ "";
      "    You are an intelligent lifestyle and events editor.";
      "    Today is " +:+ today_str +:+ ".";
      "";
      "    I have a list of recent news headlines (below).";
      "    Your task is to generate a structured JSON output for an "
        +:+ dquote +:+ "Up Ahead" +:+ dquote +:+ " dashboard.";
      "";
      "    Sources Headlines:";
      "    " +:+ headlines;
      "";
      "    Instructions:";
      "    1. **Analyze Headlines**: Look for movie releases, events, festivals, or important dates mentioned in the headlines for the NEXT 7-14 DAYS.";
      "    2. **Internal Knowledge**: Supplement the news with your own knowledge of:";
      "       - Major Movie Releases (Tamil, Hindi, English) scheduled for this week/next week.";
      "       - Upcoming Holidays, Festivals, or Bank Closures in India/Tamil Nadu.";
      "       - Major Sporting Events (Cricket, Football) this week.";
      "    3. **" +:+ dquote +:+ "Plan My Week" +:+ dquote
        +:+ "**: Create a fun, curated 7-day plan (starting Today).";
      "";
      "    Output JSON Format (Strict JSON only, no markdown blocks):";
      "    {";
      "        " +:+ dquote +:+ "timeline" +:+ dquote +:+ ": [";
      "            {";
      "                " +:+ dquote +:+ "date" +:+ dquote +:+ ": " +:+ dquote
        +:+ "YYYY-MM-DD" +:+ dquote +:+ ",";
      "                " +:+ dquote +:+ "dayLabel" +:+ dquote +:+ ": "
        +:+ dquote +:+ "Monday (Today)" +:+ dquote +:+ ",";
      "                " +:+ dquote +:+ "items" +:+ dquote +:+ ": [";
      "                    {";
      "                        " +:+ dquote +:+ "id" +:+ dquote +:+ ": "
        +:+ dquote +:+ "unique_id" +:+ dquote +:+ ",";
      "                        " +:+ dquote +:+ "type" +:+ dquote +:+ ": "
        +:+ dquote +:+ "movie|event|festival|alert|sport" +:+ dquote +:+ ",";
      "                        " +:+ dquote +:+ "title" +:+ dquote +:+ ": "
        +:+ dquote +:+ "Leo Release" +:+ dquote +:+ ",";
      "                        " +:+ dquote +:+ "subtitle" +:+ dquote +:+ ": "
        +:+ dquote +:+ "In Theaters" +:+ dquote +:+ ",";
      "                        " +:+ dquote +:+ "description" +:+ dquote
        +:+ ": " +:+ dquote +:+ "Short 1-line description." +:+ dquote +:+ ",";
      "                        " +:+ dquote +:+ "tags" +:+ dquote +:+ ": ["
        +:+ dquote +:+ "Tamil" +:+ dquote +:+ ", " +:+ dquote +:+ "Action"
        +:+ dquote +:+ "]";
      "                    }";
      "                ]";
      "            }";
      "            // Generate for next 7 days. If a day has no specific event, suggest a generic activity (e.g. "
        +:+ dquote +:+ "Try a new restaurant" +:+ dquote +:+ ").";
      "        ],";
      "        " +:+ dquote +:+ "sections" +:+ dquote +:+ ": {";
      "            " +:+ dquote +:+ "movies" +:+ dquote +:+ ": [ { "
        +:+ dquote +:+ "title" +:+ dquote +:+ ": " +:+ dquote +:+ "..."
        +:+ dquote +:+ ", " +:+ dquote +:+ "releaseDate" +:+ dquote +:+ ": "
        +:+ dquote +:+ "..." +:+ dquote +:+ ", " +:+ dquote +:+ "language"
        +:+ dquote +:+ ": " +:+ dquote +:+ "..." +:+ dquote +:+ " } ],";
      "            " +:+ dquote +:+ "festivals" +:+ dquote +:+ ": [ { "
        +:+ dquote +:+ "title" +:+ dquote +:+ ": " +:+ dquote +:+ "..."
        +:+ dquote +:+ ", " +:+ dquote +:+ "date" +:+ dquote +:+ ": " +:+ dquote
        +:+ "..." +:+ dquote +:+ " } ],";
      "            " +:+ dquote +:+ "alerts" +:+ dquote +:+ ": [ { "
        +:+ dquote +:+ "text" +:+ dquote +:+ ": " +:+ dquote
        +:+ "Heavy Rain expected on Tuesday" +:+ dquote +:+ ", " +:+ dquote
        +:+ "severity" +:+ dquote +:+ ": " +:+ dquote +:+ "high|medium|low"
        +:+ dquote +:+ " } ] // Infer from headlines or general knowledge";
      "        },";
      "        " +:+ dquote +:+ "weekly_plan" +:+ dquote +:+ ": {";
      "            " +:+ dquote +:+ "monday" +:+ dquote +:+ ": " +:+ dquote
        +:+ "..." +:+ dquote +:+ ",";
      "            " +:+ dquote +:+ "tuesday" +:+ dquote +:+ ": " +:+ dquote
        +:+ "..." +:+ dquote +:+ ",";
      "            " +:+ dquote +:+ "wednesday" +:+ dquote +:+ ": " +:+ dquote
        +:+ "..." +:+ dquote +:+ ",";
      "            " +:+ dquote +:+ "thursday" +:+ dquote +:+ ": " +:+ dquote
        +:+ "..." +:+ dquote +:+ ",";
      "            " +:+ dquote +:+ "friday" +:+ dquote +:+ ": " +:+ dquote
        +:+ "..." +:+ dquote +:+ ",";
      "            " +:+ dquote +:+ "saturday" +:+ dquote +:+ ": " +:+ dquote
        +:+ "..." +:+ dquote +:+ ",";
      "            " +:+ dquote +:+ "sunday" +:+ dquote +:+ ": " +:+ dquote
        +:+ "..." +:+ dquote;
      "        }";
      "    }";
      "    " ].

(** The markdown fence removal applied to the stripped reply. *)
Definition strip_fences (text : string) : string :=
  let text := if startswith "```json" text then drop_chars 7 text else text in
  if endswith "```" text then drop_end 3 text else text.

(** [model] is the module-level Gemini model, [None] when it is not
    configured; [json_loads] is [json.loads], [None] when it raises.
    The result [None] is the function's [return None]. *)
Definition generate_up_ahead_data {A : Type}
    (model : option (string → DailyBrief.llm_reply))
    (json_loads : string → option A)
    (today_str headlines : string) : option A :=
  match model with
  | None => None
  | Some m =>
      match m (up_ahead_prompt today_str headlines) with
      | DailyBrief.Raises _ => None
      | DailyBrief.Text t => json_loads (strip_fences (strip t))
      end
  end.

(** ** [main] *)

Definition set_lastUpdated (now : string) (d : EventDocument) : EventDocument :=
  {| timeline := timeline d; sections := sections d;
     weekly_plan := weekly_plan d; lastUpdated := Some now |}.

(** The collaborators of one run: the feeds, the model, [json.loads],
    the string hash, and the clock read as the prompt's long date, as
    the fallback's [today_str], as [merge_data]'s [today] and as the
    ISO time stamp. *)
Record Run := mkRun {
  parse : string → option (list (option (string * string)));
  model : option (string → DailyBrief.llm_reply);
  json_loads : string → option EventDocument;
  hash : string → Z;
  today_long : string;
  today_str : string;
  today : Date;
  now_iso : string
}.

(** The new data of a run: the generated document, or the fallback
    document when there is none or it is empty. *)
Definition new_data_of (r : Run) : EventDocument :=
  let headlines := fetch_rss_feeds (parse r) in
  match generate_up_ahead_data (model r) (json_loads r) (today_long r) headlines with
  | Some d =>
      if doc_truthy d then d
      else generate_fallback_data (hash r) (today_str r) headlines
  | None => generate_fallback_data (hash r) (today_str r) headlines
  end.

(** [existing_data] is what [load_existing_data] returns. The result is
    the document written to the output file: [None] when [main]
    returns without writing, [Some (Raise _)] when [merge_data] raises. *)
Definition main (r : Run) (existing_data : option EventDocument)
    : option (res EventDocument) :=
  let new_data := new_data_of r in
  if negb (doc_truthy new_data) then None
  else Some (final_data ← merge_data (today r) existing_data new_data;
             Ok (set_lastUpdated (now_iso r) final_data)).


(** ** [date.strftime("%Y-%m-%d")] *)

Definition digit_char (n : nat) : ascii := ascii_of_nat (48 + n).

(** [%m] and [%d]: two digits. *)
Definition pad2 (n : nat) : string :=
  String (digit_char (n / 10)) (String (digit_char (n mod 10)) EmptyString).

(** [%Y] for a year of four digits. *)
Definition pad4 (n : nat) : string :=
  String (digit_char (n / 1000))
    (String (digit_char (n / 100 mod 10)) (pad2 (n mod 100))).

Definition strftime (d : Date) : string :=
  pad4 (year d) +:+ "-" +:+ pad2 (month d) +:+ "-" +:+ pad2 (day d).

End UpAhead.

(* ===================================================================== *)
(** * Properties of the summarizer *)
(* ===================================================================== *)

Module SummarizerProps.
Import PyStr DailyBrief.

Definition has_summary (r : Result) : Prop := is_Some (summary r).
Definition has_error (r : Result) : Prop := is_Some (error r).

(** A result dict carries exactly one of the keys [summary], [error]. *)
Definition one_outcome (r : Result) : Prop :=
  (has_summary r ∧ error r = None) ∨ (summary r = None ∧ has_error r).

Lemma one_outcome_not_both r : one_outcome r → ¬ (has_summary r ∧ has_error r).
Proof.
  intros [[_ He]|[Hs _]] [[s Hs'] [e He']]; congruence.
Qed.

Lemma gemini_one_outcome llm src sec arts r :
  _summarize_gemini llm src sec arts = Some r → one_outcome r.
Proof.
  unfold _summarize_gemini, one_outcome, has_summary, has_error.
  destruct (llm _) as [msg|t].
  - destruct (contains "429" msg); [|destruct (contains "403" msg)];
      intros [= <-]; simpl; eauto.
  - destruct (_ && _); intros [= <-]; simpl; eauto.
Qed.

Lemma extractive_tier_summary env arts r :
  extractive_tier env arts = Some r →
  has_summary r ∧ error r = None ∧ method r = Some "extractive".
Proof.
  unfold extractive_tier, has_summary.
  destruct (body_texts arts); [done|].
  destruct (_ <? _)%nat; [|done].
  destruct (summarize_extractive_sumy _ _ _) as [txt|]; [|done].
  destruct (truthy txt); [|done].
  intros [= <-]; simpl; eauto.
Qed.

Lemma headlines_tier_one_outcome arts : one_outcome (headlines_tier arts).
Proof.
  unfold headlines_tier, one_outcome, has_summary, has_error.
  destruct (summarize_headline_bullets arts) as [b|]; [destruct (truthy b)|];
    simpl; eauto.
Qed.

Lemma lower_tiers_one_outcome env arts : one_outcome (lower_tiers env arts).
Proof.
  unfold lower_tiers.
  destruct (extractive_tier env arts) as [r|] eqn:E.
  - apply extractive_tier_summary in E as (? & ? & _). by left.
  - apply headlines_tier_one_outcome.
Qed.

(** [summarize_section] is its lower tiers unless Tier 1 gave a summary. *)
Lemma summarize_section_cases env src sec arts :
  arts ≠ [] →
  (∃ llm r, model env = Some llm ∧
            _summarize_gemini llm src sec arts = Some r ∧
            has_summary r ∧ summarize_section env src sec arts = r)
  ∨ summarize_section env src sec arts = lower_tiers env arts.
Proof.
  intros Hne. unfold summarize_section.
  destruct arts as [|a arts']; [done|].
  destruct (model env) as [llm|]; [|by right].
  destruct (_summarize_gemini _ _ _ _) as [r|] eqn:E; [|by right].
  case_bool_decide; [|by right].
  left. by exists llm, r.
Qed.

Lemma summarize_section_one_outcome env src sec arts :
  one_outcome (summarize_section env src sec arts).
Proof.
  destruct arts as [|a arts'].
  - right. simpl. split; [done|]. by eexists.
  - destruct (summarize_section_cases env src sec (a :: arts'))
      as [(llm & r & _ & Hg & Hs & Heq)|Heq]; [done| |]; rewrite Heq.
    + apply gemini_one_outcome in Hg as [?|[Hn _]]; [by left|].
      destruct Hs as [x Hx]. congruence.
    + apply lower_tiers_one_outcome.
Qed.

(** ** Tier 3 *)

(** The stripped, non-blank titles among the first ten articles. *)
Definition nonblank_titles (arts : list Article) : list string :=
  filter (λ t, t ≠ "") (map (λ a, strip (title a)) (take 10 arts)).

Definition bullet_line (t : string) : string := bullet +:+ " " +:+ t.

Lemma truthy_true s : truthy s = true ↔ s ≠ "".
Proof. destruct s; simpl; split; (done || congruence). Qed.

Lemma bullet_lines_spec (l : list Article) :
  flat_map (λ a, if truthy (strip (title a))
                 then [bullet +:+ " " +:+ strip (title a)] else []) l
  = map bullet_line (filter (λ t, t ≠ "") (map (λ a, strip (title a)) l)).
Proof.
  induction l as [|a l IH]; [done|].
  change (flat_map ?f (a :: l)) with (f a ++ flat_map f l).
  rewrite IH, map_cons, filter_cons.
  destruct (truthy (strip (title a))) eqn:E.
  - apply truthy_true in E. by rewrite decide_True.
  - rewrite decide_False; [done|].
    intros Hne. apply truthy_true in Hne. congruence.
Qed.

Lemma join_bullets_truthy t ts : truthy (join nl (map bullet_line (t :: ts))) = true.
Proof. simpl. by destruct (map bullet_line ts). Qed.

Lemma headline_bullets_spec arts :
  summarize_headline_bullets arts =
  match nonblank_titles arts with
  | [] => None
  | ts => Some (join nl (map bullet_line ts))
  end.
Proof.
  unfold summarize_headline_bullets, nonblank_titles.
  destruct arts as [|a arts']; [done|].
  cbv zeta. rewrite bullet_lines_spec.
  by destruct (filter _ _).
Qed.

Lemma headlines_tier_spec arts :
  headlines_tier arts =
  match nonblank_titles arts with
  | [] => {| summary := None; summary_ta := None; method := None;
             error := Some "No summary generated" |}
  | ts => {| summary := Some (join nl (map bullet_line ts));
             summary_ta := None; method := Some "headlines";
             error := None |}
  end.
Proof.
  unfold headlines_tier. rewrite headline_bullets_spec.
  destruct (nonblank_titles arts) as [|t ts]; [done|].
  by rewrite join_bullets_truthy.
Qed.

Lemma lower_tiers_nonblank env arts :
  nonblank_titles arts ≠ [] →
  has_summary (lower_tiers env arts) ∧ error (lower_tiers env arts) = None.
Proof.
  intros Hne. unfold lower_tiers.
  destruct (extractive_tier env arts) as [r|] eqn:E.
  - apply extractive_tier_summary in E as (? & ? & _). done.
  - rewrite headlines_tier_spec.
    destruct (nonblank_titles arts); [done|]. split; [by eexists|done].
Qed.

Lemma no_bodies_no_extractive env arts :
  body_texts arts = [] → extractive_tier env arts = None.
Proof. unfold extractive_tier. by intros ->. Qed.

(** ** Which error strings can leave [summarize_section] *)

Lemma lower_tiers_error env arts :
  error (lower_tiers env arts) = None ∨
  error (lower_tiers env arts) = Some "No summary generated".
Proof.
  unfold lower_tiers.
  destruct (extractive_tier env arts) as [r|] eqn:E.
  - apply extractive_tier_summary in E as (_ & ? & _). by left.
  - rewrite headlines_tier_spec. destruct (nonblank_titles arts); auto.
Qed.

Lemma summarize_section_error env src sec arts :
  error (summarize_section env src sec arts) = None ∨
  error (summarize_section env src sec arts) = Some "No articles to summarize" ∨
  error (summarize_section env src sec arts) = Some "No summary generated".
Proof.
  destruct arts as [|a arts']; [right; by left|].
  destruct (summarize_section_cases env src sec (a :: arts'))
    as [(llm & r & _ & Hg & Hs & Heq)|Heq]; [done| |]; rewrite Heq.
  - apply gemini_one_outcome in Hg as [[_ ?]|[Hn _]]; [by left|].
    destruct Hs as [x Hx]. congruence.
  - destruct (lower_tiers_error env (a :: arts')); auto.
Qed.

(** A Tier 1 exception always hands over to the lower tiers. *)
Lemma gemini_raises_falls_through env llm src sec arts msg :
  arts ≠ [] →
  model env = Some llm →
  llm (gemini_prompt src sec arts) = Raises msg →
  summarize_section env src sec arts = lower_tiers env arts.
Proof.
  intros Hne Hm Hl. unfold summarize_section.
  destruct arts as [|a arts']; [done|].
  rewrite Hm. unfold _summarize_gemini. rewrite Hl.
  destruct (contains "429" msg); [|destruct (contains "403" msg)];
    try done; by rewrite bool_decide_false by (simpl; by intros [? ?]).
Qed.

(** ** The outcome of [summarize_section] *)

(** C5, as the claim states it, fails: a section whose only article
    has a blank title, with no model configured and no body text,
    is non-empty and still ends in an error. *)
Lemma summarize_section_error_with_an_article :
  let env := mkEnv None false (λ _ _, None) in
  let arts := [mkArticle "   " "https://example.com/a" None None] in
  arts ≠ [] ∧
  summarize_section env "INDIAN_EXPRESS" "Front Page" arts =
    {| summary := None; summary_ta := None; method := None;
       error := Some "No summary generated" |}.
Proof. split; [done|]. vm_compute. reflexivity. Qed.

(** C5 (amended). The result of [summarize_section] never carries both
    a summary and an error. An empty article list gives an error; a
    list with a non-blank title among its first ten articles always
    gives a summary and no error; so an error for a non-empty list
    needs every one of its first ten titles to be blank. With no model
    and no body text the summary is the headlines tier's: one bullet
    line per stripped non-blank title of the first ten articles. *)
Theorem summarize_section_outcome (env : Env) (src sec : string)
    (arts : list Article) :
  let r := summarize_section env src sec arts in
  ¬ (has_summary r ∧ has_error r) ∧
  (arts = [] → error r = Some "No articles to summarize") ∧
  (nonblank_titles arts ≠ [] → has_summary r ∧ error r = None) ∧
  (has_error r → arts = [] ∨ nonblank_titles arts = []) ∧
  (model env = None → body_texts arts = [] → nonblank_titles arts ≠ [] →
   r = {| summary := Some (join nl (map bullet_line (nonblank_titles arts)));
          summary_ta := None; method := Some "headlines"; error := None |}).
Proof.
  intros r.
  assert (Hnb : nonblank_titles arts ≠ [] → has_summary r ∧ error r = None).
  { intros Hne. subst r.
    destruct arts as [|a arts']; [done|].
    destruct (summarize_section_cases env src sec (a :: arts'))
      as [(llm & r & _ & Hg & Hs & Heq)|Heq]; [done| |]; rewrite Heq.
    - split; [done|].
      apply gemini_one_outcome in Hg as [[_ ?]|[Hn _]]; [done|].
      destruct Hs as [x Hx]. congruence.
    - by apply lower_tiers_nonblank. }
  split; [|split; [|split; [|split]]].
  - apply one_outcome_not_both, summarize_section_one_outcome.
  - by intros ->.
  - exact Hnb.
  - intros [e He].
    destruct arts as [|a arts']; [by left|]. right.
    destruct (decide (nonblank_titles (a :: arts') = [])) as [|Hne]; [done|].
    apply Hnb in Hne as [_ Hnone]. congruence.
  - intros Hm Hb Hne. subst r.
    destruct arts as [|a arts']; [done|].
    unfold summarize_section. rewrite Hm. unfold lower_tiers.
    rewrite no_bodies_no_extractive by done.
    rewrite headlines_tier_spec.
    by destruct (nonblank_titles (a :: arts')).
Qed.

Lemma summarize_section_outcome_witness :
  let env := mkEnv None false (λ _ _, None) in
  let arts := [mkArticle " Budget passed " "https://example.com/a" None None;
               mkArticle "" "https://example.com/b" None None;
               mkArticle "Rain expected" "https://example.com/c" None None] in
  summarize_section env "THE_HINDU" "Front Page" arts =
    {| summary := Some (join nl [bullet_line "Budget passed";
                                 bullet_line "Rain expected"]);
       summary_ta := None; method := Some "headlines"; error := None |}.
Proof.
  intros env arts.
  apply (summarize_section_outcome env "THE_HINDU" "Front Page" arts);
    vm_compute; congruence.
Defined.

(** ** Tier 1 failures *)

(** C1. The claim is evaluated at its failing input: the LLM call fails
    with a 429-class (resp. 403-class) message, [_summarize_gemini]
    classifies it as "Quota Exceeded" (resp. "Invalid API Key"), no
    lower tier has anything to offer, and [summarize_section] reports
    "No summary generated" instead of the classified error. In general
    a Tier 1 exception hands over to the lower tiers (so a summary of
    theirs is returned), and neither classified error string ever
    leaves [summarize_section]. *)
Theorem quota_error_not_surfaced :
  let arts := [mkArticle "" "https://example.com/a" None None] in
  let env msg := mkEnv (Some (λ _, Raises msg)) true (λ _ _, None) in
  let generic := {| summary := None; summary_ta := None; method := None;
                    error := Some "No summary generated" |} in
  _summarize_gemini (λ _, Raises "429 Resource has been exhausted")
      "THE_HINDU" "Front Page" arts
    = Some {| summary := None; summary_ta := None; method := None;
              error := Some "Quota Exceeded" |} ∧
  summarize_section (env "429 Resource has been exhausted")
      "THE_HINDU" "Front Page" arts = generic ∧
  _summarize_gemini (λ _, Raises "403 API key not valid")
      "THE_HINDU" "Front Page" arts
    = Some {| summary := None; summary_ta := None; method := None;
              error := Some "Invalid API Key" |} ∧
  summarize_section (env "403 API key not valid")
      "THE_HINDU" "Front Page" arts = generic ∧
  (∀ e llm src sec l msg,
     l ≠ [] → model e = Some llm → llm (gemini_prompt src sec l) = Raises msg →
     summarize_section e src sec l = lower_tiers e l) ∧
  (∀ e src sec l,
     error (summarize_section e src sec l) ≠ Some "Quota Exceeded" ∧
     error (summarize_section e src sec l) ≠ Some "Invalid API Key").
Proof.
  repeat split; try (vm_compute; reflexivity).
  - intros. by eapply gemini_raises_falls_through.
  - destruct (summarize_section_error e src sec l) as [H|[H|H]];
      rewrite H; congruence.
  - destruct (summarize_section_error e src sec l) as [H|[H|H]];
      rewrite H; congruence.
Qed.

(** C10. For a Tamil source, when the LLM answers with a text that has
    no "|||" in it, [summarize_section] returns that text, stripped, as
    the summary, with no [summary_ta] and no method: Tier 1 has
    succeeded, and neither the LexRank summarizer nor the article
    bodies or the bullet list enter the result. *)
Theorem tamil_reply_without_delimiter (env : Env) (llm : string → llm_reply)
    (src sec : string) (arts : list Article) (t : string) :
  arts ≠ [] →
  src ∈ ["DINAMANI"; "DAILY_THANTHI"] →
  model env = Some llm →
  llm (gemini_prompt src sec arts) = Text t →
  contains "|||" (strip t) = false →
  summarize_section env src sec arts =
    {| summary := Some (strip t); summary_ta := None;
       method := None; error := None |}.
Proof.
  intros Hne Hsrc Hm Hl Hd.
  unfold summarize_section. destruct arts as [|a arts']; [done|].
  rewrite Hm. unfold _summarize_gemini. rewrite Hl, Hd, andb_false_r.
  rewrite bool_decide_true; [done|]. simpl. by eexists.
Qed.

Lemma tamil_reply_without_delimiter_witness :
  let llm := λ _ : string, Text " Floods recede in Chennai. || Schools reopen. " in
  let env := mkEnv (Some llm) true (λ _ _, Some ["never used"]) in
  let arts := [mkArticle "Chennai floods" "https://example.com/a"
                 (Some "body text") None] in
  summarize_section env "DINAMANI" "Latest News" arts =
    {| summary := Some "Floods recede in Chennai. || Schools reopen.";
       summary_ta := None; method := None; error := None |}.
Proof.
  intros llm env arts.
  apply (tamil_reply_without_delimiter env llm "DINAMANI" "Latest News" arts
           " Floods recede in Chennai. || Schools reopen. ").
  - done.
  - set_solver.
  - reflexivity.
  - reflexivity.
  - vm_compute. reflexivity.
Defined.

(** ** The length gate of Tier 2 *)

Lemma len_app (a b : string) : len (a +:+ b) = len a + len b.
Proof. unfold len. induction a as [|c a IH]; simpl; [done|]. by rewrite IH. Qed.

Lemma combined_two_bodies arts b1 b2 :
  body_texts arts = [b1; b2] →
  len (combined_bodies arts) = len b1 + len b2 + 2.
Proof.
  unfold combined_bodies. intros ->. simpl.
  rewrite !len_app. unfold nl, len. simpl. lia.
Qed.

Lemma extractive_tier_gate_closed env arts :
  (len (combined_bodies arts) ≤ 200)%nat → extractive_tier env arts = None.
Proof.
  intros Hle. unfold extractive_tier.
  destruct (body_texts arts); [done|].
  destruct (Nat.ltb_spec 200 (len (combined_bodies arts))); [lia|done].
Qed.

Lemma extractive_tier_gate_open env arts sents :
  (200 < len (combined_bodies arts))%nat →
  HAS_SUMY env = true →
  lexrank env (combined_bodies arts) 8 = Some sents →
  join " " sents ≠ "" →
  extractive_tier env arts =
    Some {| summary := Some (join " " sents); summary_ta := None;
            method := Some "extractive"; error := None |}.
Proof.
  intros Hlt Hs Hl Hne. unfold extractive_tier.
  destruct (body_texts arts) eqn:Hb.
  { unfold combined_bodies in Hlt. rewrite Hb in Hlt. simpl in Hlt. lia. }
  destruct (Nat.ltb_spec 200 (len (combined_bodies arts))); [|lia].
  assert (He : is_empty (combined_bodies arts) = false).
  { destruct (combined_bodies arts); [simpl in Hlt; lia|done]. }
  unfold summarize_extractive_sumy. rewrite Hs, He, Hl.
  destruct (Nat.ltb_spec (len (combined_bodies arts)) 100); [lia|].
  cbn [negb orb]. apply truthy_true in Hne. by rewrite Hne.
Qed.

(** C3, as the claim states it, fails: two article bodies of 100 and
    99 characters total 199 characters, their concatenation with the
    separator is 201 characters long, and the extractive tier is not
    skipped: its summary is what [summarize_section] returns. The
    gate is also still closed at a combined length of exactly 200. *)
Lemma extractive_tier_runs_on_199_body_characters :
  let b1 := string_of_list_ascii (replicate 100 "a"%char) in
  let b2 := string_of_list_ascii (replicate 99 "b"%char) in
  let b3 := string_of_list_ascii (replicate 98 "b"%char) in
  let art b := mkArticle "Title" "https://example.com/a" (Some b) None in
  let env := mkEnv None true (λ _ _, Some ["First sentence."; "Second one."]) in
  len b1 + len b2 = 199 ∧
  len (combined_bodies [art b1; art b2]) = 201 ∧
  summarize_section env "THE_HINDU" "Front Page" [art b1; art b2] =
    {| summary := Some "First sentence. Second one."; summary_ta := None;
       method := Some "extractive"; error := None |} ∧
  len (combined_bodies [art b1; art b3]) = 200 ∧
  method (summarize_section env "THE_HINDU" "Front Page" [art b1; art b3])
    = Some "headlines".
Proof. vm_compute. repeat split. Qed.

(** C3 (amended). The extractive tier is gated on the length of the
    first five non-empty bodies joined by blank-line separators, the
    separators included: at 200 characters or fewer the tier is
    skipped and control falls through to the headlines tier; above
    200 characters the LexRank summarizer is run with 8 sentences and
    its non-empty output is the section summary. Two bodies count for
    their lengths plus the two characters of the separator. *)
Theorem extractive_tier_length_gate (env : Env) (arts : list Article) :
  ((len (combined_bodies arts) ≤ 200)%nat →
   extractive_tier env arts = None ∧
   lower_tiers env arts = headlines_tier arts) ∧
  (∀ sents,
     (200 < len (combined_bodies arts))%nat →
     HAS_SUMY env = true →
     lexrank env (combined_bodies arts) 8 = Some sents →
     join " " sents ≠ "" →
     lower_tiers env arts =
       {| summary := Some (join " " sents); summary_ta := None;
          method := Some "extractive"; error := None |}) ∧
  (∀ src sec, arts ≠ [] → model env = None →
     summarize_section env src sec arts = lower_tiers env arts) ∧
  (∀ b1 b2, body_texts arts = [b1; b2] →
     len (combined_bodies arts) = len b1 + len b2 + 2).
Proof.
  split; [|split; [|split]].
  - intros Hle. unfold lower_tiers.
    by rewrite extractive_tier_gate_closed.
  - intros sents Hlt Hs Hl Hne. unfold lower_tiers.
    by rewrite (extractive_tier_gate_open env arts sents).
  - intros src sec Hne Hm. unfold summarize_section.
    destruct arts; [done|]. by rewrite Hm.
  - intros b1 b2. apply combined_two_bodies.
Qed.

Lemma extractive_tier_length_gate_witness :
  let b1 := string_of_list_ascii (replicate 100 "a"%char) in
  let b2 := string_of_list_ascii (replicate 97 "b"%char) in
  let art b := mkArticle "Title" "https://example.com/a" (Some b) None in
  let env := mkEnv None true (λ _ _, Some ["First sentence."]) in
  len (combined_bodies [art b1; art b2]) = 199 ∧
  lower_tiers env [art b1; art b2] = headlines_tier [art b1; art b2].
Proof.
  intros b1 b2 art env. split; [reflexivity|].
  apply (extractive_tier_length_gate env [art b1; art b2]).
  vm_compute. lia.
Defined.

End SummarizerProps.

(* ===================================================================== *)
(** * Properties of the title translator *)
(* ===================================================================== *)

Module TranslatorProps.
Import PyStr DailyBrief.

Local Abbreviation dot := "."%char.

Lemma contains_dot_cons c s :
  contains "." (String c s) = Ascii.eqb c dot || contains "." s.
Proof.
  change (contains "." (String c s))
    with (String.prefix "." (String c s) || contains "." s).
  f_equal.
  change (String.prefix "." (String c s))
    with (if ascii_dec "." c then String.prefix "" s else false).
  destruct (ascii_dec "." c) as [<-|Hne].
  - by destruct s.
  - by destruct (Ascii.eqb_spec c dot) as [->|_].
Qed.

(** A line without a dot stays in one part. *)
Lemma split_first_no_dot s :
  contains "." s = false → split_first dot s = [s].
Proof.
  induction s as [|c s IH]; [done|].
  rewrite contains_dot_cons. intros [Hc Hs]%orb_false_elim.
  simpl. rewrite Hc, IH by done. done.
Qed.

(** A line is cut at its first dot. *)
Lemma split_first_at_dot p0 rest :
  contains "." p0 = false →
  split_first dot (p0 +:+ "." +:+ rest) = [p0; rest].
Proof.
  induction p0 as [|c p0 IH]; [done|].
  rewrite contains_dot_cons. intros [Hc Hs]%orb_false_elim.
  simpl. rewrite Hc. simpl in IH. by rewrite IH.
Qed.

Lemma map_alter_same {A B} (f : A → B) (g : A → A) (l : list A) i :
  (∀ x, f (g x) = f x) → map f (alter g i l) = map f l.
Proof.
  intros Hfg. revert i.
  induction l as [|x l IH]; intros [|i]; simpl; [done|done| |].
  - by rewrite Hfg.
  - f_equal. apply IH.
Qed.

Lemma translate_line_titles arts line :
  map title (translate_line arts line) = map title arts ∧
  map link (translate_line arts line) = map link arts ∧
  length (translate_line arts line) = length arts.
Proof.
  unfold translate_line.
  destruct (split_first "." line) as [|p0 [|p1 [|? ?]]]; try done.
  destruct (int_of_str (strip p0)) as [n|]; [|done].
  destruct (_ && _)%Z; [|done].
  rewrite length_alter.
  split; [|split; [|done]]; by apply map_alter_same.
Qed.

Lemma translate_lines_titles lines arts :
  map title (fold_left translate_line lines arts) = map title arts ∧
  map link (fold_left translate_line lines arts) = map link arts ∧
  length (fold_left translate_line lines arts) = length arts.
Proof.
  revert arts. induction lines as [|l lines IH]; intros arts; [done|].
  simpl. destruct (IH (translate_line arts l)) as (-> & -> & ->).
  apply translate_line_titles.
Qed.

(** What one response line does, by the index written before its
    first dot. *)
Lemma translate_line_indexed arts p0 rest :
  contains "." p0 = false →
  translate_line arts (p0 +:+ "." +:+ rest) =
    match int_of_str (strip p0) with
    | Some n =>
        if ((1 <=? n) && (n <=? Z.of_nat (length arts)))%Z
        then alter (set_title_en (strip rest)) (Z.to_nat (n - 1)) arts
        else arts
    | None => arts
    end.
Proof.
  intros Hd. unfold translate_line.
  rewrite (split_first_at_dot p0 rest Hd).
  destruct (int_of_str (strip p0)) as [n|]; [|done].
  destruct (Z.leb_spec 0 (n - 1)), (Z.ltb_spec (n - 1) (Z.of_nat (length arts))),
           (Z.leb_spec 1 n), (Z.leb_spec n (Z.of_nat (length arts)));
    simpl; (done || lia).
Qed.

(** The translation a response line carries for the article at
    position [j], counted from 0: the text after the line's first dot,
    stripped, when the number before that dot is [j + 1]. *)
Definition line_for (j : nat) (line : string) : option string :=
  match split_first "." line with
  | [p0; p1] =>
      if decide (int_of_str (strip p0) = Some (Z.of_nat j + 1)%Z)
      then Some (strip p1) else None
  | _ => None
  end.

(** The translations the lines of a reply carry for the article at
    position [j], in the order of the lines. *)
Definition lines_for (j : nat) (lines : list string) : list string :=
  omap (line_for j) lines.

(** The article at one position after one response line. *)
Lemma translate_line_lookup arts line j :
  translate_line arts line !! j =
  match line_for j line with
  | Some tr => set_title_en tr <$> arts !! j
  | None => arts !! j
  end.
Proof.
  unfold translate_line, line_for.
  destruct (split_first "." line) as [|p0 [|p1 [|? ?]]]; try done.
  destruct (int_of_str (strip p0)) as [n|]; [|by rewrite decide_False].
  destruct (Z.leb_spec 0 (n - 1)), (Z.ltb_spec (n - 1) (Z.of_nat (length arts)));
    cbn [andb].
  - destruct (decide (j = Z.to_nat (n - 1))) as [->|Hne].
    + rewrite decide_True by (f_equal; lia).
      apply list_lookup_alter_eq.
    + rewrite decide_False by (intros [= ->]; lia).
      by apply list_lookup_alter_ne.
  - destruct (decide (Some n = Some (Z.of_nat j + 1)%Z)) as [[= ->]|]; [|done].
    rewrite lookup_ge_None_2 by lia. done.
  - by rewrite decide_False by (intros [= ->]; lia).
  - by rewrite decide_False by (intros [= ->]; lia).
Qed.

(** The article at one position after all the lines of a reply: the
    last line that carries a translation for it decides. *)
Lemma translate_lines_lookup lines arts j :
  fold_left translate_line lines arts !! j =
  match last (lines_for j lines) with
  | Some tr => set_title_en tr <$> arts !! j
  | None => arts !! j
  end.
Proof.
  unfold lines_for.
  induction lines as [|line lines IH] using rev_ind; [done|].
  rewrite fold_left_app. cbn [fold_left].
  rewrite translate_line_lookup, IH, omap_app.
  assert (Hone : omap (line_for j) [line]
                 = match line_for j line with Some tr => [tr] | None => [] end)
    by (simpl; by destruct (line_for j line)).
  rewrite Hone. destruct (line_for j line) as [tr|].
  - rewrite last_snoc.
    destruct (last (omap (line_for j) lines)); [|done].
    by destruct (arts !! j).
  - by rewrite app_nil_r.
Qed.

(** C8. [translate_titles_batch] attributes a response line to the
    article whose 1-based number is written before the line's first
    dot, whatever the position of the line: a line without a dot, a
    line whose number does not parse, and a line whose number is
    below 1 or above the number of articles each leave every article
    as it was; a line with a number in range sets the translated
    title of exactly that article. Titles, links and the number of
    articles never change. Every line of the stripped reply is
    applied: after the call, an article bears the translation of the
    last reply line that carries its number, wherever that line
    stands, and is as it was when no line carries its number. When
    the LLM call raises, or no model is configured, the call returns
    the articles untouched. A reply [3. Foo] for two articles changes
    nothing, and a reply whose lines come in the order 2, 1 still
    gives each article its own translation. *)
Theorem translate_by_index :
  (∀ arts line, contains "." line = false → translate_line arts line = arts) ∧
  (∀ arts p0 rest,
     contains "." p0 = false → int_of_str (strip p0) = None →
     translate_line arts (p0 +:+ "." +:+ rest) = arts) ∧
  (∀ arts p0 rest n,
     contains "." p0 = false → int_of_str (strip p0) = Some n →
     (n < 1 ∨ Z.of_nat (length arts) < n)%Z →
     translate_line arts (p0 +:+ "." +:+ rest) = arts) ∧
  (∀ arts p0 rest n,
     contains "." p0 = false → int_of_str (strip p0) = Some n →
     (1 ≤ n ≤ Z.of_nat (length arts))%Z →
     let arts' := translate_line arts (p0 +:+ "." +:+ rest) in
     title_en <$> arts' !! Z.to_nat (n - 1) = Some (Some (strip rest)) ∧
     (∀ j, j ≠ Z.to_nat (n - 1) → arts' !! j = arts !! j)) ∧
  (∀ env arts,
     map title (translate_titles_batch env arts) = map title arts ∧
     map link (translate_titles_batch env arts) = map link arts ∧
     length (translate_titles_batch env arts) = length arts) ∧
  (∀ env llm arts msg,
     model env = Some llm → llm (translate_prompt arts) = Raises msg →
     translate_titles_batch env arts = arts) ∧
  (∀ env arts, model env = None → translate_titles_batch env arts = arts) ∧
  (∀ env llm arts reply j,
     model env = Some llm → arts ≠ [] →
     llm (translate_prompt arts) = Text reply →
     translate_titles_batch env arts !! j =
     match last (lines_for j (split_char (ascii_of_nat 10) (strip reply))) with
     | Some tr => set_title_en tr <$> arts !! j
     | None => arts !! j
     end) ∧
  (let arts := [mkArticle "T1" "https://example.com/1" None None;
                mkArticle "T2" "https://example.com/2" None None] in
   translate_titles_batch
     (mkEnv (Some (λ _, Text "3. Foo")) false (λ _ _, None)) arts = arts ∧
   translate_titles_batch
     (mkEnv (Some (λ _, Text ("2. Second" +:+ nl +:+ "1. First")))
            false (λ _ _, None)) arts
     = [mkArticle "T1" "https://example.com/1" None (Some "First");
        mkArticle "T2" "https://example.com/2" None (Some "Second")]).
Proof.
  split; [|split; [|split; [|split; [|split; [|split; [|split; [|split]]]]]]].
  - intros arts line Hd. unfold translate_line.
    by rewrite (split_first_no_dot line Hd).
  - intros arts p0 rest Hd Hp.
    by rewrite translate_line_indexed, Hp.
  - intros arts p0 rest n Hd Hp Hout.
    rewrite translate_line_indexed, Hp by done.
    destruct (Z.leb_spec 1 n), (Z.leb_spec n (Z.of_nat (length arts)));
      simpl; (done || lia).
  - intros arts p0 rest n Hd Hp Hin arts'. subst arts'.
    rewrite translate_line_indexed, Hp by done.
    destruct (Z.leb_spec 1 n), (Z.leb_spec n (Z.of_nat (length arts)));
      try lia. simpl. split.
    + rewrite list_lookup_alter_eq.
      destruct (lookup_lt_is_Some_2 arts (Z.to_nat (n - 1))) as [a Ha]; [lia|].
      by rewrite Ha.
    + intros j Hj. by rewrite list_lookup_alter_ne.
  - intros env arts. unfold translate_titles_batch.
    destruct (model env) as [llm|]; [|done].
    destruct arts as [|a arts']; [done|].
    destruct (llm _); [done|]. apply translate_lines_titles.
  - intros env llm arts msg Hm Hl. unfold translate_titles_batch.
    rewrite Hm, Hl. by destruct arts.
  - intros env arts Hm. unfold translate_titles_batch. by rewrite Hm.
  - intros env llm arts reply j Hm Hne Hl. unfold translate_titles_batch.
    rewrite Hm, Hl. destruct arts as [|a arts']; [done|].
    apply translate_lines_lookup.
  - split; vm_compute; reflexivity.
Qed.

Lemma translate_by_index_witness :
  let arts := [mkArticle "T1" "https://example.com/1" None None;
               mkArticle "T2" "https://example.com/2" None None] in
  let arts' := translate_line arts (" 2 " +:+ "." +:+ " Second ") in
  let reply := "2. Second" +:+ nl +:+ "no number" +:+ nl +:+ "7. Seventh"
               +:+ nl +:+ "1. First" +:+ nl +:+ "2. Second again" in
  let env := mkEnv (Some (λ _, Text reply)) false (λ _ _, None) in
  (title_en <$> arts' !! 1%nat = Some (Some "Second") ∧
   arts' !! 0%nat = arts !! 0%nat) ∧
  translate_titles_batch env arts !! 1%nat
    = Some (mkArticle "T2" "https://example.com/2" None (Some "Second again")).
Proof.
  intros arts arts' reply env.
  destruct translate_by_index as (_ & _ & _ & Hin & _ & _ & _ & Hall & _).
  split.
  - destruct (Hin arts " 2 " " Second " 2%Z) as [Hset Hkeep].
    + reflexivity.
    + reflexivity.
    + simpl. lia.
    + split; [exact Hset | apply Hkeep; simpl; lia].
  - rewrite (Hall env (λ _, Text reply) arts reply 1%nat);
      [vm_compute; reflexivity|reflexivity|done|reflexivity].
Defined.

End TranslatorProps.

(* ===================================================================== *)
(** * Properties of the event-document merge *)
(* ===================================================================== *)

Module MergeProps.
Import PyStr UpAhead.

(** ** Loops that may raise *)

Lemma for_each_app {A S} (f : S → A → res S) l1 l2 s :
  for_each f (l1 ++ l2) s = s' ← for_each f l1 s; for_each f l2 s'.
Proof.
  revert s. induction l1 as [|x l1 IH]; intros s; [done|].
  simpl. destruct (f s x) as [s1|e]; simpl; [apply IH|done].
Qed.

(** A loop none of whose rounds raises is a fold. *)
Lemma for_each_fold {A S} (f : S → A → res S) (g : S → A → S) l s :
  Forall (λ x, ∀ s, f s x = Ok (g s x)) l →
  for_each f l s = Ok (fold_left g l s).
Proof.
  intros H. revert s. induction H as [|x l Hx _ IH]; intros s; [done|].
  simpl. rewrite Hx. simpl. apply IH.
Qed.

(** Rounds that leave the state alone can be taken out of the list. *)
Lemma for_each_skip {A S} (f : S → A → res S) (keep : A → bool) l s :
  (∀ x s, keep x = false → f s x = Ok s) →
  for_each f (List.filter keep l) s = for_each f l s.
Proof.
  intros Hskip. revert s. induction l as [|x l IH]; intros s; [done|].
  simpl. destruct (keep x) eqn:E.
  - simpl. destruct (f s x); simpl; [apply IH|done].
  - rewrite (Hskip x s E). simpl. apply IH.
Qed.

(** ** The insertion-ordered dict *)

Definition keys {V : Type} (m : list (string * V)) : list string := map fst m.

Lemma dict_get_set_eq {V} k (v : V) m : dict_get k (dict_set k v m) = Some v.
Proof.
  induction m as [|[k' v'] m IH]; simpl.
  - by rewrite String.eqb_refl.
  - destruct (String.eqb_spec k k'); simpl.
    + by rewrite String.eqb_refl.
    + by destruct (String.eqb_spec k k').
Qed.

Lemma dict_get_set_ne {V} k k' (v : V) m :
  k ≠ k' → dict_get k (dict_set k' v m) = dict_get k m.
Proof.
  intros Hne. induction m as [|[k0 v0] m IH]; simpl.
  - by destruct (String.eqb_spec k k').
  - destruct (String.eqb_spec k' k0) as [->|]; simpl.
    + destruct (String.eqb_spec k k0); [done|done].
    + destruct (String.eqb_spec k k0); [done|apply IH].
Qed.

Lemma dict_get_None {V} k (m : list (string * V)) :
  dict_get k m = None ↔ k ∉ keys m.
Proof.
  induction m as [|[k' v'] m IH]; simpl.
  - split; [intros _; apply not_elem_of_nil|done].
  - rewrite not_elem_of_cons.
    destruct (String.eqb_spec k k'); [split; [done|tauto]|].
    rewrite IH. tauto.
Qed.

Lemma dict_get_Some_values {V} k (v : V) m :
  dict_get k m = Some v → v ∈ dict_values m.
Proof.
  unfold dict_values. induction m as [|[k' v'] m IH]; simpl; [done|].
  destruct (String.eqb_spec k k').
  - intros [= ->]. apply list_elem_of_here.
  - intros H. apply list_elem_of_further, IH, H.
Qed.

(** Writing a new key appends the entry. *)
Lemma dict_set_new {V} k (v : V) m :
  k ∉ keys m → dict_set k v m = m ++ [(k, v)].
Proof.
  induction m as [|[k' v'] m IH]; simpl; [done|].
  rewrite not_elem_of_cons. intros [Hne Hk].
  destruct (String.eqb_spec k k'); [done|]. by rewrite IH.
Qed.

(** Writing a present key keeps the keys and their order. *)
Lemma dict_set_keys {V} k (v : V) m :
  k ∈ keys m → keys (dict_set k v m) = keys m.
Proof.
  induction m as [|[k' v'] m IH]; simpl.
  - by intros ?%elem_of_nil.
  - destruct (String.eqb_spec k k') as [->|Hne]; [done|].
    intros [?|Hin]%elem_of_cons; [done|]. simpl. by rewrite IH.
Qed.

(** ** The date sort *)

Definition date_le (a b : DayBucket) : Prop :=
  String.leb (date_key a) (date_key b) = true.

Lemma insert_by_date_perm x l : insert_by_date x l ≡ₚ x :: l.
Proof.
  induction l as [|y l IH]; simpl; [done|].
  destruct (String.leb _ _); [done|].
  rewrite IH. apply Permutation_swap.
Qed.

Lemma sorted_by_date_perm l : sorted_by_date l ≡ₚ l.
Proof.
  induction l as [|x l IH]; simpl; [done|].
  by rewrite insert_by_date_perm, IH.
Qed.

Lemma string_leb_trans s1 s2 s3 :
  String.leb s1 s2 = true → String.leb s2 s3 = true →
  String.leb s1 s3 = true.
Proof.
  unfold String.leb. revert s2 s3.
  induction s1 as [|c1 s1 IH]; intros [|c2 s2] [|c3 s3]; simpl; try done.
  unfold Ascii.compare.
  destruct (N.compare_spec (N_of_ascii c1) (N_of_ascii c2)),
           (N.compare_spec (N_of_ascii c2) (N_of_ascii c3)),
           (N.compare_spec (N_of_ascii c1) (N_of_ascii c3));
    try done; try lia.
  apply IH.
Qed.

Lemma insert_by_date_sorted x l :
  StronglySorted date_le l → StronglySorted date_le (insert_by_date x l).
Proof.
  induction 1 as [|y l Hl IH Hy]; simpl.
  - by repeat constructor.
  - destruct (String.leb (date_key x) (date_key y)) eqn:E.
    + constructor; [by constructor|].
      constructor; [done|].
      eapply Forall_impl; [exact Hy|].
      intros z Hz. by eapply string_leb_trans.
    + constructor; [done|].
      rewrite insert_by_date_perm. constructor; [|done].
      destruct (String.leb_total (date_key x) (date_key y)); [congruence|done].
Qed.

Lemma sorted_by_date_sorted l : StronglySorted date_le (sorted_by_date l).
Proof.
  induction l; simpl; [constructor|by apply insert_by_date_sorted].
Qed.

(** ** The two timeline loops, round by round *)

Definition has_date (b : DayBucket) : Prop := is_Some (date b).

(** The bucket's date parses and is today or later. *)
Definition in_window (today : Date) (b : DayBucket) : bool :=
  match date b with
  | Some s => match strptime s with
              | Some d => date_leb today d
              | None => false
              end
  | None => false
  end.

(** The bucket's date parses and is before today. *)
Definition is_past (today : Date) (b : DayBucket) : bool :=
  match date b with
  | Some s => match strptime s with
              | Some d => negb (date_leb today d)
              | None => false
              end
  | None => false
  end.


(** A round of the first loop on a bucket that has a date. *)
Definition seed_pure (today : Date) (m : tmap) (b : DayBucket) : tmap :=
  if in_window today b then dict_set (date_key b) b m else m.

(** A round of the second loop on a bucket that has a date. *)
Definition merge_pure (m : tmap) (b : DayBucket) : tmap :=
  match dict_get (date_key b) m with
  | None => dict_set (date_key b) b m
  | Some target =>
      dict_set (date_key b)
        (set_items (merge_items (default [] (items target))
                                (default [] (items b))) target) m
  end.

Lemma seed_day_pure today m b :
  has_date b → seed_day today m b = Ok (seed_pure today m b).
Proof.
  intros [s Hs]. unfold seed_day, seed_pure, in_window, get_date, date_key.
  rewrite Hs. simpl. destruct (strptime s); [|done].
  by destruct (date_leb _ _).
Qed.

Lemma merge_day_pure m b : has_date b → merge_day m b = Ok (merge_pure m b).
Proof.
  intros [s Hs]. unfold merge_day, merge_pure, get_date, date_key.
  rewrite Hs. simpl. by destruct (dict_get s m).
Qed.

Lemma seed_loop_pure today l m :
  Forall has_date l →
  for_each (seed_day today) l m = Ok (fold_left (seed_pure today) l m).
Proof.
  intros H. apply for_each_fold. eapply Forall_impl; [exact H|].
  intros b Hb s. by apply seed_day_pure.
Qed.

Lemma merge_loop_pure l m :
  Forall has_date l → for_each merge_day l m = Ok (fold_left merge_pure l m).
Proof.
  intros H. apply for_each_fold. eapply Forall_impl; [exact H|].
  intros b Hb s. by apply merge_day_pure.
Qed.

Lemma seed_day_skip today m b :
  in_window today b = false → has_date b → seed_day today m b = Ok m.
Proof.
  intros Hw Hd. rewrite seed_day_pure by done. unfold seed_pure. by rewrite Hw.
Qed.

(** The timeline of a document, an absent key read as no bucket. *)
Definition buckets (d : EventDocument) : list DayBucket :=
  default [] (timeline d).

(** The merged document when no round raises. *)
Definition merged_doc (today : Date) (ex new_data : EventDocument)
    : EventDocument :=
  {| timeline :=
       Some (sorted_by_date (dict_values
               (fold_left merge_pure (buckets new_data)
                  (fold_left (seed_pure today) (buckets ex) []))));
     sections :=
       Some (merge_sections (default ∅ (sections ex))
                            (default ∅ (sections new_data)));
     weekly_plan :=
       Some (match weekly_plan new_data with
             | Some w => w
             | None => default ∅ (weekly_plan ex)
             end);
     lastUpdated := None |}.

Lemma merge_data_truthy today ex new_data :
  doc_truthy ex = true →
  Forall has_date (buckets ex) → Forall has_date (buckets new_data) →
  merge_data today (Some ex) new_data = Ok (merged_doc today ex new_data).
Proof.
  intros Ht He Hn. unfold merge_data, merge_timeline. rewrite Ht. simpl.
  fold (buckets ex) (buckets new_data).
  rewrite seed_loop_pure by done. simpl.
  rewrite merge_loop_pure by done. done.
Qed.

Lemma merge_data_falsy today ex new_data :
  doc_truthy ex = false → merge_data today (Some ex) new_data = Ok new_data.
Proof. intros Ht. unfold merge_data. by rewrite Ht. Qed.

(** [merge_data] returns a document whenever every bucket has a date
    key, whatever the date strings are. *)
Lemma merge_data_returns today ex new_data :
  Forall has_date (buckets ex) → Forall has_date (buckets new_data) →
  ∃ r, merge_data today (Some ex) new_data = Ok r.
Proof.
  intros He Hn. destruct (doc_truthy ex) eqn:Ht.
  - eexists. by apply merge_data_truthy.
  - eexists. by apply merge_data_falsy.
Qed.

(** Replacing the existing timeline by one the first loop treats alike
    does not change the merge. *)
Definition with_timeline (f : list DayBucket → list DayBucket)
    (d : EventDocument) : EventDocument :=
  {| timeline := f <$> timeline d; sections := sections d;
     weekly_plan := weekly_plan d; lastUpdated := lastUpdated d |}.

Lemma merge_data_seed_equiv today f ex new_data :
  (∀ l m, for_each (seed_day today) (f l) m = for_each (seed_day today) l m) →
  f [] = [] →
  merge_data today (Some (with_timeline f ex)) new_data
  = merge_data today (Some ex) new_data.
Proof.
  intros Hf Hnil. unfold merge_data, merge_timeline.
  assert (doc_truthy (with_timeline f ex) = doc_truthy ex) as ->.
  { unfold doc_truthy, with_timeline. simpl. by destruct (timeline ex). }
  destruct (doc_truthy ex); [|done]. simpl.
  assert (default [] (f <$> timeline ex) = f (default [] (timeline ex))) as ->.
  { by destruct (timeline ex). }
  by rewrite Hf.
Qed.

Definition drop_past (today : Date) (d : EventDocument) : EventDocument :=
  with_timeline (List.filter (λ b, negb (is_past today b))) d.


Lemma seed_day_past today m b : is_past today b = true → seed_day today m b = Ok m.
Proof.
  unfold is_past, seed_day, get_date. destruct (date b) as [s|]; [|done].
  simpl. destruct (strptime s); [|done]. by destruct (date_leb _ _).
Qed.


Lemma merge_data_drop_past today ex new_data :
  merge_data today (Some (drop_past today ex)) new_data
  = merge_data today (Some ex) new_data.
Proof.
  apply merge_data_seed_equiv; [|done]. intros l m.
  apply for_each_skip. intros b s Hb. apply seed_day_past.
  by destruct (is_past today b).
Qed.


(** ** Merging the items of one day *)

Definition title_lc (i : Item) : string := lower (get_title i).

(** The incoming items that the merge appends: those whose lower-cased
    title is not the lower-cased title of an existing item. *)
Definition fresh_items (existing_items new_items : list Item) : list Item :=
  filter (λ i, title_lc i ∉ map title_lc existing_items) new_items.

Lemma append_unless_fold {A} (P : A → Prop) `{∀ x, Decision (P x)}
    (l acc : list A) :
  fold_left (λ acc x, if decide (P x) then acc else acc ++ [x]) l acc
  = acc ++ filter (λ x, ¬ P x) l.
Proof.
  revert acc. induction l as [|x l IH]; intros acc; simpl.
  - by rewrite app_nil_r.
  - rewrite IH, filter_cons. destruct (decide (P x)).
    + by rewrite decide_False by tauto.
    + rewrite decide_True by done. by rewrite <- app_assoc.
Qed.

Lemma merge_items_spec existing_items new_items :
  merge_items existing_items new_items
  = existing_items ++ fresh_items existing_items new_items.
Proof.
  unfold merge_items, fresh_items.
  rewrite (append_unless_fold
             (λ i, lower (get_title i) ∈
                   (list_to_set (map (λ item, lower (get_title item))
                                     existing_items) : gset string))).
  f_equal. apply list_filter_iff. intros i.
  by rewrite elem_of_list_to_set.
Qed.

Lemma filter_none {A} (P : A → Prop) `{∀ x, Decision (P x)} (l : list A) :
  Forall (λ x, ¬ P x) l → filter P l = [].
Proof.
  induction 1 as [|x l Hx _ IH]; [done|].
  by rewrite filter_cons, decide_False.
Qed.

(** Merging a bucket's own items into it appends nothing. *)
Lemma merge_items_self l more : merge_items (l ++ more) l = l ++ more.
Proof.
  rewrite merge_items_spec. unfold fresh_items.
  rewrite filter_none; [by rewrite app_nil_r|].
  apply Forall_forall. intros i Hi Hn. apply Hn.
  rewrite map_app. apply elem_of_app. left.
  by apply (list_elem_of_fmap_2 title_lc).
Qed.

(** ** What a bucket of the map becomes *)

(** [b'] is [b] with, possibly, items appended. *)
Definition carried (b b' : DayBucket) : Prop :=
  date b' = date b ∧ dayLabel b' = dayLabel b ∧
  ∃ more, default [] (items b') = default [] (items b) ++ more.

Lemma carried_refl b : carried b b.
Proof. repeat split. exists []. by rewrite app_nil_r. Qed.

Lemma carried_trans a b c : carried a b → carried b c → carried a c.
Proof.
  intros (H1 & H2 & m1 & H3) (H4 & H5 & m2 & H6).
  split; [congruence|]. split; [congruence|].
  exists (m1 ++ m2). by rewrite H6, H3, app_assoc.
Qed.

Lemma merge_pure_get_other k m b :
  date_key b ≠ k → dict_get k (merge_pure m b) = dict_get k m.
Proof.
  intros Hne. unfold merge_pure.
  destruct (dict_get (date_key b) m); by apply dict_get_set_ne.
Qed.

Lemma merge_pure_get_same m b :
  dict_get (date_key b) (merge_pure m b) =
  Some (match dict_get (date_key b) m with
        | None => b
        | Some target =>
            set_items (merge_items (default [] (items target))
                                   (default [] (items b))) target
        end).
Proof.
  unfold merge_pure. destruct (dict_get (date_key b) m);
    apply dict_get_set_eq.
Qed.

Lemma merge_pure_carries k m b t :
  dict_get k m = Some t →
  ∃ t', dict_get k (merge_pure m b) = Some t' ∧ carried t t'.
Proof.
  intros Hk. destruct (decide (date_key b = k)) as [<-|Hne].
  - rewrite merge_pure_get_same, Hk. eexists; split; [done|].
    repeat split. simpl. rewrite merge_items_spec. by eexists.
  - rewrite merge_pure_get_other by done.
    exists t. split; [done|apply carried_refl].
Qed.

Lemma merge_fold_carries l k m t :
  dict_get k m = Some t →
  ∃ t', dict_get k (fold_left merge_pure l m) = Some t' ∧ carried t t'.
Proof.
  revert m t. induction l as [|b l IH]; intros m t Hk; simpl.
  - exists t. split; [done|apply carried_refl].
  - destruct (merge_pure_carries k m b t Hk) as (t1 & H1 & C1).
    destruct (IH _ _ H1) as (t2 & H2 & C2).
    exists t2. split; [done|by eapply carried_trans].
Qed.

Lemma merge_fold_get_other l k m :
  Forall (λ b, date_key b ≠ k) l →
  dict_get k (fold_left merge_pure l m) = dict_get k m.
Proof.
  intros H. revert m. induction H as [|b l Hb _ IH]; intros m; simpl; [done|].
  by rewrite IH, merge_pure_get_other.
Qed.

Lemma seed_pure_get_other today k m b :
  date_key b ≠ k → dict_get k (seed_pure today m b) = dict_get k m.
Proof.
  intros Hne. unfold seed_pure.
  destruct (in_window today b); [by apply dict_get_set_ne|done].
Qed.

Lemma seed_fold_get_other today l k m :
  Forall (λ b, date_key b ≠ k) l →
  dict_get k (fold_left (seed_pure today) l m) = dict_get k m.
Proof.
  intros H. revert m. induction H as [|b l Hb _ IH]; intros m; simpl; [done|].
  by rewrite IH, seed_pure_get_other.
Qed.

(** After the first loop, the entry of a date is the last bucket of
    the window that bears it. *)
Lemma seed_fold_last today pre b post m :
  in_window today b = true →
  Forall (λ c, date_key c ≠ date_key b) post →
  dict_get (date_key b) (fold_left (seed_pure today) (pre ++ b :: post) m)
  = Some b.
Proof.
  intros Hw Hpost. rewrite fold_left_app. simpl.
  rewrite seed_fold_get_other by done.
  unfold seed_pure at 1. rewrite Hw. apply dict_get_set_eq.
Qed.

(** Every value of the map sits under its own date. *)
Definition keyed (m : tmap) : Prop :=
  ∀ k v, dict_get k m = Some v → date v = Some k.

Lemma date_key_date b : has_date b → date b = Some (date_key b).
Proof. intros [s Hs]. unfold date_key. by rewrite Hs. Qed.

Lemma keyed_set k v m : keyed m → date v = Some k → keyed (dict_set k v m).
Proof.
  intros Hm Hv k' v'. destruct (decide (k' = k)) as [->|Hne].
  - rewrite dict_get_set_eq. by intros [= <-].
  - rewrite dict_get_set_ne by done. apply Hm.
Qed.

Lemma keyed_seed today m b : has_date b → keyed m → keyed (seed_pure today m b).
Proof.
  intros Hb Hm. unfold seed_pure. destruct (in_window today b); [|done].
  apply keyed_set; [done|by apply date_key_date].
Qed.

Lemma keyed_merge m b : has_date b → keyed m → keyed (merge_pure m b).
Proof.
  intros Hb Hm. unfold merge_pure.
  destruct (dict_get (date_key b) m) as [t|] eqn:E.
  - apply keyed_set; [done|]. simpl. by apply Hm.
  - apply keyed_set; [done|by apply date_key_date].
Qed.

Lemma keyed_seed_fold today l m :
  Forall has_date l → keyed m → keyed (fold_left (seed_pure today) l m).
Proof.
  intros H. revert m. induction H as [|b l Hb _ IH]; intros m Hm; [done|].
  simpl. by apply IH, keyed_seed.
Qed.

Lemma keyed_merge_fold l m :
  Forall has_date l → keyed m → keyed (fold_left merge_pure l m).
Proof.
  intros H. revert m. induction H as [|b l Hb _ IH]; intros m Hm; [done|].
  simpl. by apply IH, keyed_merge.
Qed.

Lemma keyed_nil : keyed [].
Proof. by intros k v. Qed.


Lemma in_merged_timeline today ex new_data k v :
  dict_get k (fold_left merge_pure (buckets new_data)
                (fold_left (seed_pure today) (buckets ex) [])) = Some v →
  v ∈ buckets (merged_doc today ex new_data).
Proof.
  intros H. unfold buckets at 1, merged_doc. simpl.
  rewrite sorted_by_date_perm. by eapply dict_get_Some_values.
Qed.

Lemma date_key_ne b c :
  has_date b → has_date c → date c ≠ date b → date_key c ≠ date_key b.
Proof.
  intros Hb Hc Hne Heq. apply Hne.
  rewrite (date_key_date b Hb), (date_key_date c Hc). by rewrite Heq.
Qed.

Lemma other_dates b l :
  has_date b → Forall has_date l → Forall (λ c, date c ≠ date b) l →
  Forall (λ c, date_key c ≠ date_key b) l.
Proof.
  intros Hb Hl Hne. induction Hl as [|c l Hc _ IH]; [done|].
  apply Forall_cons in Hne as [Hc' Hl']. constructor; [|by apply IH].
  by apply date_key_ne.
Qed.

Lemma has_date_middle pre (b : DayBucket) post :
  Forall has_date (pre ++ b :: post) →
  Forall has_date pre ∧ has_date b ∧ Forall has_date post.
Proof.
  intros [Hpre [Hb Hpost]%Forall_cons]%Forall_app. done.
Qed.

Definition titled (t : string) : Item := {| title := Some t; fields := [] |}.

(** ** Same-day buckets *)

(** C4, as the claim states it, fails: the incoming title [" x "] is,
    once trimmed and lower-cased, the title of the existing item
    ["X"], and the merge appends it all the same. *)
Lemma untrimmed_title_is_appended :
  let today := mkDate 2024 1 2 in
  let day l := mkDay (Some "2024-01-05") "Friday" (Some l) in
  let ex := mkDoc (Some [day [titled "X"]]) None None (Some "2024-01-01T06:00:00") in
  let new_data := mkDoc (Some [day [titled " x "]]) None None None in
  lower (strip (get_title (titled " x "))) ∈
    map (λ i, lower (strip (get_title i))) [titled "X"] ∧
  merge_items [titled "X"] [titled " x "] = [titled "X"; titled " x "] ∧
  merge_data today (Some ex) new_data =
    Ok (mkDoc (Some [day [titled "X"; titled " x "]]) (Some ∅) (Some ∅) None).
Proof.
  split; [|split].
  - vm_compute. apply list_elem_of_here.
  - vm_compute. reflexivity.
  - vm_compute. reflexivity.
Qed.

(** ** Past-dated buckets *)

(** C6, as the claim states it, fails: of two buckets of the existing
    timeline dated the same day, today or later, only the second is
    retained; the first is replaced in [timeline_map] and its item is
    in no bucket of the result. *)
Lemma earlier_same_date_bucket_lost :
  let today := mkDate 2024 1 2 in
  let b1 := mkDay (Some "2024-01-05") "Friday" (Some [titled "Concert"]) in
  let b2 := mkDay (Some "2024-01-05") "Fri" (Some [titled "Parade"]) in
  let ex := mkDoc (Some [b1; b2]) None None None in
  let new_data := mkDoc (Some []) None None None in
  in_window today b1 = true ∧
  merge_data today (Some ex) new_data
    = Ok (mkDoc (Some [b2]) (Some ∅) (Some ∅) None).
Proof. vm_compute. by split. Qed.

(** ** Date strings that do not parse *)


(** ** Merging category sections *)

(** The key under which the section merge remembers an item. *)
Definition dedup_key (i : Item) : string := lower (strip (get_title i)).

Lemma is_empty_false s : is_empty s = false ↔ s ≠ "".
Proof. destruct s; simpl; split; (done || congruence). Qed.

Lemma dedup_step_fresh seen acc i :
  dedup_key i ≠ "" → dedup_key i ∉ seen →
  dedup_step (seen, acc) i = ({[ dedup_key i ]} ∪ seen, acc ++ [i]).
Proof.
  intros Hne Hs. unfold dedup_step. fold (dedup_key i). simpl.
  apply is_empty_false in Hne. rewrite Hne. simpl.
  by rewrite bool_decide_true.
Qed.

Lemma dedup_step_seen seen acc i :
  dedup_key i = "" ∨ dedup_key i ∈ seen →
  dedup_step (seen, acc) i = (seen, acc).
Proof.
  intros H. unfold dedup_step. fold (dedup_key i). simpl.
  destruct H as [->|H]; [done|].
  rewrite (bool_decide_false (dedup_key i ∉ seen)) by tauto.
  by rewrite andb_false_r.
Qed.

Lemma dedup_fold_fresh l seen acc :
  Forall (λ i, dedup_key i ≠ "") l →
  NoDup (map dedup_key l) →
  Forall (λ i, dedup_key i ∉ seen) l →
  fold_left dedup_step l (seen, acc)
  = (list_to_set (map dedup_key l) ∪ seen, acc ++ l).
Proof.
  intros Hne. revert seen acc.
  induction Hne as [|i l Hi _ IH]; intros seen acc Hnd Hs; simpl.
  - by rewrite app_nil_r, (left_id_L ∅ (∪)).
  - apply NoDup_cons in Hnd as [Hi' Hnd].
    apply Forall_cons in Hs as [His Hs].
    rewrite dedup_step_fresh by done.
    rewrite IH; [|done|].
    + f_equal; [|by rewrite <- app_assoc].
      by rewrite (assoc_L (∪)), (comm_L (∪) _ {[ dedup_key i ]}).
    + eapply Forall_impl; [apply Forall_forall; intros j Hj; exact Hj|].
      intros j Hj. simpl in Hj. apply not_elem_of_union. split.
      * apply not_elem_of_singleton. intros Heq. apply Hi'.
        rewrite <- Heq. by apply (list_elem_of_fmap_2 dedup_key).
      * rewrite Forall_forall in Hs. by apply Hs.
Qed.

Lemma dedup_fold_seen l seen acc :
  Forall (λ i, dedup_key i = "" ∨ dedup_key i ∈ seen) l →
  fold_left dedup_step l (seen, acc) = (seen, acc).
Proof.
  induction 1 as [|i l Hi _ IH]; simpl; [done|].
  by rewrite dedup_step_seen.
Qed.

(** A category list is well keyed when every item has a non-blank
    title and no two items share a title up to case and surrounding
    white space. *)
Definition well_keyed (l : list Item) : Prop :=
  Forall (λ i, dedup_key i ≠ "") l ∧ NoDup (map dedup_key l).

Lemma merge_category_self l : well_keyed l → merge_category l l = l.
Proof.
  intros [Hne Hnd]. unfold merge_category.
  rewrite dedup_fold_fresh; [|done|done|].
  - rewrite dedup_fold_seen; [done|].
    apply Forall_forall. intros i Hi. right.
    apply elem_of_union_l, elem_of_list_to_set.
    by apply (list_elem_of_fmap_2 dedup_key).
  - apply Forall_forall. intros i _. apply not_elem_of_empty.
Qed.

Lemma merge_sections_lookup (e n : gmap string (list Item)) k :
  merge_sections e n !! k =
  if decide (k ∈ dom e ∪ dom n)
  then Some (merge_category (default [] (e !! k)) (default [] (n !! k)))
  else None.
Proof.
  unfold merge_sections. revert k. generalize (dom e ∪ dom n).
  apply (set_fold_ind_L
           (λ (r : gmap string (list Item)) (X : gset string),
              ∀ k, r !! k =
                   if decide (k ∈ X)
                   then Some (merge_category (default [] (e !! k))
                                             (default [] (n !! k)))
                   else None)).
  - intros k. rewrite lookup_empty.
    by rewrite decide_False by apply not_elem_of_empty.
  - intros x X r Hx IH k. destruct (decide (k = x)) as [->|Hne].
    + rewrite lookup_insert_eq.
      by rewrite decide_True by by apply elem_of_union_l, elem_of_singleton.
    + rewrite lookup_insert_ne by done. rewrite IH.
      destruct (decide (k ∈ X)).
      * by rewrite decide_True by by apply elem_of_union_r.
      * rewrite decide_False; [done|].
        by intros [?%elem_of_singleton|?]%elem_of_union.
Qed.

Lemma merge_sections_self (s : gmap string (list Item)) :
  (∀ k l, s !! k = Some l → well_keyed l) → merge_sections s s = s.
Proof.
  intros Hwk. apply map_eq. intros k. rewrite merge_sections_lookup.
  destruct (s !! k) as [l|] eqn:E.
  - rewrite decide_True.
    + simpl. f_equal. by eapply merge_category_self, Hwk.
    + apply elem_of_union_l, elem_of_dom. by eexists.
  - rewrite decide_False; [done|].
    rewrite (idemp_L (∪)). by apply not_elem_of_dom.
Qed.

(** ** Merging a timeline with itself *)

(** What a bucket is, an absent item list read as the empty list. *)
Definition view (b : DayBucket) : option string * string * list Item :=
  (date b, dayLabel b, default [] (items b)).

Definition views (m : tmap) : list (option string * string * list Item) :=
  map (λ kv, view kv.2) m.

Lemma keys_app {V} (m1 m2 : list (string * V)) :
  keys (m1 ++ m2) = keys m1 ++ keys m2.
Proof. apply map_app. Qed.

Lemma views_app m1 m2 : views (m1 ++ m2) = views m1 ++ views m2.
Proof. apply map_app. Qed.

Lemma NoDup_middle {A B} (f : A → B) pre b post :
  NoDup (map f (pre ++ b :: post)) →
  Forall (λ c, f c ≠ f b) pre ∧ Forall (λ c, f c ≠ f b) post.
Proof.
  rewrite map_app, map_cons.
  intros (Hpre & Hdisj & [Hb Hpost]%NoDup_cons)%NoDup_app.
  split; apply Forall_forall; intros c Hc Heq.
  - apply (Hdisj (f c)); [by apply (list_elem_of_fmap_2 f)|].
    rewrite Heq. apply list_elem_of_here.
  - apply Hb. rewrite <- Heq. by apply (list_elem_of_fmap_2 f).
Qed.

(** With pairwise distinct dates the first loop appends the buckets
    of the window one after the other. *)
Lemma seed_fold_fresh today l m :
  NoDup (keys m ++ map date_key l) →
  fold_left (seed_pure today) l m
  = m ++ map (λ b, (date_key b, b)) (filter (λ b, in_window today b = true) l).
Proof.
  revert m. induction l as [|b l IH]; intros m Hnd; simpl.
  - by rewrite app_nil_r.
  - rewrite filter_cons. unfold seed_pure at 2.
    destruct (in_window today b) eqn:Hw.
    + rewrite decide_True by done.
      rewrite dict_set_new.
      * rewrite IH; [by rewrite <- app_assoc|].
        rewrite keys_app. simpl. by rewrite <- app_assoc.
      * apply NoDup_app in Hnd as (_ & Hdisj & _).
        intros Hin. apply (Hdisj _ Hin). apply list_elem_of_here.
    + rewrite decide_False by done. apply IH.
      apply NoDup_app in Hnd as (Hm & Hdisj & [_ Hl]%NoDup_cons).
      apply NoDup_app. split; [done|]. split; [|done].
      intros k Hk Hin. apply (Hdisj k Hk). by apply list_elem_of_further.
Qed.

Lemma views_dict_set_same k v t m :
  dict_get k m = Some t → view v = view t →
  views (dict_set k v m) = views m.
Proof.
  intros Hget Hv. induction m as [|[k' v'] m IH]; [done|].
  simpl in *. destruct (String.eqb_spec k k') as [->|Hne].
  - injection Hget as ->. unfold views. simpl. by rewrite Hv.
  - unfold views in *. simpl. by rewrite IH.
Qed.

(** The second loop over an incoming timeline whose buckets of the
    window are already in the map, as themselves, and whose other
    buckets are not: the former are left as they are, the latter are
    appended. *)
Lemma merge_fold_self today l m :
  NoDup (map date_key l) →
  (∀ b, b ∈ l → in_window today b = true →
        ∃ t, dict_get (date_key b) m = Some t ∧ view t = view b) →
  (∀ b, b ∈ l → in_window today b = false → date_key b ∉ keys m) →
  views (fold_left merge_pure l m)
  = views m ++ map view (filter (λ b, in_window today b = false) l).
Proof.
  revert m. induction l as [|b l IH]; intros m Hnd Hin Hout; simpl.
  - by rewrite app_nil_r.
  - apply NoDup_cons in Hnd as [Hb Hnd].
    assert (Hother : ∀ c, c ∈ l → date_key c ≠ date_key b).
    { intros c Hc Heq. apply Hb. rewrite <- Heq.
      by apply (list_elem_of_fmap_2 date_key). }
    rewrite filter_cons. destruct (in_window today b) eqn:Hw.
    + rewrite decide_False by done.
      destruct (Hin b) as (t & Hget & Hview);
        [apply list_elem_of_here|done|].
      assert (Hitems : default [] (items t) = default [] (items b)).
      { unfold view in Hview. congruence. }
      assert (Hstep : merge_pure m b =
                      dict_set (date_key b)
                        (set_items (default [] (items t)) t) m).
      { unfold merge_pure. rewrite Hget, Hitems.
        by rewrite <- (app_nil_r (default [] (items b))) at 1;
           rewrite merge_items_self, app_nil_r. }
      rewrite Hstep, IH; [|done| |].
      * by rewrite (views_dict_set_same _ _ t).
      * intros c Hc Hcw.
        rewrite dict_get_set_ne by by apply Hother.
        apply Hin; [by apply list_elem_of_further|done].
      * intros c Hc Hcw. rewrite dict_set_keys.
        -- apply Hout; [by apply list_elem_of_further|done].
        -- apply dec_stable. intros Hn.
           apply dict_get_None in Hn. congruence.
    + rewrite decide_True by done.
      assert (Hnew : date_key b ∉ keys m).
      { apply Hout; [apply list_elem_of_here|done]. }
      assert (Hstep : merge_pure m b = m ++ [(date_key b, b)]).
      { unfold merge_pure. rewrite (proj2 (dict_get_None _ _) Hnew).
        by apply dict_set_new. }
      rewrite Hstep, IH; [|done| |].
      * rewrite views_app. simpl. by rewrite <- app_assoc.
      * intros c Hc Hcw. rewrite <- Hstep.
        rewrite merge_pure_get_other by (intros Heq; by apply (Hother c Hc)).
        apply Hin; [by apply list_elem_of_further|done].
      * intros c Hc Hcw. rewrite keys_app. simpl.
        intros [Hk|Hk%list_elem_of_singleton]%elem_of_app.
        -- revert Hk. apply Hout; [by apply list_elem_of_further|done].
        -- by apply (Hother c Hc).
Qed.

Lemma map_date_key l :
  Forall has_date l → map date l = map (λ b, Some (date_key b)) l.
Proof.
  induction 1 as [|b l Hb _ IH]; [done|].
  simpl. by rewrite IH, (date_key_date b Hb).
Qed.

Lemma NoDup_date_keys l :
  Forall has_date l → NoDup (map date l) → NoDup (map date_key l).
Proof.
  intros Hd Hnd. rewrite (map_date_key l Hd) in Hnd.
  change (map (λ b, Some (date_key b)) l)
    with ((λ b, Some (date_key b)) <$> l) in Hnd.
  rewrite (list_fmap_compose date_key Some) in Hnd.
  by apply NoDup_fmap_1 in Hnd.
Qed.

(** The timeline of a document merged with itself. *)
Lemma merge_timeline_self today l :
  Forall has_date l → NoDup (map date l) →
  map view (dict_values
              (fold_left merge_pure l (fold_left (seed_pure today) l [])))
  ≡ₚ map view l.
Proof.
  intros Hd Hnd. apply NoDup_date_keys in Hnd; [|done].
  assert (Hseed : fold_left (seed_pure today) l []
                  = map (λ b, (date_key b, b))
                        (filter (λ b, in_window today b = true) l)).
  { by rewrite seed_fold_fresh. }
  change (map view (dict_values ?m)) with (map view (map snd m)).
  rewrite map_map. fold (views (fold_left merge_pure l
                                  (fold_left (seed_pure today) l []))).
  rewrite (merge_fold_self today); [|done| |].
  - rewrite Hseed. unfold views. rewrite map_map. simpl.
    rewrite <- map_app. apply Permutation_map.
    assert (Heq : filter (λ b, in_window today b = false) l
                  = filter (λ b, ¬ in_window today b = true) l).
    { apply list_filter_iff. intros b.
      destruct (in_window today b); naive_solver. }
    rewrite Heq. apply filter_app_complement.
  - intros b Hb Hw. exists b. split; [|done].
    apply list_elem_of_split in Hb as (pre & post & ->).
    apply seed_fold_last; [done|].
    by apply (NoDup_middle date_key) in Hnd as [_ ?].
  - intros b Hb Hw. apply dict_get_None.
    apply list_elem_of_split in Hb as (pre & post & ->).
    apply (NoDup_middle date_key) in Hnd as [Hpre Hpost].
    rewrite fold_left_app. simpl.
    rewrite seed_fold_get_other by done.
    unfold seed_pure at 1. rewrite Hw.
    by rewrite seed_fold_get_other.
Qed.

(** C2, as the claim states it, fails. The document the fallback
    generator builds from one rain-alert headline has one entry in
    its "alerts" section, which has no title; merged with itself, its
    "alerts" section is empty. And a document whose "movies" section
    holds two items whose titles differ in case only keeps the first
    of them alone. *)
Lemma merge_self_loses_category_items :
  let today := mkDate 2024 1 2 in
  let d := generate_fallback_data (λ _, 42%Z) "2024-01-02"
             "- Heavy rain alert for Chennai (https://example.com/rain)" in
  let alert := {| title := None;
                  fields := [("text", VStr "Heavy rain alert for Chennai");
                             ("severity", VStr "medium")] |} in
  let leo1 := {| title := Some "Leo"; fields := [("language", VStr "Tamil")] |} in
  let leo2 := {| title := Some "LEO"; fields := [("language", VStr "Hindi")] |} in
  let d2 := mkDoc (Some []) (Some {[ "movies" := [leo1; leo2] ]}) None None in
  default ∅ (sections d) !! "alerts" = Some [alert] ∧
  (∃ r, merge_data today (Some d) d = Ok r ∧
        default ∅ (sections r) !! "alerts" = Some []) ∧
  (∃ r, merge_data today (Some d2) d2 = Ok r ∧
        default ∅ (sections r) !! "movies" = Some [leo1]).
Proof.
  split; [|split].
  - vm_compute. reflexivity.
  - eexists. split; [vm_compute; reflexivity|]. vm_compute. reflexivity.
  - eexists. split; [vm_compute; reflexivity|]. vm_compute. reflexivity.
Qed.

(** C2 (amended). Let D be an EventDocument whose day buckets have
    pairwise distinct dates and whose category items each have a
    non-blank title that no other item of the same category shares up
    to case and surrounding white space. Then merging D with itself
    returns a document that equals D up to the order of the timeline
    and of the keys: its day buckets are those of D (an absent item
    list read as empty), in ascending order of date, and its category
    sections and weekly plan are those of D (an absent key read as
    empty). No duplicate item is introduced and no item is lost. *)
Theorem merge_self_idempotent (today : Date) (d : EventDocument) :
  Forall has_date (buckets d) →
  NoDup (map date (buckets d)) →
  (∀ k l, default ∅ (sections d) !! k = Some l → well_keyed l) →
  ∃ r, merge_data today (Some d) d = Ok r ∧
       map view (buckets r) ≡ₚ map view (buckets d) ∧
       StronglySorted date_le (buckets r) ∧
       default ∅ (sections r) = default ∅ (sections d) ∧
       default ∅ (weekly_plan r) = default ∅ (weekly_plan d).
Proof.
  intros Hd Hnd Hwk. destruct (doc_truthy d) eqn:Ht.
  - exists (merged_doc today d d).
    split; [by apply merge_data_truthy|].
    split; [|split; [|split]].
    + unfold buckets at 1, merged_doc. simpl.
      rewrite sorted_by_date_perm. by apply merge_timeline_self.
    + unfold buckets at 1, merged_doc. simpl. apply sorted_by_date_sorted.
    + unfold merged_doc. simpl. by apply merge_sections_self.
    + unfold merged_doc. simpl. by destruct (weekly_plan d).
  - exists d. split; [by apply merge_data_falsy|].
    split; [done|]. split; [|done].
    unfold doc_truthy in Ht. unfold buckets.
    destruct (timeline d); [done|]. constructor.
Qed.

Lemma merge_self_idempotent_witness :
  let today := mkDate 2024 1 2 in
  let d := mkDoc
             (Some [ mkDay (Some "2024-01-05") "Friday"
                       (Some [titled "Leo Release"; titled "Concert"]);
                     mkDay (Some "2024-01-01") "Monday" (Some [titled "Gala"]);
                     mkDay (Some "2024-01-03") "Wednesday" None ])
             (Some {[ "movies" := [titled "Leo"; titled "Jailer"] ]})
             (Some {[ "friday" := "Watch Leo" ]})
             (Some "2024-01-01T06:00:00") in
  ∃ r, merge_data today (Some d) d = Ok r ∧
       map view (buckets r) ≡ₚ map view (buckets d) ∧
       StronglySorted date_le (buckets r) ∧
       default ∅ (sections r) = default ∅ (sections d) ∧
       default ∅ (weekly_plan r) = default ∅ (weekly_plan d).
Proof.
  intros today d. apply (merge_self_idempotent today d).
  - repeat constructor; by eexists.
  - apply (bool_decide_unpack _). vm_compute. exact I.
  - intros k l Hl. simpl in Hl.
    apply lookup_singleton_Some in Hl as [_ <-]. split.
    + repeat constructor; vm_compute; congruence.
    + apply (bool_decide_unpack _). vm_compute. exact I.
Defined.

End MergeProps.

(* ===================================================================== *)
(** * Properties of the fallback generator *)
(* ===================================================================== *)

Module FallbackProps.
Import PyStr UpAhead.

(** The title that [generate_fallback_data] reads off a headline line
    [- Title (Link)]. *)
Definition line_title (line : string) : string :=
  nth 0 (rsplit_last " (" (drop_chars 2 line)) "".

(** The headline an item of the generated document shows: its title,
    or its text for an alert entry, which has no title. *)
Definition headline (i : Item) : string :=
  match title i with
  | Some t => t
  | None => field_str "text" i
  end.

Definition quiet (i : Item) : Prop := is_noise (lower (headline i)) = false.

Lemma fallback_line_noise hash acc line :
  String.prefix "- " line = true →
  is_noise (lower (line_title line)) = true →
  fallback_line hash acc line = acc.
Proof.
  intros Hp Hn. unfold fallback_line. rewrite Hp. cbn [negb].
  cbv zeta. fold (line_title line). by rewrite Hn.
Qed.

Lemma fallback_line_quiet hash acc line :
  Forall quiet acc → Forall quiet (fallback_line hash acc line).
Proof.
  intros Hacc. unfold fallback_line.
  destruct (negb (String.prefix "- " line)); [done|].
  cbv zeta. fold (line_title line).
  destruct (is_noise (lower (line_title line))) eqn:E; [done|].
  apply Forall_app. split; [done|]. by repeat constructor.
Qed.

Lemma fallback_lines_quiet hash lines acc :
  Forall quiet acc → Forall quiet (fold_left (fallback_line hash) lines acc).
Proof.
  revert acc. induction lines as [|l lines IH]; intros acc Hacc; [done|].
  simpl. by apply IH, fallback_line_quiet.
Qed.

Lemma fallback_items_quiet hash text : Forall quiet (fallback_items hash text).
Proof. apply fallback_lines_quiet. constructor. Qed.

(** Every generated item has a title. *)
Lemma fallback_line_titled hash acc line :
  Forall (λ i, is_Some (title i)) acc →
  Forall (λ i, is_Some (title i)) (fallback_line hash acc line).
Proof.
  intros Hacc. unfold fallback_line.
  destruct (negb (String.prefix "- " line)); [done|]. cbv zeta.
  destruct (is_noise _); [done|].
  apply Forall_app. split; [done|]. repeat constructor. by eexists.
Qed.

Lemma fallback_items_titled hash text :
  Forall (λ i, is_Some (title i)) (fallback_items hash text).
Proof.
  unfold fallback_items. generalize (split_char (ascii_of_nat 10) text).
  intros lines. assert (H : Forall (λ i : Item, is_Some (title i)) []) by constructor.
  revert H. generalize (@nil Item).
  induction lines as [|l lines IH]; intros acc Hacc; [done|].
  simpl. by apply IH, fallback_line_titled.
Qed.

Lemma quiet_titled_entry i : is_Some (title i) → quiet i → quiet (titled_entry i).
Proof. intros [t Ht]. unfold quiet, headline, titled_entry, get_title. by rewrite Ht. Qed.

Lemma quiet_alert_entry i : is_Some (title i) → quiet i → quiet (alert_entry i).
Proof. intros [t Ht]. unfold quiet, headline, alert_entry, get_title. by rewrite Ht. Qed.

Lemma quiet_entries (f : Item → Item) (P : Item → Prop) `{∀ i, Decision (P i)} l :
  (∀ i, is_Some (title i) → quiet i → quiet (f i)) →
  Forall (λ i, is_Some (title i)) l → Forall quiet l →
  Forall quiet (map f (filter P l)).
Proof.
  intros Hf Ht Hq. apply Forall_forall. intros x Hx.
  apply (list_elem_of_fmap_1 f) in Hx as (i & -> & Hi).
  apply list_elem_of_filter in Hi as [_ Hi].
  rewrite Forall_forall in Ht, Hq. apply Hf; auto.
Qed.

(** C9. A headline line whose title contains a word of the noise
    denylist adds no item, whatever category its title falls in; so
    no item of the generated document, in the timeline or in a
    category section, shows a headline that matches the denylist. The
    headline "Leo Movie Review Shocking Box Office Numbers" is
    categorized as a movie and matches the denylist: the document
    generated from it has no item at all. *)
Theorem noise_headlines_excluded :
  (∀ hash acc line,
     String.prefix "- " line = true →
     is_noise (lower (line_title line)) = true →
     fallback_line hash acc line = acc) ∧
  (∀ hash today_str text,
     let d := generate_fallback_data hash today_str text in
     (∀ b i, b ∈ default [] (timeline d) → i ∈ default [] (items b) → quiet i) ∧
     (∀ key l i, default ∅ (sections d) !! key = Some l → i ∈ l → quiet i)) ∧
  categorize (lower "Leo Movie Review Shocking Box Office Numbers") = "movie" ∧
  is_noise (lower "Leo Movie Review Shocking Box Office Numbers") = true ∧
  (∀ hash today_str,
     generate_fallback_data hash today_str
       "- Leo Movie Review Shocking Box Office Numbers (https://example.com/leo)"
     = {| timeline := Some [ {| date := Some today_str;
                                dayLabel := "Latest Updates";
                                items := Some [] |} ];
          sections := Some (<[ "movies" := [] ]>
                            (<[ "festivals" := [] ]>
                            (<[ "alerts" := [] ]> ∅)));
          weekly_plan :=
            Some {[ "note" := "AI generation unavailable. Showing latest RSS feeds." ]};
          lastUpdated := None |}).
Proof.
  split; [|split; [|split; [|split]]].
  - apply fallback_line_noise.
  - intros hash today_str text d.
    pose proof (fallback_items_quiet hash text) as Hq.
    pose proof (fallback_items_titled hash text) as Ht.
    split.
    + intros b i Hb Hi. subst d. simpl in Hb.
      apply list_elem_of_singleton in Hb as ->. simpl in Hi.
      eapply Forall_forall; [exact Hq|].
      by eapply subseteq_take.
    + intros key l i Hl Hi. subst d. simpl in Hl.
      assert (Hall : Forall quiet l); [|by eapply Forall_forall].
      apply lookup_insert_Some in Hl as [[_ <-]|[_ Hl]];
        [by apply quiet_entries; [apply quiet_titled_entry|..]|].
      apply lookup_insert_Some in Hl as [[_ <-]|[_ Hl]];
        [by apply quiet_entries; [apply quiet_titled_entry|..]|].
      apply lookup_insert_Some in Hl as [[_ <-]|[_ Hl]];
        [by apply quiet_entries; [apply quiet_alert_entry|..]|].
      by rewrite lookup_empty in Hl.
  - vm_compute. reflexivity.
  - vm_compute. reflexivity.
  - intros hash today_str. vm_compute. reflexivity.
Qed.

Lemma noise_headlines_excluded_witness :
  fallback_line (λ _, 7%Z) [] "- Star spotted at airport (https://example.com/s)" = [].
Proof.
  destruct noise_headlines_excluded as (Hskip & _).
  apply Hskip; vm_compute; reflexivity.
Defined.

End FallbackProps.

(* ===================================================================== *)
(** * The timeline block on shared bucket objects *)
(* ===================================================================== *)

Module InPlaceProps.
Import PyStr UpAhead MergeProps.

Definition deref (h : heap) (m : list (string * addr)) : tmap :=
  map (λ kv, (kv.1, bucket_at h kv.2)) m.

Lemma deref_get h m k : dict_get k (deref h m) = bucket_at h <$> dict_get k m.
Proof.
  induction m as [|[k' a] m IH]; simpl; [done|].
  by destruct (String.eqb k k').
Qed.

Lemma deref_set h m k a :
  deref h (dict_set k a m) = dict_set k (bucket_at h a) (deref h m).
Proof.
  induction m as [|[k' a'] m IH]; simpl; [done|].
  destruct (String.eqb k k'); simpl; [done|]. by rewrite IH.
Qed.

Lemma deref_values h m :
  dict_values (deref h m) = map (bucket_at h) (dict_values m).
Proof. unfold dict_values, deref. rewrite !map_map. done. Qed.

Lemma bucket_at_alter_ne f t h a :
  a ≠ t → bucket_at (alter f t h) a = bucket_at h a.
Proof. intros Hne. unfold bucket_at. by rewrite list_lookup_alter_ne by done. Qed.

Lemma bucket_at_alter_eq f t h :
  (t < length h)%nat → bucket_at (alter f t h) t = f (bucket_at h t).
Proof.
  intros Hlt. unfold bucket_at. rewrite list_lookup_alter_eq.
  destruct (lookup_lt_is_Some_2 h t Hlt) as [b ->]. done.
Qed.

Lemma dated_is_valid h a : is_Some (date (bucket_at h a)) → (a < length h)%nat.
Proof.
  unfold bucket_at. intros [s Hs].
  destruct (h !! a) eqn:E; [by eapply lookup_lt_Some|done].
Qed.

(** One round of the inner loop on the list of appended items. *)
Definition append_unless (titles : gset string) (acc : list Item) (item : Item)
    : list Item :=
  if decide (lower (get_title item) ∈ titles) then acc else acc ++ [item].

Lemma merge_items_fold ex new :
  merge_items ex new =
  fold_left (append_unless (list_to_set (map (λ item, lower (get_title item)) ex)))
            new ex.
Proof. done. Qed.

(** The inner loop when no incoming item is appended: it ends and
    leaves the heap as it is, also when it reads the list it would
    append to. *)
Lemma append_loop_all_seen titles src dst fuel i h :
  (∀ item, item ∈ item_list (bucket_at h src) →
           lower (get_title item) ∈ titles) →
  (i ≤ length (item_list (bucket_at h src)))%nat →
  (length (item_list (bucket_at h src)) < fuel + i)%nat →
  append_loop fuel titles src dst i h = Some h.
Proof.
  intros Hseen. revert i. induction fuel as [|fuel IH]; intros i Hi Hlen.
  - lia.
  - simpl. destruct (item_list (bucket_at h src) !! i) as [item|] eqn:E; [|done].
    rewrite decide_True by by eapply Hseen, list_elem_of_lookup_2.
    apply lookup_lt_Some in E. apply IH; lia.
Qed.

(** The inner loop when it reads one bucket and appends to another. *)
Lemma append_loop_other titles src dst fuel i h :
  src ≠ dst →
  (i ≤ length (item_list (bucket_at h src)))%nat →
  (length (item_list (bucket_at h src)) < fuel + i)%nat →
  alter (λ d, set_items (item_list d) d) dst
    <$> append_loop fuel titles src dst i h
  = Some (alter (λ d, set_items
                        (fold_left (append_unless titles)
                           (drop i (item_list (bucket_at h src)))
                           (item_list d)) d) dst h).
Proof.
  intros Hne. revert i h. induction fuel as [|fuel IH]; intros i h Hi Hlen.
  - lia.
  - simpl. destruct (item_list (bucket_at h src) !! i) as [item|] eqn:E.
    + rewrite (drop_S _ _ _ E). apply lookup_lt_Some in E as Hlt.
      cbn [fold_left]. unfold append_unless at 2.
      destruct (decide (lower (get_title item) ∈ titles)).
      * apply IH; lia.
      * assert (Hsrc : bucket_at (alter (append_item item) dst h) src
                       = bucket_at h src) by by apply bucket_at_alter_ne.
        rewrite IH; rewrite Hsrc; [|lia|lia].
        f_equal. rewrite list_alter_alter_eq. apply list_alter_ext; [|done].
        intros d _. done.
    + simpl. apply lookup_ge_None in E. by rewrite drop_ge by lia.
Qed.

(** *** Facts on the reference map *)

Lemma dict_get_elem {V} k (v : V) m : dict_get k m = Some v → (k, v) ∈ m.
Proof.
  induction m as [|[k' v'] m IH]; simpl; [done|].
  destruct (String.eqb_spec k k') as [->|Hne].
  - intros [= ->]. apply list_elem_of_here.
  - intros H. by apply list_elem_of_further, IH.
Qed.

Lemma elem_dict_get {V} k (v : V) m :
  NoDup (keys m) → (k, v) ∈ m → dict_get k m = Some v.
Proof.
  induction m as [|[k' v'] m IH]; simpl.
  - by intros _ ?%elem_of_nil.
  - intros [Hk Hnd]%NoDup_cons [[= -> ->]|Hin]%elem_of_cons.
    + by rewrite String.eqb_refl.
    + destruct (String.eqb_spec k k') as [->|Hne]; [|by apply IH].
      exfalso. apply Hk. by apply (list_elem_of_fmap_2 fst) in Hin.
Qed.

Lemma dict_set_elem {V} k (v : V) m k' v' :
  (k', v') ∈ dict_set k v m → (k', v') = (k, v) ∨ (k', v') ∈ m.
Proof.
  induction m as [|[k0 v0] m IH]; simpl.
  - intros ?%list_elem_of_singleton. by left.
  - destruct (String.eqb_spec k k0) as [->|Hne].
    + intros [?|?]%elem_of_cons; [by left|]. right. by apply list_elem_of_further.
    + intros [->|Hin]%elem_of_cons; [right; apply list_elem_of_here|].
      destruct (IH Hin); [by left|]. right. by apply list_elem_of_further.
Qed.

Lemma dict_set_NoDup {V} k (v : V) m :
  NoDup (keys m) → NoDup (keys (dict_set k v m)).
Proof.
  intros Hnd. destruct (decide (k ∈ keys m)) as [Hin|Hout].
  - by rewrite dict_set_keys.
  - rewrite dict_set_new, keys_app by done. simpl.
    apply NoDup_app. split; [done|]. split; [|apply NoDup_singleton].
    intros x Hx ->%list_elem_of_singleton. done.
Qed.

Lemma dict_set_values_new {V} k (v : V) m x :
  k ∉ keys m → x ∈ dict_values m → x ∈ dict_values (dict_set k v m).
Proof.
  intros Hk Hx. rewrite dict_set_new by done.
  unfold dict_values. rewrite map_app. apply elem_of_app. by left.
Qed.

Lemma deref_alter_out f t h m :
  t ∉ dict_values m → deref (alter f t h) m = deref h m.
Proof.
  unfold dict_values, deref. induction m as [|[k a] m IH]; simpl; [done|].
  intros [Hne Hout]%not_elem_of_cons.
  rewrite bucket_at_alter_ne by done. by rewrite IH.
Qed.

(** Changing the object a key refers to changes the value under that
    key, and nothing else, when no other key refers to the object. *)
Lemma deref_alter f t h m k :
  NoDup (keys m) →
  (∀ k' a', (k', a') ∈ m → a' = t → k' = k) →
  dict_get k m = Some t →
  (t < length h)%nat →
  deref (alter f t h) m = dict_set k (f (bucket_at h t)) (deref h m).
Proof.
  intros Hnd Hinj Hget Hlt.
  induction m as [|[k' a'] m IH]; simpl in *; [done|].
  apply NoDup_cons in Hnd as [Hk Hnd].
  destruct (String.eqb_spec k k') as [<-|Hne].
  - injection Hget as ->. rewrite bucket_at_alter_eq by done.
    f_equal. apply deref_alter_out.
    intros Hin. unfold dict_values in Hin.
    apply list_elem_of_fmap in Hin as ([k2 a2] & -> & Hin). simpl in *.
    assert (k2 = k) as -> by (eapply Hinj; [by apply list_elem_of_further|done]).
    apply Hk. by apply (list_elem_of_fmap_2 fst) in Hin.
  - assert (a' ≠ t).
    { intros ->. apply Hne. symmetry.
      eapply Hinj; [apply list_elem_of_here|done]. }
    rewrite bucket_at_alter_ne by done. f_equal.
    apply IH; [done| |done].
    intros k2 a2 Hin. apply Hinj. by apply list_elem_of_further.
Qed.

(** *** The invariant of the second loop *)

(** [h0] is the heap before the loops, [h] the heap now, [ms] the
    reference map now. *)
Record Inv (h0 h : heap) (ms : list (string * addr)) : Prop := {
  inv_keys : NoDup (keys ms);
  inv_entry : ∀ k a, (k, a) ∈ ms → date (bucket_at h0 a) = Some k;
  inv_same : ∀ a, a ∉ dict_values ms → bucket_at h a = bucket_at h0 a;
  inv_carried : ∀ a, carried (bucket_at h0 a) (bucket_at h a);
  inv_length : length h = length h0
}.

Lemma inv_not_referred h0 h ms a k :
  Inv h0 h ms → date (bucket_at h0 a) = Some k →
  dict_get k ms ≠ Some a → a ∉ dict_values ms.
Proof.
  intros HI Hd Hget Hin. unfold dict_values in Hin.
  apply list_elem_of_fmap in Hin as ([k' a'] & -> & Hin). simpl in *.
  assert (k' = k) as ->.
  { apply (inv_entry _ _ _ HI) in Hin as Hd'. congruence. }
  apply Hget. apply elem_dict_get; [apply HI|done].
Qed.

(** The states of the two loops agree: the same exception, or the
    map of buckets is the reference map read in the heap. *)
Definition sim (h0 : heap) (r : res (heap * list (string * addr)))
    (p : res tmap) : Prop :=
  match r, p with
  | Ok (h', ms'), Ok mp' => mp' = deref h' ms' ∧ Inv h0 h' ms'
  | Raise e, Raise e' => e = e'
  | _, _ => False
  end.

Lemma carried_items_seen b b' item :
  carried b b' → item ∈ item_list b →
  lower (get_title item) ∈
    (list_to_set (map (λ i, lower (get_title i)) (item_list b')) : gset string).
Proof.
  intros (_ & _ & more & Hitems) Hin. apply elem_of_list_to_set.
  unfold item_list. rewrite Hitems, map_app. apply elem_of_app. left.
  by apply (list_elem_of_fmap_2 (λ i, lower (get_title i))).
Qed.

#[local] Arguments append_loop : simpl never.

Lemma merge_ref_sim h0 h ms a :
  Inv h0 h ms →
  ∃ r, merge_ref (h, ms) a = Some r ∧
       sim h0 r (merge_day (deref h ms) (bucket_at h0 a)).
Proof.
  intros HI. unfold merge_ref, merge_day.
  assert (Hdate : date (bucket_at h a) = date (bucket_at h0 a)).
  { by destruct (inv_carried _ _ _ HI a) as (? & _). }
  unfold get_date. rewrite Hdate.
  destruct (date (bucket_at h0 a)) as [k|] eqn:Hk; simpl; [|by eexists].
  rewrite deref_get.
  destruct (dict_get k ms) as [t|] eqn:Hget; simpl.
  - (* the date has a bucket already *)
    assert (Ht : date (bucket_at h0 t) = Some k).
    { by apply (inv_entry _ _ _ HI), dict_get_elem. }
    assert (Hvalid : (t < length h)%nat).
    { rewrite (inv_length _ _ _ HI). apply dated_is_valid. by rewrite Ht. }
    assert (Hinj : ∀ k' a', (k', a') ∈ ms → a' = t → k' = k).
    { intros k' a' Hin ->. apply (inv_entry _ _ _ HI) in Hin. congruence. }
    destruct (decide (a = t)) as [->|Hne].
    + (* the incoming bucket is the bucket of the map *)
      rewrite append_loop_all_seen; [| |lia|lia].
      * eexists. split; [done|]. simpl. split.
        -- rewrite (deref_alter _ t h ms k) by (done || apply HI).
           f_equal. f_equal.
           destruct (inv_carried _ _ _ HI t) as (_ & _ & more & Hmore).
           fold (item_list (bucket_at h t)) (item_list (bucket_at h0 t)) in *.
           rewrite Hmore. apply merge_items_self.
        -- constructor; try apply HI.
           ++ intros a Ha. rewrite bucket_at_alter_ne.
              ** by apply (inv_same _ _ _ HI).
              ** intros ->. apply Ha. by eapply dict_get_Some_values.
           ++ intros a. destruct (decide (a = t)) as [->|Hat].
              ** rewrite bucket_at_alter_eq by done.
                 eapply carried_trans; [apply (inv_carried _ _ _ HI)|].
                 repeat split. exists []. by rewrite app_nil_r.
              ** rewrite bucket_at_alter_ne by done. apply HI.
           ++ rewrite length_alter. apply HI.
      * intros item Hitem. eapply carried_items_seen; [apply carried_refl|done].
    + (* the incoming bucket is another object *)
      assert (Hsame : bucket_at h a = bucket_at h0 a).
      { apply (inv_same _ _ _ HI). eapply inv_not_referred; [done|done|].
        rewrite Hget. congruence. }
      pose proof (append_loop_other
                    (list_to_set (map (λ item, lower (get_title item))
                                      (item_list (bucket_at h t))))
                    a t (S (length (item_list (bucket_at h a)))) 0 h Hne)
        as Hloop.
      destruct (append_loop _ _ a t 0 h) as [h'|] eqn:E; simpl in Hloop.
      2:{ exfalso. ospecialize* Hloop; [lia|lia|done]. }
      ospecialize* Hloop; [lia|lia|]. injection Hloop as Hloop.
      eexists. split; [done|]. simpl. rewrite Hloop, Hsame.
      split.
      -- rewrite (deref_alter _ t h ms k) by (done || apply HI). done.
      -- constructor; try apply HI.
         ++ intros a' Ha. rewrite bucket_at_alter_ne.
            ** by apply (inv_same _ _ _ HI).
            ** intros ->. apply Ha. by eapply dict_get_Some_values.
         ++ intros a'. destruct (decide (a' = t)) as [->|Hat].
            ** rewrite bucket_at_alter_eq by done.
               eapply carried_trans; [apply (inv_carried _ _ _ HI)|].
               repeat split. simpl.
               rewrite <- merge_items_fold, merge_items_spec. by eexists.
            ** rewrite bucket_at_alter_ne by done. apply HI.
         ++ rewrite length_alter. apply HI.
  - (* a new date *)
    eexists. split; [done|]. simpl.
    assert (Hsame : bucket_at h a = bucket_at h0 a).
    { apply (inv_same _ _ _ HI). eapply inv_not_referred; [done|done|].
      by rewrite Hget. }
    split; [by rewrite deref_set, Hsame|].
    assert (Hk' : k ∉ keys ms) by by apply dict_get_None.
    constructor.
    + apply dict_set_NoDup, HI.
    + intros k' a' [[= -> ->]|Hin]%dict_set_elem; [done|].
      by apply (inv_entry _ _ _ HI).
    + intros a' Ha'. apply (inv_same _ _ _ HI).
      intros Hin. apply Ha'. by apply dict_set_values_new.
    + apply HI.
    + apply HI.
Qed.

Lemma merge_refs_sim h0 l h ms :
  Inv h0 h ms →
  ∃ r, merge_refs l (h, ms) = Some r ∧
       sim h0 r (for_each merge_day (map (bucket_at h0) l) (deref h ms)).
Proof.
  revert h ms. induction l as [|a l IH]; intros h ms HI.
  - eexists. split; [done|]. simpl. done.
  - destruct (merge_ref_sim h0 h ms a HI) as (r & Hr & Hsim).
    cbn [merge_refs map for_each]. rewrite Hr.
    destruct r as [[h' ms']|e];
      destruct (merge_day (deref h ms) (bucket_at h0 a)) as [mp'|e'];
      simpl in Hsim; try done.
    + destruct Hsim as [-> HI']. simpl. by apply IH.
    + subst e'. eexists. split; [done|]. done.
Qed.

(** The first loop does not write to the heap. *)
Lemma seed_ref_sim today h ms a :
  match seed_ref today h ms a with
  | Ok ms' =>
      seed_day today (deref h ms) (bucket_at h a) = Ok (deref h ms') ∧
      (ms' = ms ∨ ∃ s, date (bucket_at h a) = Some s ∧ ms' = dict_set s a ms)
  | Raise e => seed_day today (deref h ms) (bucket_at h a) = Raise e
  end.
Proof.
  unfold seed_ref, seed_day, get_date.
  destruct (date (bucket_at h a)) as [s|] eqn:Hs; simpl; [|done].
  destruct (strptime s) as [d|]; [|by split; [|left]].
  destruct (date_leb today d); [|by split; [|left]].
  split; [by rewrite deref_set|]. right. by exists s.
Qed.

Lemma seed_refs_sim today h l ms :
  NoDup (keys ms) →
  (∀ k a, (k, a) ∈ ms → date (bucket_at h a) = Some k) →
  match for_each (seed_ref today h) l ms with
  | Ok ms' =>
      for_each (seed_day today) (map (bucket_at h) l) (deref h ms)
      = Ok (deref h ms') ∧
      NoDup (keys ms') ∧
      (∀ k a, (k, a) ∈ ms' → date (bucket_at h a) = Some k)
  | Raise e =>
      for_each (seed_day today) (map (bucket_at h) l) (deref h ms) = Raise e
  end.
Proof.
  revert ms. induction l as [|a l IH]; intros ms Hnd Hent; [done|].
  cbn [for_each map]. pose proof (seed_ref_sim today h ms a) as Hstep.
  destruct (seed_ref today h ms a) as [ms1|e]; simpl.
  - destruct Hstep as [-> Hms1]. simpl.
    destruct Hms1 as [->|(s & Hs & ->)]; apply IH; try done.
    + by apply dict_set_NoDup.
    + intros k' a' [[= -> ->]|Hin]%dict_set_elem; [done|by apply Hent].
  - by rewrite Hstep.
Qed.

(** The timeline block of [merge_data], run on bucket objects that its
    two timelines may share, ends, and gives the timeline that
    [merge_timeline] computes from the buckets as values. *)
Theorem merge_timeline_ref_refines today h existing_timeline new_timeline :
  merge_timeline_ref today h existing_timeline new_timeline
  = Some (merge_timeline today (map (bucket_at h) existing_timeline)
                               (map (bucket_at h) new_timeline)).
Proof.
  unfold merge_timeline_ref, merge_timeline.
  pose proof (seed_refs_sim today h existing_timeline []) as Hseed.
  ospecialize* Hseed; [apply NoDup_nil_2|by intros k a ?%elem_of_nil|].
  change (deref h []) with (@nil (string * DayBucket)) in Hseed.
  destruct (for_each (seed_ref today h) existing_timeline []) as [m0|e].
  - destruct Hseed as (-> & Hnd & Hent).
    simpl.
    destruct (merge_refs_sim h new_timeline h m0) as (r & -> & Hsim).
    { constructor; [done|done|done|intros; apply carried_refl|done]. }
    destruct r as [[h' m1]|e];
      destruct (for_each merge_day _ _) as [mp|e']; simpl in *; try done.
    + destruct Hsim as [-> _]. by rewrite deref_values.
    + by subst.
  - by rewrite Hseed.
Qed.

(** In particular for a document merged with itself, where every bucket
    is reached through both timelines. *)
Corollary merge_timeline_ref_self today h tl :
  merge_timeline_ref today h tl tl
  = Some (merge_timeline today (map (bucket_at h) tl) (map (bucket_at h) tl)).
Proof. apply merge_timeline_ref_refines. Qed.


(** A document merged with itself, bucket objects shared: the bucket of
    the window is met again by the second loop as its own target and
    stays as it is, the past bucket is put back by the second loop. *)
Example merge_timeline_ref_shared :
  let h := [ mkDay (Some "2024-01-05") "Friday"
               (Some [titled "Leo Release"; titled "Concert"]);
             mkDay (Some "2024-01-01") "Monday" (Some [titled "Gala"]) ] in
  merge_timeline_ref (mkDate 2024 1 2) h [0; 1]%nat [0; 1]%nat
  = Some (Ok [ mkDay (Some "2024-01-01") "Monday" (Some [titled "Gala"]);
               mkDay (Some "2024-01-05") "Friday"
                 (Some [titled "Leo Release"; titled "Concert"]) ]).
Proof. vm_compute. reflexivity. Qed.

End InPlaceProps.

(* ===================================================================== *)
(** * Further properties of the summarizer *)
(* ===================================================================== *)

Module SummarizerShape.
Import PyStr DailyBrief SummarizerProps.

Definition tamil (src : string) : Prop := src ∈ ["DINAMANI"; "DAILY_THANTHI"].

Lemma is_tamil_source_true src : is_tamil_source src = true ↔ tamil src.
Proof. unfold is_tamil_source, tamil. apply bool_decide_eq_true. Qed.

Lemma gemini_shape llm src sec arts r :
  _summarize_gemini llm src sec arts = Some r →
  method r = None ∧ (is_Some (summary_ta r) → tamil src ∧ has_summary r).
Proof.
  unfold _summarize_gemini, has_summary.
  destruct (llm _) as [msg|t].
  - destruct (contains "429" msg); [|destruct (contains "403" msg)];
      intros [= <-]; simpl; (split; [done|by intros [? ?]]).
  - destruct (is_tamil_source src) eqn:Ht; simpl.
    + destruct (contains "|||" (strip t)); intros [= <-]; simpl;
        (split; [done|]); [|by intros [? ?]].
      intros _. split; [by apply is_tamil_source_true|by eexists].
    + intros [= <-]; simpl. split; [done|by intros [? ?]].
Qed.

Lemma headlines_tier_shape arts :
  summary_ta (headlines_tier arts) = None ∧
  (method (headlines_tier arts) = None ∨
   (method (headlines_tier arts) = Some "headlines" ∧
    has_summary (headlines_tier arts))).
Proof.
  rewrite headlines_tier_spec. unfold has_summary.
  destruct (nonblank_titles arts); simpl; (split; [done|]); [by left|].
  right. split; [done|by eexists].
Qed.

Lemma extractive_tier_shape env arts r :
  extractive_tier env arts = Some r →
  summary_ta r = None ∧ method r = Some "extractive" ∧
  HAS_SUMY env = true ∧ (200 < len (combined_bodies arts))%nat ∧
  ∃ sents, lexrank env (combined_bodies arts) 8 = Some sents ∧
           summary r = Some (join " " sents) ∧ join " " sents ≠ "".
Proof.
  unfold extractive_tier.
  destruct (body_texts arts); [done|].
  destruct (Nat.ltb_spec 200 (len (combined_bodies arts))); [|done].
  unfold summarize_extractive_sumy.
  destruct (HAS_SUMY env); [|done]. cbn [negb orb].
  destruct (is_empty (combined_bodies arts) || _); [done|].
  destruct (lexrank env (combined_bodies arts) 8) as [sents|]; [|done].
  destruct (truthy (join " " sents)) eqn:E; [|done].
  intros [= <-]. simpl. repeat split; try done.
  exists sents. repeat split. by apply truthy_true.
Qed.

(** X1. Which tier a result comes from can be read off its keys. A
    [method] key is "extractive" or "headlines", comes with a summary
    and never with a [summary_ta]; a [summary_ta] key appears only for
    a Tamil source with a configured model, with a summary and without
    a [method]. *)
Theorem result_keys_provenance (env : Env) (src sec : string)
    (arts : list Article) :
  let r := summarize_section env src sec arts in
  (∀ m, method r = Some m →
        (m = "extractive" ∨ m = "headlines") ∧
        has_summary r ∧ summary_ta r = None) ∧
  (is_Some (summary_ta r) →
   tamil src ∧ is_Some (model env) ∧ has_summary r ∧ method r = None).
Proof.
  intros r. subst r. destruct arts as [|a arts'].
  { simpl. split; [done|by intros [? ?]]. }
  destruct (summarize_section_cases env src sec (a :: arts'))
    as [(llm & r & Hm & Hg & Hs & Heq)|Heq]; [done| |]; rewrite Heq.
  - apply gemini_shape in Hg as [Hmeth Hta]. split.
    + intros m Hm'. congruence.
    + intros H. destruct (Hta H). rewrite Hm. repeat split; (done || by eexists).
  - unfold lower_tiers.
    destruct (extractive_tier env (a :: arts')) as [r|] eqn:E.
    + apply extractive_tier_shape in E
        as (Hta & Hmeth & _ & _ & sents & _ & Hsum & _).
      split.
      * intros m Hm'. rewrite Hmeth in Hm'. injection Hm' as <-.
        repeat split; [by left| |done]. unfold has_summary. by eexists.
      * rewrite Hta. by intros [? ?].
    + destruct (headlines_tier_shape (a :: arts')) as [Hta [Hn|[Hh Hs]]].
      * split; [intros m Hm'; congruence|]. rewrite Hta. by intros [? ?].
      * split; [|rewrite Hta; by intros [? ?]].
        intros m Hm'. rewrite Hh in Hm'. injection Hm' as <-.
        repeat split; [by right|done|done].
Qed.

(** X2. [summarize_section] answers with the extractive method only
    when sumy is installed, the joined bodies are longer than 200
    characters and LexRank returned sentences whose join is not empty;
    that join is then the summary. *)
Theorem extractive_method_needs (env : Env) (src sec : string)
    (arts : list Article) :
  method (summarize_section env src sec arts) = Some "extractive" →
  HAS_SUMY env = true ∧
  (200 < len (combined_bodies arts))%nat ∧
  ∃ sents, lexrank env (combined_bodies arts) 8 = Some sents ∧
           join " " sents ≠ "" ∧
           summary (summarize_section env src sec arts)
             = Some (join " " sents).
Proof.
  destruct arts as [|a arts']; [done|].
  destruct (summarize_section_cases env src sec (a :: arts'))
    as [(llm & r & Hm & Hg & Hs & Heq)|Heq]; [done| |]; rewrite Heq.
  - apply gemini_shape in Hg as [Hmeth _]. congruence.
  - unfold lower_tiers.
    destruct (extractive_tier env (a :: arts')) as [r|] eqn:E.
    + apply extractive_tier_shape in E
        as (_ & _ & Hs & Hlen & sents & Hl & Hsum & Hne).
      intros _. repeat split; [done|done|]. by exists sents.
    + destruct (headlines_tier_shape (a :: arts')) as [_ [Hn|[Hh _]]];
        congruence.
Qed.

Lemma extractive_method_needs_witness :
  let body := string_of_list_ascii (replicate 201 "a"%char) in
  let arts := [mkArticle "Title" "https://example.com/a" (Some body) None] in
  let env := mkEnv None true (λ _ _, Some ["One."; "Two."]) in
  HAS_SUMY env = true ∧
  (200 < len (combined_bodies arts))%nat ∧
  ∃ sents, lexrank env (combined_bodies arts) 8 = Some sents ∧
           join " " sents ≠ "" ∧
           summary (summarize_section env "THE_HINDU" "Front Page" arts)
             = Some (join " " sents).
Proof.
  intros body arts env.
  apply (extractive_method_needs env "THE_HINDU" "Front Page" arts).
  vm_compute. reflexivity.
Defined.

End SummarizerShape.

(* ===================================================================== *)
(** * Facts on the string primitives *)
(* ===================================================================== *)

Module PyStrProps.
Import PyStr.

Lemma append_nil s : "" +:+ s = s.
Proof. reflexivity. Qed.

Lemma append_cons c a b : String c a +:+ b = String c (a +:+ b).
Proof. reflexivity. Qed.

Lemma prefix_nil s : String.prefix "" s = true.
Proof. by destruct s. Qed.

Lemma prefix_cons a s1 b s2 :
  String.prefix (String a s1) (String b s2)
  = if ascii_dec a b then String.prefix s1 s2 else false.
Proof. reflexivity. Qed.

Lemma prefix_cons_same a s1 s2 :
  String.prefix (String a s1) (String a s2) = String.prefix s1 s2.
Proof. rewrite prefix_cons. by destruct (ascii_dec a a). Qed.

Lemma prefix_app s r : String.prefix s (s +:+ r) = true.
Proof.
  induction s as [|c s IH]; [apply prefix_nil|].
  by rewrite append_cons, prefix_cons_same.
Qed.

Lemma contains_cons sub c s :
  contains sub (String c s) = String.prefix sub (String c s) || contains sub s.
Proof. reflexivity. Qed.

Lemma contains_nil sub : contains sub "" = String.prefix sub "".
Proof. simpl. by rewrite orb_false_r. Qed.

(** An occurrence of [sub] after any text is found. *)
Lemma contains_app sub a b : contains sub (a +:+ sub +:+ b) = true.
Proof.
  induction a as [|c a IH].
  - rewrite append_nil. destruct (sub +:+ b) eqn:E.
    + rewrite contains_nil, <- E. apply prefix_app.
    + rewrite contains_cons, <- E, prefix_app. done.
  - by rewrite append_cons, contains_cons, IH, orb_true_r.
Qed.

(** The characters of a string. *)
Fixpoint chars (s : string) : list ascii :=
  match s with
  | EmptyString => []
  | String c r => c :: chars r
  end.

Lemma chars_app a b : chars (a +:+ b) = chars a ++ chars b.
Proof. induction a as [|c a IH]; simpl; [done|]. by rewrite IH. Qed.

Lemma chars_lstrip s : chars (lstrip s) ⊆ chars s.
Proof.
  induction s as [|c s IH]; simpl; [done|].
  destruct (is_space c); [|done].
  intros x Hx. apply list_elem_of_further. by apply IH.
Qed.

Lemma chars_rstrip s : chars (rstrip s) ⊆ chars s.
Proof.
  induction s as [|c s IH]; simpl; [done|].
  destruct (is_empty (rstrip s) && is_space c); simpl.
  - intros x Hx. by apply elem_of_nil in Hx.
  - intros x [->|Hx]%elem_of_cons; [apply list_elem_of_here|].
    apply list_elem_of_further. by apply IH.
Qed.

(** Stripping adds no character. *)
Lemma chars_strip s : chars (strip s) ⊆ chars s.
Proof.
  unfold strip. etrans; [apply chars_rstrip|apply chars_lstrip].
Qed.

Lemma split_char_free c s : c ∉ chars s → split_char c s = [s].
Proof.
  induction s as [|x s IH]; simpl; [done|].
  intros [Hx Hs]%not_elem_of_cons.
  destruct (Ascii.eqb_spec x c) as [->|_]; [done|]. by rewrite IH.
Qed.

Lemma split_char_app c a b :
  c ∉ chars a →
  split_char c (a +:+ String c b) = a :: split_char c b.
Proof.
  induction a as [|x a IH]; simpl.
  - intros _. by rewrite Ascii.eqb_refl.
  - intros [Hx Ha]%not_elem_of_cons.
    destruct (Ascii.eqb_spec x c) as [->|_]; [done|]. by rewrite IH.
Qed.

(** Splitting what was joined gives the parts back, when no part has a
    line break in it. *)
Lemma split_join_lines (l : list string) :
  l ≠ [] →
  Forall (λ x, ascii_of_nat 10 ∉ chars x) l →
  split_char (ascii_of_nat 10) (join nl l) = l.
Proof.
  intros Hne Hall. induction Hall as [|x l Hx Hl IH]; [done|].
  destruct l as [|y l].
  - simpl. by apply split_char_free.
  - change (join nl (x :: y :: l)) with (x +:+ nl +:+ join nl (y :: l)).
    unfold nl at 1. rewrite append_cons, append_nil.
    rewrite split_char_app by done. f_equal. by apply IH.
Qed.

End PyStrProps.

(* ===================================================================== *)
(** * Further properties of the summarizer: prompts and replies *)
(* ===================================================================== *)

Module SummarizerMore.
Import PyStr DailyBrief SummarizerProps SummarizerShape PyStrProps.

Local Abbreviation lf := (ascii_of_nat 10).

Lemma bullet_line_no_break t : lf ∉ chars t → lf ∉ chars (bullet_line t).
Proof.
  intros Ht. unfold bullet_line. rewrite !chars_app.
  assert (H1 : lf ∉ chars bullet) by (apply (bool_decide_unpack _); by vm_compute).
  assert (H2 : lf ∉ chars " ") by (apply (bool_decide_unpack _); by vm_compute).
  by intros [H|[H|H]%elem_of_app]%elem_of_app.
Qed.

(** X3. The headline summary is never the empty string and has between
    one and ten bullets: one for each non-blank title among the first
    ten articles, stripped, in article order. When those titles have no
    line break in them, the lines of the summary are exactly these
    bullets. *)
Theorem headline_summary_lines (arts : list Article) (s : string) :
  summarize_headline_bullets arts = Some s →
  s ≠ "" ∧
  (1 ≤ length (nonblank_titles arts) ≤ 10)%nat ∧
  s = join nl (map bullet_line (nonblank_titles arts)) ∧
  (Forall (λ a, lf ∉ chars (title a)) (take 10 arts) →
   split_char lf s = map bullet_line (nonblank_titles arts)).
Proof.
  intros Hs. rewrite headline_bullets_spec in Hs.
  assert (Hne : nonblank_titles arts ≠ []).
  { intros E. by rewrite E in Hs. }
  assert (Heq : s = join nl (map bullet_line (nonblank_titles arts))).
  { destruct (nonblank_titles arts); [done|]. by injection Hs. }
  clear Hs.
  assert (Hlen : (length (nonblank_titles arts) ≤ 10)%nat).
  { unfold nonblank_titles.
    etrans; [apply length_filter|]. rewrite length_map, length_take. lia. }
  split; [|split; [|split]].
  - rewrite Heq. destruct (nonblank_titles arts) as [|t ts]; [done|].
    apply truthy_true, join_bullets_truthy.
  - split; [|done]. destruct (nonblank_titles arts); [done|simpl; lia].
  - done.
  - intros Hfree. rewrite Heq. apply split_join_lines.
    + by destruct (nonblank_titles arts).
    + apply Forall_forall. intros x Hx.
      apply (list_elem_of_fmap_1 bullet_line) in Hx as (t' & -> & Ht').
      apply bullet_line_no_break.
      unfold nonblank_titles in Ht'.
      apply list_elem_of_filter in Ht' as [_ Ht'].
      apply (list_elem_of_fmap_1 (λ a, strip (title a))) in Ht'
        as (a & -> & Ha).
      rewrite Forall_forall in Hfree.
      intros Hin. apply (Hfree a Ha). by apply chars_strip.
Qed.

Lemma headline_summary_lines_witness :
  let arts := [mkArticle " Budget passed " "https://example.com/a" None None;
               mkArticle "  " "https://example.com/b" None None;
               mkArticle "Rain expected" "https://example.com/c" None None] in
  split_char lf (join nl [bullet_line "Budget passed"; bullet_line "Rain expected"])
  = map bullet_line (nonblank_titles arts).
Proof.
  intros arts.
  apply (headline_summary_lines arts
           (join nl [bullet_line "Budget passed"; bullet_line "Rain expected"])).
  - vm_compute. reflexivity.
  - repeat constructor; apply (bool_decide_unpack _); by vm_compute.
Defined.

(** X4. The prompt sent to the LLM is made of the source name, the
    section name and the titles of the first fifteen articles: two
    article lists that agree on these titles give the same prompt and
    the same Tier 1 result, whatever their bodies, links and further
    articles. *)
Theorem prompt_uses_first_fifteen_titles (src sec : string)
    (arts1 arts2 : list Article) :
  map title (take 15 arts1) = map title (take 15 arts2) →
  gemini_prompt src sec arts1 = gemini_prompt src sec arts2 ∧
  ∀ llm, _summarize_gemini llm src sec arts1
         = _summarize_gemini llm src sec arts2.
Proof.
  intros Ht.
  assert (Hp : gemini_prompt src sec arts1 = gemini_prompt src sec arts2).
  { unfold gemini_prompt. do 3 f_equal.
    rewrite <- (map_map title (λ t, "- " +:+ t) (take 15 arts1)).
    rewrite <- (map_map title (λ t, "- " +:+ t) (take 15 arts2)).
    by rewrite Ht. }
  split; [done|]. intros llm. unfold _summarize_gemini. by rewrite Hp.
Qed.

Lemma prompt_uses_first_fifteen_titles_witness :
  gemini_prompt "THE_HINDU" "Opinion"
    [mkArticle "Editorial" "https://example.com/a" (Some "body") None]
  = gemini_prompt "THE_HINDU" "Opinion"
    [mkArticle "Editorial" "https://example.com/b" None (Some "x")].
Proof.
  apply (prompt_uses_first_fifteen_titles "THE_HINDU" "Opinion").
  reflexivity.
Defined.

(** ** The two-part reply of a Tamil source *)

Local Abbreviation bars := "|||".

Lemma split_on_free sep s :
  contains sep s = false → split_on sep 0 s = [s].
Proof.
  induction s as [|c s IH]; [done|].
  rewrite contains_cons. intros [Hp Hs]%orb_false_elim.
  cbn [split_on]. rewrite Hp, IH by done. done.
Qed.

(** Whether [|||] starts at the first character of [c a |||...] only
    depends on [c a ||]. *)
Lemma prefix_bars_window c a b :
  String.prefix bars (String c (a +:+ bars +:+ b))
  = String.prefix bars (String c (a +:+ "||")).
Proof.
  destruct a as [|x [|y a]]; rewrite ?append_nil, ?append_cons, ?append_nil.
  - rewrite !prefix_cons. repeat (destruct (ascii_dec _ _); [|done]).
    by rewrite !prefix_nil.
  - rewrite !prefix_cons. repeat (destruct (ascii_dec _ _); [|done]).
    by rewrite !prefix_nil.
  - rewrite !prefix_cons. repeat (destruct (ascii_dec _ _); [|done]).
    by rewrite !prefix_nil.
Qed.

(** The text before the first [|||] is the first part. *)
Lemma split_on_first a b :
  contains bars (a +:+ "||") = false →
  split_on bars 0 (a +:+ bars +:+ b) = a :: split_on bars 0 b.
Proof.
  induction a as [|c a IH].
  - intros _. rewrite append_nil.
    change (bars +:+ b) with (String "|" (String "|" (String "|" b))).
    cbn [split_on]. rewrite !prefix_cons_same, prefix_nil. done.
  - rewrite (append_cons c a (bars +:+ b)), (append_cons c a "||").
    rewrite contains_cons. intros [Hp Hs]%orb_false_elim.
    cbn [split_on]. rewrite prefix_bars_window, Hp, IH by done. done.
Qed.

(** X5. For a Tamil source, a reply whose stripped text is [a|||b],
    the [|||] shown being the first one in it, is parsed into the
    summary [a] and the Tamil summary [b], both stripped; when [b]
    holds further [|||], the Tamil summary is the text of [b] before
    the first of them. *)
Theorem tamil_two_part_reply (llm : string → llm_reply) (src sec : string)
    (arts : list Article) (t a b : string) :
  tamil src →
  llm (gemini_prompt src sec arts) = Text t →
  strip t = a +:+ bars +:+ b →
  contains bars (a +:+ "||") = false →
  _summarize_gemini llm src sec arts
    = Some {| summary := Some (strip a);
              summary_ta := Some (strip (hd "" (split_str bars b)));
              method := None; error := None |} ∧
  (contains bars b = false → hd "" (split_str bars b) = b).
Proof.
  intros Hsrc Hl Ht Ha. split.
  - unfold _summarize_gemini. rewrite Hl.
    apply is_tamil_source_true in Hsrc. rewrite Hsrc, Ht.
    rewrite contains_app. cbn [andb]. unfold split_str.
    rewrite split_on_first by done. cbn [nth].
    by destruct (split_on bars 0 b).
  - intros Hb. unfold split_str. by rewrite split_on_free.
Qed.

Lemma tamil_two_part_reply_witness :
  let llm := λ _ : string, Text " Floods recede. ||| வெள்ளம் வடிகிறது. " in
  _summarize_gemini llm "DINAMANI" "Latest News"
    [mkArticle "Chennai floods" "https://example.com/a" None None]
  = Some {| summary := Some "Floods recede.";
            summary_ta := Some "வெள்ளம் வடிகிறது.";
            method := None; error := None |}.
Proof.
  intros llm.
  apply (tamil_two_part_reply llm "DINAMANI" "Latest News"
           [mkArticle "Chennai floods" "https://example.com/a" None None]
           " Floods recede. ||| வெள்ளம் வடிகிறது. "
           "Floods recede. " " வெள்ளம் வடிகிறது.").
  - apply (bool_decide_unpack _). by vm_compute.
  - reflexivity.
  - vm_compute. reflexivity.
  - vm_compute. reflexivity.
Defined.

End SummarizerMore.

(* ===================================================================== *)
(** * Further properties of the merge *)
(* ===================================================================== *)

Module MergeMore.
Import PyStr UpAhead MergeProps InPlaceProps.

(** ** What a returned document tells about the inputs *)

Lemma seed_day_ok today m b m' : seed_day today m b = Ok m' → has_date b.
Proof.
  unfold seed_day, get_date, has_date.
  destruct (date b) as [s|]; [intros _; by eexists|done].
Qed.

Lemma merge_day_ok m b m' : merge_day m b = Ok m' → has_date b.
Proof.
  unfold merge_day, get_date, has_date.
  destruct (date b) as [s|]; [intros _; by eexists|done].
Qed.

Lemma seed_loop_ok today l m m' :
  for_each (seed_day today) l m = Ok m' → Forall has_date l.
Proof.
  revert m. induction l as [|b l IH]; intros m; [constructor|].
  cbn [for_each]. destruct (seed_day today m b) as [m1|e] eqn:E; [|done].
  intros H. constructor; [by eapply seed_day_ok|by eapply IH].
Qed.

Lemma merge_loop_ok l m m' :
  for_each merge_day l m = Ok m' → Forall has_date l.
Proof.
  revert m. induction l as [|b l IH]; intros m; [constructor|].
  cbn [for_each]. destruct (merge_day m b) as [m1|e] eqn:E; [|done].
  intros H. constructor; [by eapply merge_day_ok|by eapply IH].
Qed.

(** A merge that returns has met a date in every bucket. *)
Lemma merge_data_ok today ex new_data r :
  doc_truthy ex = true →
  merge_data today (Some ex) new_data = Ok r →
  Forall has_date (buckets ex) ∧ Forall has_date (buckets new_data) ∧
  r = merged_doc today ex new_data.
Proof.
  intros Ht Hr.
  assert (He : Forall has_date (buckets ex) ∧ Forall has_date (buckets new_data)).
  { unfold merge_data, merge_timeline in Hr. rewrite Ht in Hr. cbn [negb] in Hr.
    fold (buckets ex) (buckets new_data) in Hr.
    destruct (for_each (seed_day today) (buckets ex) []) as [m0|e] eqn:E0;
      [|done].
    apply seed_loop_ok in E0. split; [done|].
    cbn in Hr.
    destruct (for_each merge_day (buckets new_data) m0) as [m1|e] eqn:E1;
      [|done].
    by apply merge_loop_ok in E1. }
  destruct He as [He Hn]. split; [done|]. split; [done|].
  rewrite merge_data_truthy in Hr by done. by injection Hr.
Qed.

(** ** Keys of the timeline map *)

Lemma keys_dict_set {V} k k' (v : V) m :
  k ∈ keys (dict_set k' v m) ↔ k = k' ∨ k ∈ keys m.
Proof.
  destruct (decide (k' ∈ keys m)) as [Hin|Hout].
  - rewrite dict_set_keys by done. split; [tauto|]. by intros [->|?].
  - rewrite dict_set_new, keys_app by done. simpl.
    rewrite elem_of_app, list_elem_of_singleton. tauto.
Qed.

Lemma keys_seed_pure today k m b :
  k ∈ keys (seed_pure today m b)
  ↔ k ∈ keys m ∨ (in_window today b = true ∧ k = date_key b).
Proof.
  unfold seed_pure. destruct (in_window today b).
  - rewrite keys_dict_set. split.
    + intros [->|?]; [by right|by left].
    + intros [?|[_ ->]]; [by right|by left].
  - split; [by left|]. by intros [?|[? _]].
Qed.

Lemma keys_merge_pure k m b :
  k ∈ keys (merge_pure m b) ↔ k ∈ keys m ∨ k = date_key b.
Proof.
  unfold merge_pure. destruct (dict_get (date_key b) m);
    rewrite keys_dict_set; tauto.
Qed.

Lemma keys_seed_fold today k l m :
  k ∈ keys (fold_left (seed_pure today) l m)
  ↔ k ∈ keys m ∨ ∃ b, b ∈ l ∧ in_window today b = true ∧ k = date_key b.
Proof.
  revert m. induction l as [|b l IH]; intros m; simpl.
  - split; [by left|]. intros [?|(b & ?%elem_of_nil & _)]; done.
  - rewrite IH, keys_seed_pure. split.
    + intros [[?|[? ?]]|(c & ? & ? & ?)]; [by left| |].
      * right. exists b. split; [apply list_elem_of_here|done].
      * right. exists c. split; [by apply list_elem_of_further|done].
    + intros [?|(c & [->|?]%elem_of_cons & ? & ?)].
      * by left; left.
      * left. by right.
      * right. by exists c.
Qed.

Lemma keys_merge_fold k l m :
  k ∈ keys (fold_left merge_pure l m)
  ↔ k ∈ keys m ∨ ∃ b, b ∈ l ∧ k = date_key b.
Proof.
  revert m. induction l as [|b l IH]; intros m; simpl.
  - split; [by left|]. intros [?|(b & ?%elem_of_nil & _)]; done.
  - rewrite IH, keys_merge_pure. split.
    + intros [[?|?]|(c & ? & ?)]; [by left| |].
      * right. exists b. split; [apply list_elem_of_here|done].
      * right. exists c. split; [by apply list_elem_of_further|done].
    + intros [?|(c & [->|?]%elem_of_cons & ?)].
      * by left; left.
      * left. by right.
      * right. by exists c.
Qed.

Lemma NoDup_keys_seed_fold today l m :
  NoDup (keys m) → NoDup (keys (fold_left (seed_pure today) l m)).
Proof.
  revert m. induction l as [|b l IH]; intros m Hm; [done|].
  simpl. apply IH. unfold seed_pure.
  destruct (in_window today b); [by apply dict_set_NoDup|done].
Qed.

Lemma NoDup_keys_merge_fold l m :
  NoDup (keys m) → NoDup (keys (fold_left merge_pure l m)).
Proof.
  revert m. induction l as [|b l IH]; intros m Hm; [done|].
  simpl. apply IH. unfold merge_pure.
  destruct (dict_get (date_key b) m); by apply dict_set_NoDup.
Qed.

(** The dates of the values of a keyed map are its keys. *)
Lemma keyed_dates (m : tmap) :
  NoDup (keys m) → keyed m → map date (dict_values m) = map Some (keys m).
Proof.
  intros Hnd Hk. unfold dict_values, keys. rewrite !map_map.
  apply map_ext_in. intros [k v] Hin. simpl.
  apply Hk, elem_dict_get; [done|]. by apply list_elem_of_In.
Qed.

(** The map the two loops leave. *)
Definition final_map (today : Date) (ex new_data : EventDocument) : tmap :=
  fold_left merge_pure (buckets new_data)
    (fold_left (seed_pure today) (buckets ex) []).

Lemma final_map_facts today ex new_data :
  Forall has_date (buckets ex) → Forall has_date (buckets new_data) →
  NoDup (keys (final_map today ex new_data)) ∧
  keyed (final_map today ex new_data) ∧
  buckets (merged_doc today ex new_data)
    ≡ₚ dict_values (final_map today ex new_data).
Proof.
  intros He Hn. split; [|split].
  - apply NoDup_keys_merge_fold, NoDup_keys_seed_fold. constructor.
  - apply keyed_merge_fold; [done|].
    apply keyed_seed_fold; [done|apply keyed_nil].
  - unfold buckets at 1, merged_doc. simpl. apply sorted_by_date_perm.
Qed.

(** X6. The timeline of a merged document is in ascending order of
    date string, holds no two buckets of the same date, and each of
    its buckets has a date: what the merge returns can be merged
    again. *)
Theorem merged_timeline_sorted_distinct (today : Date)
    (ex new_data r : EventDocument) :
  doc_truthy ex = true →
  merge_data today (Some ex) new_data = Ok r →
  StronglySorted date_le (buckets r) ∧
  NoDup (map date (buckets r)) ∧
  Forall has_date (buckets r).
Proof.
  intros Ht Hr. apply merge_data_ok in Hr as (He & Hn & ->); [|done].
  destruct (final_map_facts today ex new_data He Hn) as (Hnd & Hk & Hp).
  assert (Hdates : NoDup (map date (buckets (merged_doc today ex new_data)))).
  { change (map date ?l) with (date <$> l). rewrite Hp.
    change (date <$> ?l) with (map date l).
    rewrite keyed_dates by done.
    change (map Some ?l) with (Some <$> l).
    apply (NoDup_fmap_2 Some), Hnd. }
  split; [|split; [done|]].
  - unfold buckets at 1, merged_doc. simpl. apply sorted_by_date_sorted.
  - apply Forall_forall. intros b Hb. rewrite Hp in Hb.
    unfold dict_values in Hb.
    apply (list_elem_of_fmap_1 snd) in Hb as ([k v] & -> & Hin).
    simpl. exists k. apply Hk. by apply elem_dict_get.
Qed.

Lemma merged_timeline_sorted_distinct_witness :
  let day s t := mkDay (Some s) "" (Some [titled t]) in
  let ex := mkDoc (Some [day "2024-01-09" "Fair"; day "2024-01-03" "Gala"])
                  None None None in
  let new_data := mkDoc (Some [day "2024-01-05" "Concert";
                               day "2024-01-03" "Parade"]) None None None in
  let r := mkDoc (Some [ mkDay (Some "2024-01-03") ""
                           (Some [titled "Gala"; titled "Parade"]);
                         day "2024-01-05" "Concert";
                         day "2024-01-09" "Fair" ])
                 (Some ∅) (Some ∅) None in
  StronglySorted date_le (buckets r) ∧
  NoDup (map date (buckets r)) ∧
  Forall has_date (buckets r).
Proof.
  intros day ex new_data r.
  apply (merged_timeline_sorted_distinct (mkDate 2024 1 2) ex new_data r).
  - reflexivity.
  - vm_compute. reflexivity.
Defined.

(** X7. The dates of a merged timeline are the dates of the existing
    buckets that parse and are today or later, together with the dates
    of all incoming buckets, and no other. *)
Theorem merged_timeline_dates (today : Date) (ex new_data r : EventDocument)
    (s : string) :
  doc_truthy ex = true →
  merge_data today (Some ex) new_data = Ok r →
  Some s ∈ map date (buckets r) ↔
  (∃ b, b ∈ buckets ex ∧ in_window today b = true ∧ date b = Some s) ∨
  (∃ b, b ∈ buckets new_data ∧ date b = Some s).
Proof.
  intros Ht Hr. apply merge_data_ok in Hr as (He & Hn & ->); [|done].
  destruct (final_map_facts today ex new_data He Hn) as (Hnd & Hk & Hp).
  change (map date ?l) with (date <$> l). rewrite Hp.
  change (date <$> ?l) with (map date l). rewrite keyed_dates by done.
  change (map Some ?l) with (Some <$> l).
  rewrite (list_elem_of_fmap_inj Some).
  unfold final_map. rewrite keys_merge_fold, keys_seed_fold.
  assert (Hkey : ∀ l b, Forall has_date l → b ∈ l →
                        (s = date_key b ↔ date b = Some s)).
  { intros l b Hl Hb. rewrite Forall_forall in Hl.
    rewrite (date_key_date b (Hl b Hb)).
    split; [by intros ->|by intros [= ->]]. }
  split.
  - intros [[?%elem_of_nil|(b & Hb & Hw & Hs)]|(b & Hb & Hs)]; [done| |].
    + left. exists b. split; [done|]. split; [done|].
      by apply (Hkey _ b He Hb).
    + right. exists b. split; [done|]. by apply (Hkey _ b Hn Hb).
  - intros [(b & Hb & Hw & Hs)|(b & Hb & Hs)].
    + left. right. exists b. split; [done|]. split; [done|].
      by apply (Hkey _ b He Hb).
    + right. exists b. split; [done|]. by apply (Hkey _ b Hn Hb).
Qed.

Lemma merged_timeline_dates_witness :
  let day s t := mkDay (Some s) "" (Some [titled t]) in
  let ex := mkDoc (Some [day "2024-01-09" "Fair"; day "2023-12-31" "Gala"])
                  None None None in
  let new_data := mkDoc (Some [day "2024-01-05" "Concert"]) None None None in
  let r := mkDoc (Some [day "2024-01-05" "Concert"; day "2024-01-09" "Fair"])
                 (Some ∅) (Some ∅) None in
  Some "2024-01-09" ∈ map date (buckets r) ↔
  (∃ b, b ∈ buckets ex ∧ in_window (mkDate 2024 1 2) b = true ∧
        date b = Some "2024-01-09") ∨
  (∃ b, b ∈ buckets new_data ∧ date b = Some "2024-01-09").
Proof.
  intros day ex new_data r.
  apply (merged_timeline_dates (mkDate 2024 1 2) ex new_data r).
  - reflexivity.
  - vm_compute. reflexivity.
Defined.

(** ** Where the items of a merged bucket come from *)

(** Every item of every bucket of the map is an item of a bucket of the
    same date that satisfies [S]. *)
Definition items_from (S : DayBucket → Prop) (m : tmap) : Prop :=
  ∀ k v i, (k, v) ∈ m → i ∈ item_list v →
           ∃ b, S b ∧ date b = Some k ∧ i ∈ item_list b.

Lemma items_from_set S k v m :
  items_from S m →
  (∀ i, i ∈ item_list v → ∃ b, S b ∧ date b = Some k ∧ i ∈ item_list b) →
  items_from S (dict_set k v m).
Proof.
  intros Hm Hv k' v' i [[= -> ->]|Hin]%dict_set_elem Hi; [by apply Hv|].
  by eapply Hm.
Qed.

Lemma items_from_seed S today m b :
  has_date b → (in_window today b = true → S b) →
  items_from S m → items_from S (seed_pure today m b).
Proof.
  intros Hb HS Hm. unfold seed_pure.
  destruct (in_window today b) eqn:Hw; [|done].
  apply items_from_set; [done|]. intros i Hi. exists b.
  split; [by apply HS|]. split; [by apply date_key_date|done].
Qed.

Lemma items_from_merge S m b :
  has_date b → S b → items_from S m → items_from S (merge_pure m b).
Proof.
  intros Hb HS Hm. unfold merge_pure.
  destruct (dict_get (date_key b) m) as [t|] eqn:Hget.
  - apply items_from_set; [done|]. intros i Hi.
    unfold item_list in Hi. simpl in Hi. rewrite merge_items_spec in Hi.
    apply elem_of_app in Hi as [Hi|Hi].
    + eapply Hm; [by apply dict_get_elem|done].
    + unfold fresh_items in Hi. apply list_elem_of_filter in Hi as [_ Hi].
      exists b. split; [done|]. split; [by apply date_key_date|done].
  - apply items_from_set; [done|]. intros i Hi. exists b.
    split; [done|]. split; [by apply date_key_date|done].
Qed.

Lemma items_from_seed_fold S today l m :
  Forall has_date l → (∀ b, b ∈ l → in_window today b = true → S b) →
  items_from S m → items_from S (fold_left (seed_pure today) l m).
Proof.
  intros Hl. revert m. induction Hl as [|b l Hb _ IH]; intros m HS Hm; [done|].
  simpl. apply IH.
  - intros c Hc. apply HS. by apply list_elem_of_further.
  - apply items_from_seed; [done| |done]. apply HS, list_elem_of_here.
Qed.

Lemma items_from_merge_fold S l m :
  Forall has_date l → (∀ b, b ∈ l → S b) →
  items_from S m → items_from S (fold_left merge_pure l m).
Proof.
  intros Hl. revert m. induction Hl as [|b l Hb _ IH]; intros m HS Hm; [done|].
  simpl. apply IH.
  - intros c Hc. apply HS. by apply list_elem_of_further.
  - apply items_from_merge; [done| |done]. apply HS, list_elem_of_here.
Qed.

(** X8. The merge invents no item: every item of a bucket of the
    merged timeline is an item of an input bucket of the same date,
    either an existing bucket dated today or later or an incoming
    bucket. *)
Theorem merged_items_come_from_inputs (today : Date)
    (ex new_data r : EventDocument) (b' : DayBucket) (i : Item) :
  doc_truthy ex = true →
  merge_data today (Some ex) new_data = Ok r →
  b' ∈ buckets r → i ∈ item_list b' →
  ∃ b, ((b ∈ buckets ex ∧ in_window today b = true) ∨ b ∈ buckets new_data) ∧
       date b = date b' ∧ i ∈ item_list b.
Proof.
  intros Ht Hr Hb' Hi. apply merge_data_ok in Hr as (He & Hn & ->); [|done].
  destruct (final_map_facts today ex new_data He Hn) as (Hnd & Hk & Hp).
  rewrite Hp in Hb'. unfold dict_values in Hb'.
  apply (list_elem_of_fmap_1 snd) in Hb' as ([k v] & -> & Hin). simpl in *.
  assert (Hfrom : items_from
            (λ b, (b ∈ buckets ex ∧ in_window today b = true)
                  ∨ b ∈ buckets new_data)
            (final_map today ex new_data)).
  { apply items_from_merge_fold; [done|by right|].
    apply items_from_seed_fold; [done|by left|].
    by intros ??? ?%elem_of_nil. }
  destruct (Hfrom k v i Hin Hi) as (b & HS & Hd & Hib).
  exists b. split; [done|]. split; [|done].
  rewrite Hd. symmetry. by apply Hk, elem_dict_get.
Qed.

Lemma merged_items_come_from_inputs_witness :
  let day s l := mkDay (Some s) "" (Some l) in
  let ex := mkDoc (Some [day "2024-01-03" [titled "Gala"]]) None None None in
  let new_data := mkDoc (Some [day "2024-01-03" [titled "GALA"; titled "Parade"]])
                        None None None in
  let r := mkDoc (Some [day "2024-01-03" [titled "Gala"; titled "Parade"]])
                 (Some ∅) (Some ∅) None in
  ∃ b, ((b ∈ buckets ex ∧ in_window (mkDate 2024 1 2) b = true)
        ∨ b ∈ buckets new_data) ∧
       date b = Some "2024-01-03" ∧ titled "Parade" ∈ item_list b.
Proof.
  intros day ex new_data r.
  apply (merged_items_come_from_inputs (mkDate 2024 1 2) ex new_data r
           (day "2024-01-03" [titled "Gala"; titled "Parade"]) (titled "Parade")).
  - reflexivity.
  - vm_compute. reflexivity.
  - apply list_elem_of_here.
  - apply list_elem_of_further, list_elem_of_here.
Defined.

(** ** No incoming title is lost *)

(** Every item of [b] has an item of the same lower-cased title in
    [v]. *)
Definition covers (b v : DayBucket) : Prop :=
  ∀ i, i ∈ item_list b → ∃ j, j ∈ item_list v ∧ title_lc j = title_lc i.

Lemma covers_carried b v v' : covers b v → carried v v' → covers b v'.
Proof.
  intros Hc (_ & _ & more & Hmore) i Hi.
  destruct (Hc i Hi) as (j & Hj & Ht). exists j. split; [|done].
  unfold item_list. rewrite Hmore. apply elem_of_app. by left.
Qed.

Lemma merge_pure_covers m b :
  ∃ v, dict_get (date_key b) (merge_pure m b) = Some v ∧ covers b v.
Proof.
  rewrite merge_pure_get_same. eexists. split; [done|].
  destruct (dict_get (date_key b) m) as [t|]; [|by intros i Hi; exists i].
  intros i Hi. unfold item_list at 1. simpl. rewrite merge_items_spec.
  destruct (decide (title_lc i ∈ map title_lc (default [] (items t))))
    as [Hin|Hout].
  - apply (list_elem_of_fmap_1 title_lc) in Hin as (j & Hj & Hin).
    exists j. split; [|done]. apply elem_of_app. by left.
  - exists i. split; [|done]. apply elem_of_app. right.
    unfold fresh_items. by apply list_elem_of_filter.
Qed.

(** X9. The merge loses no incoming title: for every item of every
    incoming bucket, the merged timeline has a bucket of the same date
    that holds an item of the same title up to case (the incoming item
    itself, or the item that was there before it). *)
Theorem incoming_titles_kept (today : Date) (ex new_data r : EventDocument)
    (b : DayBucket) (i : Item) :
  doc_truthy ex = true →
  merge_data today (Some ex) new_data = Ok r →
  b ∈ buckets new_data → i ∈ item_list b →
  ∃ b' j, b' ∈ buckets r ∧ date b' = date b ∧ j ∈ item_list b' ∧
          lower (get_title j) = lower (get_title i).
Proof.
  intros Ht Hr Hb Hi. apply merge_data_ok in Hr as (He & Hn & ->); [|done].
  destruct (final_map_facts today ex new_data He Hn) as (Hnd & Hk & Hp).
  apply list_elem_of_split in Hb as (pre & post & Hsplit).
  set (m0 := fold_left (seed_pure today) (buckets ex) []).
  destruct (merge_pure_covers (fold_left merge_pure pre m0) b)
    as (v & Hv & Hcov).
  destruct (merge_fold_carries post _ _ _ Hv) as (v' & Hv' & Hcar).
  assert (Hget : dict_get (date_key b) (final_map today ex new_data) = Some v').
  { unfold final_map. fold m0. by rewrite Hsplit, fold_left_app. }
  destruct (covers_carried b v v' Hcov Hcar i Hi) as (j & Hj & Htitle).
  exists v', j. split; [|split; [|done]].
  - rewrite Hp. by eapply dict_get_Some_values.
  - rewrite (Hk _ _ Hget). symmetry. apply date_key_date.
    rewrite Hsplit in Hn. by apply has_date_middle in Hn as (_ & ? & _).
Qed.

Lemma incoming_titles_kept_witness :
  let day s l := mkDay (Some s) "" (Some l) in
  let ex := mkDoc (Some [day "2024-01-03" [titled "Gala"]]) None None None in
  let new_data := mkDoc (Some [day "2024-01-03" [titled "GALA"; titled "Parade"]])
                        None None None in
  let r := mkDoc (Some [day "2024-01-03" [titled "Gala"; titled "Parade"]])
                 (Some ∅) (Some ∅) None in
  ∃ b' j, b' ∈ buckets r ∧ date b' = Some "2024-01-03" ∧ j ∈ item_list b' ∧
          lower (get_title j) = lower (get_title (titled "GALA")).
Proof.
  intros day ex new_data r.
  apply (incoming_titles_kept (mkDate 2024 1 2) ex new_data r
           (day "2024-01-03" [titled "GALA"; titled "Parade"]) (titled "GALA")).
  - reflexivity.
  - vm_compute. reflexivity.
  - apply list_elem_of_here.
  - apply list_elem_of_here.
Defined.

(** ** Category lists *)

(** What the two loops over a category keep in step: the titles seen
    are those of the items kept, no two of which share a key, none of
    which is blank. *)
Definition dedup_inv (st : gset string * list Item) : Prop :=
  st.1 = list_to_set (map dedup_key st.2) ∧
  NoDup (map dedup_key st.2) ∧
  Forall (λ i, dedup_key i ≠ "") st.2.

Lemma dedup_step_cases st i :
  (dedup_key i ≠ "" ∧ (dedup_key i ∉ fst st) ∧
   dedup_step st i = ({[ dedup_key i ]} ∪ fst st, snd st ++ [i])) ∨
  ((dedup_key i = "" ∨ dedup_key i ∈ fst st) ∧ dedup_step st i = st).
Proof.
  destruct st as [seen acc]. simpl.
  destruct (decide (dedup_key i = "")) as [He|Hne].
  { right. split; [by left|]. apply dedup_step_seen. by left. }
  destruct (decide (dedup_key i ∈ seen)) as [Hin|Hout].
  { right. split; [by right|]. apply dedup_step_seen. by right. }
  left. split; [done|]. split; [done|]. by apply dedup_step_fresh.
Qed.

Lemma dedup_inv_step st i : dedup_inv st → dedup_inv (dedup_step st i).
Proof.
  intros (Hseen & Hnd & Hnb).
  destruct (dedup_step_cases st i) as [(Hne & Hout & ->)|[_ ->]]; [|done].
  unfold dedup_inv. simpl. rewrite map_app. simpl. split; [|split].
  - rewrite list_to_set_app_L, Hseen. simpl.
    rewrite (right_id_L ∅ (∪)). apply (comm_L (∪)).
  - apply NoDup_app. split; [done|]. split; [|apply NoDup_singleton].
    intros k Hk ->%list_elem_of_singleton. apply Hout.
    rewrite Hseen. by apply elem_of_list_to_set.
  - apply Forall_app. split; [done|]. by constructor.
Qed.

Lemma dedup_inv_fold l st : dedup_inv st → dedup_inv (fold_left dedup_step l st).
Proof.
  revert st. induction l as [|i l IH]; intros st Hst; [done|].
  simpl. by apply IH, dedup_inv_step.
Qed.

(** The list kept so far only grows, by items of the list looped
    over. *)
Lemma dedup_fold_grows l st :
  ∃ more, (fold_left dedup_step l st).2 = st.2 ++ more ∧ more ⊆ l.
Proof.
  revert st. induction l as [|i l IH]; intros st; simpl.
  - exists []. by rewrite app_nil_r.
  - destruct (IH (dedup_step st i)) as (more & -> & Hsub).
    destruct (dedup_step_cases st i) as [(_ & _ & ->)|[_ ->]]; simpl.
    + exists (i :: more). rewrite <- app_assoc. split; [done|].
      intros x [->|Hx]%elem_of_cons; [apply list_elem_of_here|].
      by apply list_elem_of_further, Hsub.
    + exists more. split; [done|].
      intros x Hx. by apply list_elem_of_further, Hsub.
Qed.

(** Every non-blank key met is a key seen afterwards. *)
Lemma dedup_fold_seen_all l st i :
  i ∈ l → dedup_key i ≠ "" → dedup_key i ∈ (fold_left dedup_step l st).1.
Proof.
  assert (Hmono : ∀ l st k, k ∈ st.1 → k ∈ (fold_left dedup_step l st).1).
  { clear. intros l. induction l as [|x l IH]; intros st k Hk; [done|].
    simpl. apply IH.
    destruct (dedup_step_cases st x) as [(_ & _ & ->)|[_ ->]]; [|done].
    simpl. by apply elem_of_union_r. }
  revert st. induction l as [|x l IH]; intros st Hin Hne.
  - by apply elem_of_nil in Hin.
  - apply elem_of_cons in Hin as [->|Hin]; [|by apply IH].
    simpl. apply Hmono.
    destruct (dedup_step_cases st x) as [(_ & _ & ->)|[[?|?] ->]];
      [simpl; by apply elem_of_union_l, elem_of_singleton|done|done].
Qed.

(** X10. A merged category list holds no item with a blank title and no
    two items whose titles agree up to case and surrounding white
    space. It begins with the items kept from the existing list,
    followed by items of the incoming list only, and every non-blank
    title of either list is the title, up to case and white space, of
    an item kept. *)
Theorem merged_category_deduplicated (e_list n_list : list Item) :
  let r := merge_category e_list n_list in
  NoDup (map dedup_key r) ∧
  Forall (λ i, dedup_key i ≠ "") r ∧
  (∃ kept more, r = kept ++ more ∧ kept = merge_category e_list [] ∧
                kept ⊆ e_list ∧ more ⊆ n_list) ∧
  (∀ i, i ∈ e_list ++ n_list → dedup_key i ≠ "" →
        ∃ j, j ∈ r ∧ dedup_key j = dedup_key i).
Proof.
  intros r. subst r. unfold merge_category.
  set (st1 := fold_left dedup_step e_list (∅, [])).
  set (st2 := fold_left dedup_step n_list st1).
  assert (H0 : dedup_inv (∅, [])).
  { split; [done|]. split; constructor. }
  assert (H1 : dedup_inv st1) by by apply dedup_inv_fold.
  assert (H2 : dedup_inv st2) by by apply dedup_inv_fold.
  destruct H2 as (Hseen & Hnd & Hnb).
  split; [done|]. split; [done|]. split.
  - destruct (dedup_fold_grows e_list (∅, [])) as (kept & Hk & Hks).
    destruct (dedup_fold_grows n_list st1) as (more & Hm & Hms).
    fold st1 in Hk. fold st2 in Hm. simpl in Hk.
    exists kept, more. rewrite Hm, Hk. done.
  - intros i Hi Hne.
    assert (Hin : dedup_key i ∈ st2.1).
    { apply elem_of_app in Hi as [Hi|Hi].
      - assert (Hmono : dedup_key i ∈ st1.1) by by apply dedup_fold_seen_all.
        clear -Hmono. subst st2. revert Hmono. generalize st1.
        induction n_list as [|x l IH]; intros st Hk; [done|].
        simpl. apply IH.
        destruct (dedup_step_cases st x) as [(_ & _ & ->)|[_ ->]]; [|done].
        simpl. by apply elem_of_union_r.
      - by apply dedup_fold_seen_all. }
    rewrite Hseen in Hin. apply elem_of_list_to_set in Hin.
    apply (list_elem_of_fmap_1 dedup_key) in Hin as (j & Hj & Hin).
    by exists j.
Qed.

(** X11. The categories of a merged document are those of either
    document; a category is the merge of the two lists it has in the
    two documents, a missing list counting as empty. *)
Theorem merged_sections_are_the_union
    (existing_sections new_sections : gmap string (list Item)) :
  dom (merge_sections existing_sections new_sections)
    = dom existing_sections ∪ dom new_sections ∧
  ∀ key, key ∈ dom existing_sections ∪ dom new_sections →
         merge_sections existing_sections new_sections !! key
         = Some (merge_category (default [] (existing_sections !! key))
                                (default [] (new_sections !! key))).
Proof.
  split.
  - apply set_eq. intros k. rewrite elem_of_dom, merge_sections_lookup.
    destruct (decide (k ∈ dom existing_sections ∪ dom new_sections));
      split; (done || by intros [? ?] || by eexists).
  - intros key Hkey. rewrite merge_sections_lookup. by rewrite decide_True.
Qed.

End MergeMore.

(* ===================================================================== *)
(** * The timeline of a returned merge                                    *)
(* ===================================================================== *)

Module TimelineClaims.
Import PyStr UpAhead MergeProps InPlaceProps MergeMore.

(** The bucket of a date in the merged timeline is the entry of that
    date in the map the two loops leave. *)
Lemma merged_bucket_unique today ex new_data k t v :
  Forall has_date (buckets ex) → Forall has_date (buckets new_data) →
  dict_get k (final_map today ex new_data) = Some t →
  v ∈ buckets (merged_doc today ex new_data) → date v = Some k → v = t.
Proof.
  intros He Hn Hget Hv Hd.
  destruct (final_map_facts today ex new_data He Hn) as (Hnd & Hk & Hp).
  rewrite Hp in Hv. unfold dict_values in Hv.
  apply (list_elem_of_fmap_1 snd) in Hv as ([k' v'] & -> & Hin).
  cbn [snd] in *. pose proof (elem_dict_get k' v' _ Hnd Hin) as Hget'.
  pose proof (Hk _ _ Hget') as Hd'. rewrite Hd in Hd'. injection Hd' as ->.
  congruence.
Qed.

(** The first loop leaves no entry for a date whose existing buckets
    are all outside the window. *)
Lemma seed_fold_outside today l k m :
  Forall (λ c, date_key c = k → in_window today c = false) l →
  dict_get k m = None →
  dict_get k (fold_left (seed_pure today) l m) = None.
Proof.
  intros H. revert m. induction H as [|c l Hc _ IH]; intros m Hm; [done|].
  cbn [fold_left]. apply IH. unfold seed_pure.
  destruct (in_window today c) eqn:Hw; [|done].
  rewrite dict_get_set_ne; [done|]. intros Heq. symmetry in Heq.
  by specialize (Hc Heq).
Qed.

Lemma truthy_with_buckets ex : buckets ex ≠ [] → doc_truthy ex = true.
Proof.
  unfold doc_truthy, buckets. by destruct (timeline ex).
Qed.

(** The bucket [merge_data] makes of an existing bucket [be] and an
    incoming bucket [bn] of the same date: [be] with its items
    followed by the items of [bn] whose lower-cased title is not the
    lower-cased title of an item of [be]. *)
Definition same_day_merge (be bn : DayBucket) : DayBucket :=
  set_items
    (default [] (items be) ++
     filter (λ i, lower (get_title i) ∉
                  map (λ j, lower (get_title j)) (default [] (items be)))
            (default [] (items bn)))
    be.


Lemma date_key_eq b c :
  has_date b → has_date c → (date_key c = date_key b ↔ date c = date b).
Proof.
  intros Hb Hc. rewrite (date_key_date b Hb), (date_key_date c Hc).
  split; [by intros ->|by intros [= ->]].
Qed.

(** C4 (amended). Let the merge return. When the existing timeline
    holds a bucket for a date that parses and is today or later, no
    later existing bucket bearing that date, and the incoming timeline
    holds exactly one bucket for the same date, the merged timeline
    holds exactly one bucket for that date: the existing bucket, with
    its label and its items in their order, followed by the incoming
    items whose lower-cased title (not trimmed) is not the lower-cased
    title of an item the existing bucket held; an incoming item is
    appended if and only if it passes that test. When every existing
    bucket for the date of an incoming bucket is dated before today or
    has a date that does not parse, nothing is merged: the incoming
    bucket, the only one of its date, is the merged bucket as it is.
    Items [X] merged with [x; Y] give [X; Y]; with both buckets dated
    the day before today they give [x; Y]. *)
Theorem same_day_items_merged :
  (∀ existing_items new_items,
     merge_items existing_items new_items =
     existing_items ++
     filter (λ i, lower (get_title i) ∉
                  map (λ j, lower (get_title j)) existing_items) new_items) ∧
  (∀ today ex new_data r pre_e be post_e pre_n bn post_n,
     merge_data today (Some ex) new_data = Ok r →
     buckets ex = pre_e ++ be :: post_e →
     in_window today be = true →
     Forall (λ c, date c ≠ date be) post_e →
     buckets new_data = pre_n ++ bn :: post_n →
     date bn = date be →
     Forall (λ c, date c ≠ date be) (pre_n ++ post_n) →
     same_day_merge be bn ∈ buckets r ∧
     ∀ b', b' ∈ buckets r → date b' = date be → b' = same_day_merge be bn) ∧
  (∀ today ex new_data r pre_n bn post_n,
     merge_data today (Some ex) new_data = Ok r →
     Forall (λ c, date c = date bn → in_window today c = false) (buckets ex) →
     buckets new_data = pre_n ++ bn :: post_n →
     Forall (λ c, date c ≠ date bn) (pre_n ++ post_n) →
     bn ∈ buckets r ∧ ∀ b', b' ∈ buckets r → date b' = date bn → b' = bn) ∧
  merge_items [titled "X"] [titled "x"; titled "Y"] = [titled "X"; titled "Y"] ∧
  (let day l := mkDay (Some "2024-01-05") "Friday" (Some l) in
   merge_data (mkDate 2024 1 2)
     (Some (mkDoc (Some [day [titled "X"]]) None None None))
     (mkDoc (Some [day [titled "x"; titled "Y"]]) None None None)
   = Ok (mkDoc (Some [day [titled "X"; titled "Y"]]) (Some ∅) (Some ∅) None)) ∧
  (let day l := mkDay (Some "2024-01-01") "Monday" (Some l) in
   merge_data (mkDate 2024 1 2)
     (Some (mkDoc (Some [day [titled "X"]]) None None None))
     (mkDoc (Some [day [titled "x"; titled "Y"]]) None None None)
   = Ok (mkDoc (Some [day [titled "x"; titled "Y"]]) (Some ∅) (Some ∅) None)).
Proof.
  split; [|split; [|split; [|split; [|split]]]].
  - intros. apply merge_items_spec.
  - intros today ex new_data r pre_e be post_e pre_n bn post_n
      Hr Hex Hw Hpost Hnew Hd Hothers.
    assert (Ht : doc_truthy ex = true).
    { apply truthy_with_buckets. rewrite Hex. by destruct pre_e. }
    destruct (merge_data_ok today ex new_data r Ht Hr) as (He & Hn & ->).
    assert (Hget : dict_get (date_key be) (final_map today ex new_data)
                   = Some (same_day_merge be bn)).
    { unfold final_map. rewrite Hex in He |- *. rewrite Hnew in Hn |- *.
      apply has_date_middle in He as (_ & Hbe & Hpe).
      apply has_date_middle in Hn as (Hpn & Hbn & Hqn).
      apply Forall_app in Hothers as [Ho1 Ho2].
      assert (Hk : date_key bn = date_key be).
      { unfold date_key. by rewrite Hd. }
      rewrite fold_left_app. simpl.
      rewrite merge_fold_get_other by by apply other_dates.
      rewrite <- Hk at 1. rewrite merge_pure_get_same, Hk.
      rewrite merge_fold_get_other by by apply other_dates.
      rewrite seed_fold_last; [|done|by apply other_dates].
      unfold same_day_merge. by rewrite merge_items_spec. }
    split.
    + by apply (in_merged_timeline today ex new_data (date_key be)).
    + intros b' Hb' Hdb'.
      apply (merged_bucket_unique today ex new_data (date_key be)); try done.
      rewrite Hdb'. apply date_key_date.
      rewrite Hex in He. by apply has_date_middle in He as (_ & Hbe & _).
  - intros today ex new_data r pre_n bn post_n Hr Hout Hnew Hothers.
    destruct (doc_truthy ex) eqn:Ht; cycle 1.
    { rewrite merge_data_falsy in Hr by done. injection Hr as <-.
      rewrite Hnew. split.
      - apply elem_of_app. right. apply list_elem_of_here.
      - intros b' Hb' Hdb'. apply Forall_app in Hothers as [Ho1 Ho2].
        rewrite Forall_forall in Ho1, Ho2.
        apply elem_of_app in Hb' as [Hb'|Hb']; [by destruct (Ho1 b' Hb')|].
        apply elem_of_cons in Hb' as [->|Hb']; [done|].
        by destruct (Ho2 b' Hb'). }
    destruct (merge_data_ok today ex new_data r Ht Hr) as (He & Hn & ->).
    assert (Hbn : has_date bn).
    { rewrite Hnew in Hn. by apply has_date_middle in Hn as (_ & ? & _). }
    assert (Hget : dict_get (date_key bn) (final_map today ex new_data)
                   = Some bn).
    { unfold final_map. rewrite Hnew in Hn |- *.
      apply has_date_middle in Hn as (Hpn & _ & Hqn).
      apply Forall_app in Hothers as [Ho1 Ho2].
      rewrite fold_left_app. simpl.
      rewrite merge_fold_get_other by by apply other_dates.
      rewrite merge_pure_get_same.
      rewrite merge_fold_get_other by by apply other_dates.
      rewrite seed_fold_outside; [done| |done].
      apply Forall_forall. intros c Hc Hkc.
      rewrite Forall_forall in Hout, He. apply (Hout c Hc).
      by apply (date_key_eq bn c); [|apply He|]. }
    split.
    + by apply (in_merged_timeline today ex new_data (date_key bn)).
    + intros b' Hb' Hdb'.
      apply (merged_bucket_unique today ex new_data (date_key bn)); try done.
      rewrite Hdb'. by apply date_key_date.
  - vm_compute. reflexivity.
  - vm_compute. reflexivity.
  - vm_compute. reflexivity.
Qed.

Lemma same_day_items_merged_witness :
  let day lbl l := mkDay (Some "2024-01-05") lbl (Some l) in
  let other := mkDay (Some "2024-01-07") "Sunday" (Some [titled "Fair"]) in
  let ex := mkDoc (Some [day "Friday" [titled "Leo Release"]; other])
                  None None None in
  let new_data := mkDoc (Some [day "Fri" [titled "LEO RELEASE"; titled "Concert"]])
                        None None None in
  ∃ r, merge_data (mkDate 2024 1 2) (Some ex) new_data = Ok r ∧
       day "Friday" [titled "Leo Release"; titled "Concert"] ∈ buckets r.
Proof.
  intros day other ex new_data.
  destruct (merge_data (mkDate 2024 1 2) (Some ex) new_data) as [r|e] eqn:E;
    [|by vm_compute in E].
  exists r. split; [done|].
  destruct same_day_items_merged as (_ & Hdoc & _).
  destruct (Hdoc (mkDate 2024 1 2) ex new_data r
              [] (day "Friday" [titled "Leo Release"]) [other]
              [] (day "Fri" [titled "LEO RELEASE"; titled "Concert"]) [])
    as [Hin _].
  - exact E.
  - reflexivity.
  - reflexivity.
  - repeat constructor. simpl. congruence.
  - reflexivity.
  - reflexivity.
  - constructor.
  - exact Hin.
Defined.


(** C6 (amended). A bucket of the existing timeline dated before today
    contributes nothing: the merge is the same as if the bucket had
    been removed beforehand. When the merge returns, a bucket of the
    existing timeline dated today or later that no later existing
    bucket follows with the same date is retained: the merged timeline
    holds a bucket with its date and label whose items begin with its
    items. In the example, the bucket of 2024-01-01 is gone and the
    bucket of 2024-01-02 with item B is the whole merged timeline. *)
Theorem past_buckets_dropped :
  (∀ today ex new_data,
     merge_data today (Some ex) new_data
     = merge_data today (Some (drop_past today ex)) new_data) ∧
  (∀ today ex new_data r pre b post,
     merge_data today (Some ex) new_data = Ok r →
     buckets ex = pre ++ b :: post →
     in_window today b = true →
     Forall (λ c, date c ≠ date b) post →
     ∃ b', b' ∈ buckets r ∧ carried b b') ∧
  merge_data (mkDate 2024 1 2)
    (Some (mkDoc (Some [mkDay (Some "2024-01-01") "Monday" (Some [titled "A"])])
                 None None None))
    (mkDoc (Some [mkDay (Some "2024-01-02") "Tuesday" (Some [titled "B"])])
           None None None)
  = Ok (mkDoc (Some [mkDay (Some "2024-01-02") "Tuesday" (Some [titled "B"])])
              (Some ∅) (Some ∅) None).
Proof.
  split; [|split].
  - intros. symmetry. apply merge_data_drop_past.
  - intros today ex new_data r pre b post Hr Hex Hw Hpost.
    assert (Ht : doc_truthy ex = true).
    { apply truthy_with_buckets. rewrite Hex. by destruct pre. }
    destruct (merge_data_ok today ex new_data r Ht Hr) as (He & Hn & ->).
    rewrite Hex in He. apply has_date_middle in He as (_ & Hb & Hp).
    destruct (merge_fold_carries (buckets new_data) (date_key b)
                (fold_left (seed_pure today) (buckets ex) []) b)
      as (b' & Hget & Hc).
    { rewrite Hex. apply seed_fold_last; [done|by apply other_dates]. }
    exists b'. split; [|done]. by eapply in_merged_timeline.
  - vm_compute. reflexivity.
Qed.

Lemma past_buckets_dropped_witness :
  let today := mkDate 2024 1 2 in
  let old := mkDay (Some "2023-12-31") "Sunday" (Some [titled "Gala"]) in
  let kept := mkDay (Some "2024-01-03") "Wednesday" (Some [titled "Fair"]) in
  let ex := mkDoc (Some [old; kept]) None None None in
  let new_data := mkDoc (Some [mkDay (Some "2024-01-03") "Wed"
                                 (Some [titled "Parade"])]) None None None in
  ∃ r, merge_data today (Some ex) new_data = Ok r ∧
       ∃ b', b' ∈ buckets r ∧ carried kept b'.
Proof.
  intros today old kept ex new_data.
  destruct (merge_data today (Some ex) new_data) as [r|e] eqn:E;
    [|by vm_compute in E].
  exists r. split; [done|].
  destruct past_buckets_dropped as (_ & Hkeep & _).
  apply (Hkeep today ex new_data r [old] kept []);
    [exact E|reflexivity|reflexivity|constructor].
Defined.

(** ** Which merges return *)








End TimelineClaims.

(* ===================================================================== *)
(** * Headlines from the feeds to the fallback document                   *)
(* ===================================================================== *)

Module FallbackMore.
Import PyStr UpAhead MergeProps FallbackProps PyStrProps MergeMore.

(** The item [generate_fallback_data] builds for a title and a link. *)
Definition rss_item (hash : string → Z) (e : string * string) : Item :=
  {| title := Some e.1;
     fields := [ ("id", VStr (item_id hash e.1));
                 ("type", VStr (categorize (lower e.1)));
                 ("subtitle", VStr "From RSS");
                 ("description", VStr "Latest update");
                 ("link", VStr e.2);
                 ("tags", VList [categorize (lower e.1)]) ] |}.

(** The entries of a feed that are read before one raises. *)
Fixpoint readable (entries : list (option (string * string)))
    : list (string * string) :=
  match entries with
  | Some e :: r => e :: readable r
  | _ => []
  end.

(** The entries [fetch_rss_feeds] turns into lines, in order. *)
Definition fetched (parse : string → option (list (option (string * string))))
    : list (string * string) :=
  flat_map (λ url, match parse url with
                   | Some entries => readable (take 10 entries)
                   | None => []
                   end) rss_feeds.

(** An entry that a line carries unharmed: no line break in its title
    or link, and no [ (] in its link. *)
Definition plain (e : string * string) : Prop :=
  (ascii_of_nat 10 ∉ chars e.1) ∧ (ascii_of_nat 10 ∉ chars e.2) ∧
  contains " (" e.2 = false.

Lemma rfind_split_none sep s :
  contains sep s = false → rfind_split sep s = None.
Proof.
  induction s as [|c s IH]; [done|].
  rewrite contains_cons. intros [Hp Hc]%orb_false_elim.
  cbn [rfind_split]. by rewrite (IH Hc), Hp.
Qed.

Lemma rfind_split_last t l :
  rfind_split " (" l = None →
  rfind_split " (" (t +:+ " (" +:+ l) = Some (t, l).
Proof.
  intros Hl. induction t as [|c t IH].
  - rewrite append_nil.
    change (" (" +:+ l) with (String " " (String "(" l)).
    cbn [rfind_split]. rewrite Hl.
    replace (String.prefix " (" (String "(" l)) with false
      by (rewrite prefix_cons; by destruct (ascii_dec " " "(")).
    replace (String.prefix " (" (String " " (String "(" l))) with true
      by (by rewrite !prefix_cons_same, prefix_nil).
    reflexivity.
  - rewrite append_cons. cbn [rfind_split]. by rewrite IH.
Qed.

Lemma prefix_paren c l r :
  String.prefix " (" (String c l) = false →
  String.prefix " (" (String c (l +:+ ")")) = r → r = false.
Proof.
  rewrite !prefix_cons. destruct (ascii_dec " " c); [|by intros _ <-].
  destruct l as [|d l].
  - intros _ <-. rewrite append_nil, prefix_cons.
    by destruct (ascii_dec "(" ")").
  - rewrite append_cons, !prefix_cons.
    destruct (ascii_dec "(" d); [|by intros _ <-].
    by rewrite prefix_nil.
Qed.

Lemma contains_close l :
  contains " (" l = false → contains " (" (l +:+ ")") = false.
Proof.
  induction l as [|c l IH]; [by vm_compute|].
  rewrite append_cons, !contains_cons.
  intros [Hp Hc]%orb_false_elim.
  by rewrite (prefix_paren c l _ Hp eq_refl), (IH Hc).
Qed.

Lemma drop_last_close l : drop_last (l +:+ ")") = l.
Proof.
  induction l as [|c l IH]; [done|].
  rewrite append_cons. cbn [drop_last]. rewrite IH.
  by destruct l.
Qed.


(** One line written by [fetch_rss_feeds], read by the loop of
    [generate_fallback_data]. *)
Lemma fallback_line_headline hash acc t l :
  contains " (" l = false →
  fallback_line hash acc (headline_line t l)
  = if is_noise (lower t) then acc else acc ++ [rss_item hash (t, l)].
Proof.
  intros Hl. unfold fallback_line, headline_line.
  rewrite prefix_app. cbn [negb].
  change (drop_chars 2 ("- " +:+ t +:+ " (" +:+ l +:+ ")"))
    with (t +:+ " (" +:+ l +:+ ")").
  unfold rsplit_last.
  rewrite (rfind_split_last t (l +:+ ")"))
    by (by apply rfind_split_none, contains_close).
  cbn [nth]. rewrite drop_last_close. reflexivity.
Qed.

Lemma fallback_lines_headlines hash E acc :
  Forall (λ e, contains " (" e.2 = false) E →
  fold_left (fallback_line hash) (map (λ e, headline_line e.1 e.2) E) acc
  = acc ++ map (rss_item hash)
             (filter (λ e, is_noise (lower e.1) = false) E).
Proof.
  intros HE. revert acc. induction HE as [|[t l] E Hl HE IH]; intros acc.
  - simpl. by rewrite app_nil_r.
  - cbn [map fold_left fst snd]. rewrite fallback_line_headline by done.
    rewrite IH, filter_cons. cbn [fst].
    destruct (is_noise (lower t)) eqn:Hn.
    + by rewrite decide_False by done.
    + rewrite decide_True by done. cbn [map]. by rewrite <- app_assoc.
Qed.

Lemma entry_lines_readable es :
  entry_lines es = map (λ e, headline_line e.1 e.2) (readable es).
Proof.
  induction es as [|[[t l]|] es IH]; [done| |done].
  cbn [entry_lines readable map fst snd]. by rewrite IH.
Qed.

Lemma fetch_rss_feeds_fetched parse :
  fetch_rss_feeds parse
  = join nl (map (λ e, headline_line e.1 e.2) (fetched parse)).
Proof.
  unfold fetch_rss_feeds, fetched. f_equal.
  induction rss_feeds as [|url urls IH]; [done|].
  cbn [flat_map]. rewrite map_app, IH. f_equal.
  destruct (parse url); [apply entry_lines_readable|done].
Qed.

Lemma chars_headline_line t l :
  (ascii_of_nat 10 ∉ chars t) → (ascii_of_nat 10 ∉ chars l) →
  ascii_of_nat 10 ∉ chars (headline_line t l).
Proof.
  intros Ht Hl. unfold headline_line. rewrite !chars_app.
  rewrite !elem_of_app. intros [H|[H|[H|[H|H]]]]; try done;
    vm_compute in H; repeat (apply elem_of_cons in H as [H|H]; [done|]);
    by apply elem_of_nil in H.
Qed.


(** X12. The headlines survive the text format between
    [fetch_rss_feeds] and [generate_fallback_data]: when no fetched
    title or link has a line break and no link contains the two
    characters space and opening parenthesis, the items built from the
    text of [fetch_rss_feeds] are, in feed order, one item per fetched
    entry whose lower-cased title has no noise word, with the entry's
    own title and link. Titles may contain parentheses. *)
Theorem headlines_round_trip hash parse :
  Forall plain (fetched parse) →
  fallback_items hash (fetch_rss_feeds parse)
  = map (rss_item hash)
        (filter (λ e, is_noise (lower e.1) = false) (fetched parse)).
Proof.
  intros HE. rewrite fetch_rss_feeds_fetched. unfold fallback_items.
  destruct (fetched parse) as [|e E] eqn:HF; [done|].
  rewrite split_join_lines.
  - rewrite fallback_lines_headlines; [done|].
    eapply Forall_impl; [exact HE|]. by intros x (_ & _ & Hx).
  - done.
  - apply Forall_forall. intros x Hx.
    apply (list_elem_of_fmap_1 (λ e, headline_line e.1 e.2)) in Hx
      as (y & -> & Hy).
    rewrite Forall_forall in HE. destruct (HE y Hy) as (Ht & Hl & _).
    by apply chars_headline_line.
Qed.

Lemma headlines_round_trip_witness :
  let parse := λ url : string,
    if String.eqb url "https://www.livemint.com/rss/news"
    then Some [ Some ("Pongal festival (Chennai) dates", "https://example.com/p");
                Some ("Star spotted at airport", "https://example.com/s");
                None;
                Some ("Never read", "https://example.com/n") ]
    else None in
  fallback_items (λ _, 7%Z) (fetch_rss_feeds parse)
  = [ rss_item (λ _, 7%Z)
        ("Pongal festival (Chennai) dates", "https://example.com/p") ].
Proof.
  intros parse.
  rewrite (headlines_round_trip (λ _, 7%Z) parse); [by vm_compute|].
  assert (HF : fetched parse
               = [ ("Pongal festival (Chennai) dates", "https://example.com/p");
                   ("Star spotted at airport", "https://example.com/s") ])
    by (by vm_compute).
  rewrite HF.
  assert (Hplain : ∀ e, bool_decide (ascii_of_nat 10 ∉ chars e.1) = true →
                        bool_decide (ascii_of_nat 10 ∉ chars e.2) = true →
                        contains " (" e.2 = false → plain e).
  { intros e H1 H2 H3. split; [|split]; [| |exact H3].
    - exact (bool_decide_eq_true_1 _ H1).
    - exact (bool_decide_eq_true_1 _ H2). }
  apply Forall_cons_2; [apply Hplain; vm_compute; reflexivity|].
  apply Forall_cons_2; [apply Hplain; vm_compute; reflexivity|].
  apply Forall_nil_2.
Defined.


Lemma dedup_fold_untitled l st :
  Forall (λ i, title i = None) l → fold_left dedup_step l st = st.
Proof.
  intros Hl. revert st. induction Hl as [|i l Hi Hl IH]; intros [seen acc]; [done|].
  cbn [fold_left]. rewrite dedup_step_seen; [apply IH|].
  left. unfold dedup_key, get_title. by rewrite Hi.
Qed.

Lemma merge_category_kept e n i :
  i ∈ merge_category e n → i ∈ e ++ n ∧ dedup_key i ≠ "".
Proof.
  unfold merge_category. intros Hi. split.
  - destruct (dedup_fold_grows e (∅, [])) as (m1 & H1 & S1).
    destruct (dedup_fold_grows n (fold_left dedup_step e (∅, [])))
      as (m2 & H2 & S2).
    rewrite H2, H1 in Hi. cbn [snd app] in Hi.
    apply elem_of_app in Hi as [Hi|Hi]; apply elem_of_app; auto.
  - assert (H : dedup_inv (fold_left dedup_step n (fold_left dedup_step e (∅, [])))).
    { apply dedup_inv_fold, dedup_inv_fold. split; [done|]. split; constructor. }
    destruct H as (_ & _ & H). rewrite Forall_forall in H. by apply H.
Qed.

Lemma alert_entries_untitled l : Forall (λ i, title i = None) (map alert_entry l).
Proof. apply Forall_forall. intros x (i & -> & _)%(list_elem_of_fmap_1 alert_entry). done. Qed.

Lemma fallback_alerts hash today_str text :
  default ∅ (sections (generate_fallback_data hash today_str text)) !! "alerts"
  = Some (map alert_entry
            (filter (λ i, of_type "alert" i = true) (fallback_items hash text))).
Proof.
  unfold generate_fallback_data. cbv zeta. cbn [sections default]. unfold id.
  rewrite lookup_insert_ne by done. rewrite lookup_insert_ne by done.
  by rewrite lookup_insert_eq.
Qed.

(** X13. Merging a fallback document into an existing, non-empty
    document never adds an alert: the alert entries of the fallback
    document carry no title, so the merged [alerts] list is the
    existing one with its untitled and repeated entries removed, and
    nothing of the fallback list; the weekly plan of the result is the
    fallback note. With no existing document the fallback document,
    alerts included, is returned as it is. *)
Theorem fallback_alerts_never_merged today ex hash today_str text r :
  doc_truthy ex = true →
  merge_data today (Some ex) (generate_fallback_data hash today_str text) = Ok r →
  default ∅ (sections r) !! "alerts"
    = Some (merge_category (default [] (default ∅ (sections ex) !! "alerts")) []) ∧
  (∀ i, i ∈ default [] (default ∅ (sections r) !! "alerts") →
        i ∈ default [] (default ∅ (sections ex) !! "alerts") ∧
        lower (strip (get_title i)) ≠ "") ∧
  weekly_plan r
    = Some {[ "note" := "AI generation unavailable. Showing latest RSS feeds." ]} ∧
  merge_data today None (generate_fallback_data hash today_str text)
    = Ok (generate_fallback_data hash today_str text).
Proof.
  intros Ht Hr. apply merge_data_ok in Hr as (_ & _ & ->); [|done].
  set (e := default [] (default ∅ (sections ex) !! "alerts")).
  assert (Ha : default ∅ (sections (merged_doc today ex
                 (generate_fallback_data hash today_str text))) !! "alerts"
               = Some (merge_category e [])).
  { unfold merged_doc. cbn [sections default]. unfold id at 1.
    rewrite merge_sections_lookup, decide_True.
    - rewrite fallback_alerts. cbn [default]. unfold id. fold e. f_equal.
      unfold merge_category. cbn [fold_left].
      by rewrite dedup_fold_untitled by apply alert_entries_untitled.
    - apply elem_of_union_r, elem_of_dom. rewrite fallback_alerts. by eexists. }
  split; [exact Ha|]. split; [|done].
  rewrite Ha. cbn [default]. intros i Hi.
  destruct (merge_category_kept e [] i Hi) as [H Hk].
  rewrite app_nil_r in H. done.
Qed.


Lemma fallback_alerts_never_merged_witness :
  let today := mkDate 2024 1 2 in
  let ex := mkDoc (Some []) (Some {[ "alerts" := [titled "Flood watch"] ]})
                  None None in
  ∃ r, merge_data today (Some ex)
         (generate_fallback_data (λ _, 7%Z) "2024-01-02"
            "- Heavy rain alert (https://example.com/r)") = Ok r ∧
       default ∅ (sections r) !! "alerts" = Some [titled "Flood watch"].
Proof.
  intros today ex.
  destruct (merge_data today (Some ex)
              (generate_fallback_data (λ _, 7%Z) "2024-01-02"
                 "- Heavy rain alert (https://example.com/r)"))
    as [r|e] eqn:E; [|by vm_compute in E].
  exists r. split; [done|].
  assert (Ht : doc_truthy ex = true) by (vm_compute; reflexivity).
  destruct (fallback_alerts_never_merged today ex _ _ _ r Ht E) as (-> & _).
  vm_compute. reflexivity.
Defined.

End FallbackMore.

(* ===================================================================== *)
(** * One run of the Up Ahead script                                      *)
(* ===================================================================== *)

Module PipelineProps.
Import PyStr UpAhead MergeProps FallbackProps PyStrProps.

Lemma length_append a b :
  String.length (a +:+ b) = String.length a + String.length b.
Proof. induction a as [|c a IH]; simpl; [done|]. by rewrite IH. Qed.

Lemma drop_chars_app a b : drop_chars (String.length a) (a +:+ b) = b.
Proof. induction a as [|c a IH]; [done|]. by rewrite append_cons. Qed.

Lemma take_chars_app a b : take_chars (String.length a) (a +:+ b) = a.
Proof.
  induction a as [|c a IH]; [by destruct b|].
  rewrite append_cons. cbn [String.length take_chars]. by rewrite IH.
Qed.

Lemma endswith_app a suffix : endswith suffix (a +:+ suffix) = true.
Proof.
  unfold endswith. rewrite length_append.
  replace (String.length a + String.length suffix - String.length suffix)
    with (String.length a) by lia.
  rewrite drop_chars_app. apply String.eqb_refl.
Qed.

Lemma drop_end_app a suffix :
  drop_end (String.length suffix) (a +:+ suffix) = a.
Proof.
  unfold drop_end. rewrite length_append.
  replace (String.length a + String.length suffix - String.length suffix)
    with (String.length a) by lia.
  apply take_chars_app.
Qed.

Lemma strip_fences_both body :
  strip_fences ("```json" +:+ body +:+ "```") = body.
Proof.
  unfold strip_fences, startswith. rewrite prefix_app.
  change (drop_chars 7 ("```json" +:+ body +:+ "```")) with (body +:+ "```").
  rewrite endswith_app. apply (drop_end_app body "```").
Qed.

Lemma strip_fences_closing text :
  startswith "```json" (text +:+ "```") = false →
  strip_fences (text +:+ "```") = text.
Proof.
  intros H. unfold strip_fences. rewrite H, endswith_app.
  apply (drop_end_app text "```").
Qed.

Lemma strip_fences_none text :
  startswith "```json" text = false → endswith "```" text = false →
  strip_fences text = text.
Proof. intros H1 H2. unfold strip_fences. by rewrite H1, H2. Qed.

(** X14. What [generate_up_ahead_data] hands to [json.loads], and
    returns when it parses: for a reply whose stripped text is a
    [```json] fence around a body, the body alone; for a stripped
    reply that ends in [```] without starting with [```json], the text
    without its last three characters, so that an opening [```] stays
    in; for a stripped reply with neither, the stripped reply. Without
    a model, or when the model raises, the result is [None] and
    [json.loads] plays no part. *)
Theorem reply_fences_removed {A : Type} (json_loads : string → option A)
    (m : string → DailyBrief.llm_reply) today_str headlines reply :
  m (up_ahead_prompt today_str headlines) = DailyBrief.Text reply →
  let result := generate_up_ahead_data (Some m) json_loads today_str headlines in
  (∀ body, strip reply = "```json" +:+ body +:+ "```" →
           result = json_loads body) ∧
  (∀ text, strip reply = text +:+ "```" →
           startswith "```json" (strip reply) = false →
           result = json_loads text) ∧
  (startswith "```json" (strip reply) = false →
   endswith "```" (strip reply) = false →
   result = json_loads (strip reply)) ∧
  generate_up_ahead_data None json_loads today_str headlines = None ∧
  (∀ m' msg, m' (up_ahead_prompt today_str headlines) = DailyBrief.Raises msg →
             generate_up_ahead_data (Some m') json_loads today_str headlines = None).
Proof.
  intros Hm result. subst result. unfold generate_up_ahead_data. rewrite Hm.
  split; [|split; [|split; [|split]]].
  - intros body ->. by rewrite strip_fences_both.
  - intros text Ht Hs. rewrite Ht in *. by rewrite strip_fences_closing.
  - intros H1 H2. by rewrite strip_fences_none.
  - done.
  - intros m' msg ->. done.
Qed.

Lemma reply_fences_removed_witness :
  let json_loads := λ s : string, if String.prefix "{" s then Some s else None in
  let fenced := λ _ : string,
    DailyBrief.Text ("  ```json" +:+ nl +:+ "{}" +:+ nl +:+ "```" +:+ nl) in
  let half := λ _ : string,
    DailyBrief.Text ("```" +:+ nl +:+ "{}" +:+ nl +:+ "```") in
  generate_up_ahead_data (Some fenced) json_loads "Monday" "- a (b)"
    = json_loads (nl +:+ "{}" +:+ nl) ∧
  generate_up_ahead_data (Some half) json_loads "Monday" "- a (b)"
    = json_loads ("```" +:+ nl +:+ "{}" +:+ nl).
Proof.
  intros json_loads fenced half. split.
  - destruct (reply_fences_removed json_loads fenced "Monday" "- a (b)"
                ("  ```json" +:+ nl +:+ "{}" +:+ nl +:+ "```" +:+ nl) eq_refl)
      as (H & _).
    apply H. vm_compute. reflexivity.
  - destruct (reply_fences_removed json_loads half "Monday" "- a (b)"
                ("```" +:+ nl +:+ "{}" +:+ nl +:+ "```") eq_refl)
      as (_ & H & _).
    apply H; vm_compute; reflexivity.
Defined.


(** ** Two runs in a row *)

Lemma merge_timeline_one today ts d lbl1 lbl2 l1 l2 :
  strptime ts = Some d → date_leb today d = true →
  merge_timeline today [mkDay (Some ts) lbl1 (Some l1)]
                       [mkDay (Some ts) lbl2 (Some l2)]
  = Ok [mkDay (Some ts) lbl1 (Some (merge_items l1 l2))].
Proof.
  intros Hs Hd. unfold merge_timeline, for_each, seed_day, merge_day, get_date.
  cbn [date mbind res_bind]. rewrite Hs, Hd.
  cbn [dict_set dict_get mbind res_bind]. rewrite String.eqb_refl.
  reflexivity.
Qed.

Lemma merge_items_same_titles l1 l2 :
  map title l2 = map title l1 → merge_items l1 l2 = l1.
Proof.
  intros Ht. rewrite merge_items_spec. unfold fresh_items.
  rewrite filter_none; [by rewrite app_nil_r|].
  apply Forall_forall. intros i Hi Hn. apply Hn.
  assert (Hm : ∀ l, map title_lc l = map (λ o, lower (default "" o)) (map title l)).
  { intros l. by rewrite map_map. }
  rewrite (Hm l1), <- Ht, <- Hm.
  by apply (list_elem_of_fmap_2 title_lc).
Qed.

Lemma fallback_line_titles h1 h2 acc1 acc2 line :
  map title acc1 = map title acc2 →
  map title (fallback_line h1 acc1 line) = map title (fallback_line h2 acc2 line).
Proof.
  intros H. unfold fallback_line.
  destruct (negb (String.prefix "- " line)); [done|]. cbv zeta.
  destruct (is_noise _); [done|].
  rewrite !map_app, H. reflexivity.
Qed.

(** The titles of the fallback items do not depend on the hash. *)
Lemma fallback_items_titles h1 h2 text :
  map title (fallback_items h1 text) = map title (fallback_items h2 text).
Proof.
  unfold fallback_items. generalize (split_char (ascii_of_nat 10) text).
  intros lines.
  assert (H : map title (@nil Item) = map title (@nil Item)) by done.
  revert H. generalize (@nil Item) at 1 3. generalize (@nil Item).
  induction lines as [|l lines IH]; intros acc2 acc1 H; [done|].
  cbn [fold_left]. by apply IH, fallback_line_titles.
Qed.


Lemma map_take {A B} (f : A → B) n l : map f (take n l) = take n (map f l).
Proof.
  revert n. induction l as [|x l IH]; intros [|n]; simpl; [done..|].
  by rewrite IH.
Qed.

(** The model gives no document in this run: it is not configured, it
    raises, or its reply does not parse. *)
Definition ai_silent (r : Run) : Prop :=
  generate_up_ahead_data (model r) (json_loads r) (today_long r)
    (fetch_rss_feeds (parse r)) = None.

Lemma fallback_truthy h ts text :
  doc_truthy (generate_fallback_data h ts text) = true.
Proof. reflexivity. Qed.

Lemma main_fallback r existing_data :
  ai_silent r →
  main r existing_data
  = Some (final_data ← merge_data (today r) existing_data
                          (generate_fallback_data (hash r) (today_str r)
                             (fetch_rss_feeds (parse r)));
          Ok (set_lastUpdated (now_iso r) final_data)).
Proof.
  intros Hr. unfold main, new_data_of. cbv zeta.
  unfold ai_silent in Hr. rewrite Hr. by rewrite fallback_truthy.
Qed.

(** X15. Two runs in a row that both fall back to the feeds, on the
    same headlines and the same day: the second run leaves the
    timeline of the first as it is, the item ids of the first run
    included, although the string hash, and with it the ids the second
    run computes, may differ between the runs. The timeline is one
    bucket for the day with the first twenty items. *)
Theorem fallback_rerun_keeps_timeline (r1 r2 : Run) (d : Date) :
  ai_silent r1 → ai_silent r2 →
  fetch_rss_feeds (parse r2) = fetch_rss_feeds (parse r1) →
  today_str r2 = today_str r1 →
  strptime (today_str r1) = Some d → date_leb (today r2) d = true →
  ∃ D1 D2,
    main r1 None = Some (Ok D1) ∧ main r2 (Some D1) = Some (Ok D2) ∧
    timeline D2 = timeline D1 ∧
    timeline D1
      = Some [ mkDay (Some (today_str r1)) "Latest Updates"
                 (Some (take 20 (fallback_items (hash r1)
                                   (fetch_rss_feeds (parse r1))))) ] ∧
    lastUpdated D2 = Some (now_iso r2).
Proof.
  intros H1 H2 Hf Hts Hs Hd.
  set (F1 := generate_fallback_data (hash r1) (today_str r1)
               (fetch_rss_feeds (parse r1))).
  exists (set_lastUpdated (now_iso r1) F1).
  rewrite (main_fallback r1 None H1), (main_fallback r2 _ H2). fold F1.
  rewrite Hf, Hts.
  assert (Hm : merge_data (today r2) (Some (set_lastUpdated (now_iso r1) F1))
                 (generate_fallback_data (hash r2) (today_str r1)
                    (fetch_rss_feeds (parse r1)))
               = Ok {| timeline := timeline F1;
                       sections :=
                         Some (merge_sections (default ∅ (sections F1))
                                 (default ∅ (sections (generate_fallback_data
                                    (hash r2) (today_str r1)
                                    (fetch_rss_feeds (parse r1))))));
                       weekly_plan := weekly_plan F1;
                       lastUpdated := None |}).
  { unfold merge_data.
    replace (doc_truthy (set_lastUpdated (now_iso r1) F1)) with true
      by reflexivity.
    cbn [negb]. unfold F1, generate_fallback_data. cbv zeta.
    cbn [timeline set_lastUpdated default sections weekly_plan]. unfold id.
    rewrite (merge_timeline_one _ _ d) by done.
    rewrite merge_items_same_titles; [reflexivity|].
    rewrite !map_take. f_equal. apply fallback_items_titles. }
  rewrite Hm. eexists. split; [reflexivity|]. split; [reflexivity|].
  split; [reflexivity|]. split; reflexivity.
Qed.

Lemma fallback_rerun_keeps_timeline_witness :
  let parse := λ url : string,
    if String.eqb url "https://www.livemint.com/rss/news"
    then Some [ Some ("Pongal festival dates", "https://example.com/p") ]
    else None in
  let r1 := mkRun parse None (λ _, None) (λ _, 7%Z) "Tuesday, 02 January 2024"
                  "2024-01-02" (mkDate 2024 1 2) "2024-01-02T06:00:00" in
  let r2 := mkRun parse None (λ _, None) (λ _, (-35)%Z) "Tuesday, 02 January 2024"
                  "2024-01-02" (mkDate 2024 1 2) "2024-01-02T12:00:00" in
  ∃ D1 D2,
    main r1 None = Some (Ok D1) ∧ main r2 (Some D1) = Some (Ok D2) ∧
    timeline D2 = timeline D1 ∧
    timeline D1
      = Some [ mkDay (Some "2024-01-02") "Latest Updates"
                 (Some (take 20 (fallback_items (λ _, 7%Z)
                                   (fetch_rss_feeds parse)))) ] ∧
    lastUpdated D2 = Some "2024-01-02T12:00:00".
Proof.
  intros parse r1 r2.
  apply (fallback_rerun_keeps_timeline r1 r2 (mkDate 2024 1 2));
    vm_compute; reflexivity.
Defined.

End PipelineProps.

(* ===================================================================== *)
(** * The scrapers of the daily brief                                     *)
(* ===================================================================== *)

Module ScraperProps.
Import PyStr DailyBrief PyStrProps.

(** The title and link of an article, as a feed entry gives them. *)
Definition entry_of (a : Article) : string * string := (title a, link a).

(** A section as a scraper builds it: only [page] and [articles]. *)
Definition fresh_section (s : Section) : Prop :=
  s = new_section (page s) (articles s).

(** An article as a scraper builds it: only [title] and [link]. *)
Definition fresh_article (a : Article) : Prop :=
  a = new_article (title a) (link a).

Lemma entry_articles_Some entries arts :
  entry_articles entries = Some arts →
  entries = map (λ a, Some (entry_of a)) arts ∧ Forall fresh_article arts.
Proof.
  revert arts. induction entries as [|[[t l]|] es IH]; intros arts; simpl.
  - intros [= <-]. by split.
  - destruct (entry_articles es) as [r|]; [|done]. intros [= <-].
    destruct (IH r eq_refl) as [-> Hf]. split; [done|]. by constructor.
  - done.
Qed.

Lemma entry_articles_readable es :
  entry_articles (map Some es) = Some (map (λ e, new_article e.1 e.2) es).
Proof.
  induction es as [|[t l] es IH]; [done|]. simpl. by rewrite IH.
Qed.

(** The sections one feed contributes. *)
Definition feed_sections
    (parse : string → option (list (option (string * string))))
    (f : string * string) : list Section :=
  fetch_from_feeds parse [f].

Lemma fetch_from_feeds_cons parse f feeds :
  fetch_from_feeds parse (f :: feeds)
  = feed_sections parse f ++ fetch_from_feeds parse feeds.
Proof.
  unfold feed_sections, fetch_from_feeds. cbn [flat_map]. by rewrite app_nil_r.
Qed.

Lemma feed_sections_cases parse f :
  feed_sections parse f = [] ∨
  ∃ entries arts,
    parse f.2 = Some entries ∧ arts ≠ [] ∧
    take 15 entries = map (λ a, Some (entry_of a)) arts ∧
    Forall fresh_article arts ∧
    feed_sections parse f = [new_section f.1 arts].
Proof.
  unfold feed_sections, fetch_from_feeds. cbn [flat_map]. rewrite app_nil_r.
  destruct (parse f.2) as [entries|]; [|by left].
  unfold MAX_ARTICLES_PER_SECTION.
  destruct (entry_articles (take 15 entries)) as [[|a arts]|] eqn:E;
    [by left| |by left].
  right. exists entries, (a :: arts).
  apply entry_articles_Some in E as [E Hf]. done.
Qed.

(** X16. [fetch_from_feeds] takes a feed whole or not at all. Every
    section it returns is the section of one feed of the list, in feed
    order, and holds between one and fifteen articles: exactly the
    first fifteen entries of that feed, every one of them readable,
    with no other key than title and link. A feed whose first fifteen
    entries are readable and not empty does give its section; a feed
    that cannot be parsed, has no entry, or has one unreadable entry
    among its first fifteen gives none, whatever its other entries. *)
Theorem feeds_taken_whole
    (parse : string → option (list (option (string * string))))
    (feed_list : list (string * string)) :
  let r := fetch_from_feeds parse feed_list in
  map page r `sublist_of` map fst feed_list ∧
  (∀ s, s ∈ r →
     fresh_section s ∧ Forall fresh_article (articles s) ∧
     (1 ≤ length (articles s) ≤ 15)%nat ∧
     ∃ f entries, f ∈ feed_list ∧ page s = f.1 ∧ parse f.2 = Some entries ∧
                  take 15 entries = map (λ a, Some (entry_of a)) (articles s)) ∧
  (∀ f entries es,
     f ∈ feed_list → parse f.2 = Some entries →
     take 15 entries = map Some es → es ≠ [] →
     new_section f.1 (map (λ e, new_article e.1 e.2) es) ∈ r) ∧
  (∀ f, (parse f.2 = None ∨
         ∃ entries, parse f.2 = Some entries ∧
                    (entries = [] ∨ None ∈ take 15 entries)) →
        fetch_from_feeds parse [f] = []).
Proof.
  intros r. subst r. split; [|split; [|split]].
  - induction feed_list as [|f feeds IH]; [done|].
    rewrite fetch_from_feeds_cons.
    destruct (feed_sections_cases parse f) as [->|(es & arts & _ & _ & _ & _ & ->)].
    + cbn [app map]. by apply sublist_cons.
    + cbn [app map new_section page]. by apply sublist_skip.
  - induction feed_list as [|f feeds IH]; intros s Hs.
    { by apply elem_of_nil in Hs. }
    rewrite fetch_from_feeds_cons in Hs. apply elem_of_app in Hs as [Hs|Hs].
    + destruct (feed_sections_cases parse f)
        as [E|(entries & arts & Hp & Hne & Ht & Hf & E)]; rewrite E in Hs.
      { by apply elem_of_nil in Hs. }
      apply list_elem_of_singleton in Hs as ->.
      cbn [new_section page articles].
      split; [done|]. split; [done|]. split.
      * assert (Hl : length (take 15 entries) = length arts)
          by (by rewrite Ht, length_map).
        rewrite length_take in Hl.
        pose proof (Nat.le_min_l 15 (length entries)).
        destruct arts; [done|]. cbn [length] in *. lia.
      * exists f, entries. split; [apply list_elem_of_here|done].
    + destruct (IH s Hs) as (H1 & H2 & H3 & f' & entries & Hin & H4).
      split; [done|]. split; [done|]. split; [done|].
      exists f', entries. split; [by apply list_elem_of_further|done].
  - intros f entries es Hin Hp Ht Hne.
    induction feed_list as [|g feeds IH]; [by apply elem_of_nil in Hin|].
    rewrite fetch_from_feeds_cons. apply elem_of_app.
    apply elem_of_cons in Hin as [<-|Hin]; [left|right; by apply IH].
    unfold feed_sections, fetch_from_feeds. cbn [flat_map].
    rewrite Hp. unfold MAX_ARTICLES_PER_SECTION.
    rewrite Ht, entry_articles_readable.
    destruct es as [|e es]; [done|]. cbn [map app]. apply list_elem_of_here.
  - intros f H. unfold fetch_from_feeds. cbn [flat_map]. rewrite app_nil_r.
    destruct H as [->|(entries & -> & [->|Hn])]; [done|done|].
    unfold MAX_ARTICLES_PER_SECTION.
    destruct (entry_articles (take 15 entries)) as [arts|] eqn:E; [|done].
    apply entry_articles_Some in E as [E _]. rewrite E in Hn.
    apply (list_elem_of_fmap_1 (λ a, Some (entry_of a))) in Hn as (a & Ha & _).
    done.
Qed.


(** ** The loop of [fetch_the_hindu] *)

Definition all_sections (st : Scrape) : list Section :=
  earlier st ++ [current_section st].

Definition links_of (sections : list Section) : list string :=
  flat_map (λ s, map link (articles s)) sections.

(** An article as the loop files it under the page [p]. *)
Definition filed (p : string) (a : Article) : Prop :=
  _detect_hindu_section (link a) = p ∧
  startswith "http" (link a) = true ∧
  (10 ≤ len (title a))%nat ∧
  fresh_article a.

Lemma absolute_link href :
  startswith "http"
    (if startswith "http" href then href
     else "https://www.thehindu.com" +:+ href) = true.
Proof. destruct (startswith "http" href) eqn:E; [exact E|reflexivity]. Qed.

(** One round of the loop either changes nothing or files one new
    article, under the current section or under a section it opens. *)
Lemma scrape_link_cases st a_tag :
  scrape_link st a_tag = st ∨
  ∃ href,
    let art := new_article (clean_text a_tag.1) href in
    let name := _detect_hindu_section href in
    (href ∉ seen_links st) ∧ startswith "http" href = true ∧
    (10 ≤ len (clean_text a_tag.1))%nat ∧
    ((articles (current_section st) ≠ [] ∧ name ≠ page (current_section st) ∧
      scrape_link st a_tag
      = {| seen_links := {[ href ]} ∪ seen_links st;
           earlier := earlier st ++ [current_section st];
           current_section := new_section name [art] |}) ∨
     ((articles (current_section st) = [] ∨ name = page (current_section st)) ∧
      scrape_link st a_tag
      = {| seen_links := {[ href ]} ∪ seen_links st;
           earlier := earlier st;
           current_section :=
             set_articles (articles (current_section st) ++ [art])
               (set_page name (current_section st)) |})).
Proof.
  unfold scrape_link. cbv zeta.
  destruct (is_empty (clean_text a_tag.1)); [by left|].
  destruct (Nat.ltb_spec (len (clean_text a_tag.1)) 10) as [|Hlen]; [by left|].
  destruct (is_empty (default "" a_tag.2)); [by left|]. cbn [orb].
  pose proof (absolute_link (default "" a_tag.2)) as Hh.
  set (href := if startswith "http" (default "" a_tag.2)
               then default "" a_tag.2
               else "https://www.thehindu.com" +:+ default "" a_tag.2) in *.
  destruct (decide (href ∈ seen_links st)) as [|Hseen]; [by left|].
  right. exists href. cbv zeta.
  split; [done|]. split; [done|]. split; [done|].
  destruct (String.eqb_spec (_detect_hindu_section href)
              (page (current_section st))) as [Heq|Hne]; cbn [negb andb].
  - right. split; [by right|]. f_equal. rewrite Heq.
    by destruct (current_section st).
  - case_bool_decide as Hemp; cbn [negb].
    + right. split; [by left|]. reflexivity.
    + left. split; [done|]. split; [done|]. reflexivity.
Qed.


(** What the loop keeps true of [sections] and [seen_links]. *)
Record scraped_ok (st : Scrape) : Prop := mkScrapedOk {
  ok_filed : Forall (λ s, Forall (filed (page s)) (articles s)) (all_sections st);
  ok_seen : ∀ l, l ∈ links_of (all_sections st) → l ∈ seen_links st;
  ok_distinct : NoDup (links_of (all_sections st));
  ok_earlier : Forall (λ s, articles s ≠ []) (earlier st);
  ok_fresh : Forall fresh_section (all_sections st)
}.

Lemma links_of_app a b : links_of (a ++ b) = links_of a ++ links_of b.
Proof. unfold links_of. induction a as [|x a IH]; [done|]. simpl. by rewrite IH, app_assoc. Qed.

Lemma links_of_one s : links_of [s] = map link (articles s).
Proof. unfold links_of. simpl. by rewrite app_nil_r. Qed.

Lemma scraped_ok_start :
  scraped_ok {| seen_links := ∅; earlier := [];
                current_section := new_section "Front Page" [] |}.
Proof.
  split; unfold all_sections; cbn [earlier current_section app].
  - by repeat constructor.
  - intros l Hl. by apply elem_of_nil in Hl.
  - constructor.
  - constructor.
  - by repeat constructor.
Qed.

Lemma scraped_ok_step st a_tag :
  scraped_ok st → scraped_ok (scrape_link st a_tag).
Proof.
  intros [Hf Hs Hd He Hfr].
  destruct (scrape_link_cases st a_tag) as [->|(href & Hnew & Hhttp & Hlen & H)];
    [by split|].
  cbv zeta in H.
  assert (Hfiled : filed (_detect_hindu_section href)
                     (new_article (clean_text a_tag.1) href)).
  { by repeat split. }
  unfold all_sections in *.
  apply Forall_app in Hf as [Hf1 Hf2]. apply Forall_app in Hfr as [Hfr1 Hfr2].
  apply Forall_inv in Hf2, Hfr2.
  rewrite links_of_app, links_of_one in Hs, Hd.
  destruct H as [(Hne & Hname & ->)|(Hor & ->)];
    split; unfold all_sections; cbn [earlier current_section seen_links].
  - apply Forall_app. split; [apply Forall_app; by repeat constructor|].
    by repeat constructor.
  - intros l. rewrite !links_of_app, !links_of_one.
    cbn [new_section articles map link new_article].
    rewrite elem_of_app, elem_of_union, elem_of_singleton.
    intros [Hl|Hl%list_elem_of_singleton]; [right; by apply Hs|by left].
  - rewrite !links_of_app, !links_of_one.
    cbn [new_section articles map link new_article].
    apply NoDup_app. split; [done|]. split; [|apply NoDup_singleton].
    intros l Hl ->%list_elem_of_singleton. by apply Hnew, Hs.
  - apply Forall_app. split; [done|]. by repeat constructor.
  - apply Forall_app. split; [apply Forall_app; by repeat constructor|].
    by repeat constructor.
  - apply Forall_app. split; [done|]. repeat constructor.
    cbn [set_articles set_page page articles].
    apply Forall_app. split; [|by repeat constructor].
    destruct Hor as [Hemp|Hsame]; [rewrite Hemp; constructor|].
    by rewrite Hsame.
  - intros l. rewrite !links_of_app, !links_of_one.
    cbn [set_articles set_page articles]. rewrite map_app.
    cbn [map link new_article].
    rewrite !elem_of_app, elem_of_union, elem_of_singleton.
    intros [Hl|[Hl|Hl%list_elem_of_singleton]];
      [right; apply Hs, elem_of_app; by left
      |right; apply Hs, elem_of_app; by right|by left].
  - rewrite !links_of_app, !links_of_one.
    cbn [set_articles set_page articles]. rewrite map_app, app_assoc.
    cbn [map link new_article].
    apply NoDup_app. split; [done|]. split; [|apply NoDup_singleton].
    intros l Hl ->%list_elem_of_singleton. by apply Hnew, Hs.
  - done.
  - apply Forall_app. split; [done|]. apply Forall_cons_2; [|constructor].
    unfold fresh_section in *. rewrite Hfr2. reflexivity.
Qed.

Lemma scraped_ok_fold tags st :
  scraped_ok st → scraped_ok (fold_left scrape_link tags st).
Proof.
  revert st. induction tags as [|t tags IH]; intros st Hst; [done|].
  simpl. by apply IH, scraped_ok_step.
Qed.


(** ** The closing loop *)

Lemma set_articles_same s : set_articles (articles s) s = s.
Proof. by destruct s. Qed.

Lemma limit_sections_app a b :
  limit_sections (a ++ b) = limit_sections a ++ limit_sections b.
Proof. unfold limit_sections. apply flat_map_app. Qed.

Lemma limit_sections_elem s' l :
  s' ∈ limit_sections l →
  ∃ s, s ∈ l ∧ articles s ≠ [] ∧ s' = set_articles (take 15 (articles s)) s.
Proof.
  unfold limit_sections. induction l as [|x l IH]; simpl.
  { intros H. by apply elem_of_nil in H. }
  intros [H|H]%elem_of_app.
  - exists x. destruct (articles x) as [|a arts] eqn:E.
    { by apply elem_of_nil in H. }
    apply list_elem_of_singleton in H as ->.
    split; [apply list_elem_of_here|]. done.
  - destruct (IH H) as (s & Hs & Hne & ->). exists s.
    split; [by apply list_elem_of_further|done].
Qed.

Lemma limit_sections_id l :
  Forall (λ s, (1 ≤ length (articles s) ≤ 15)%nat) l → limit_sections l = l.
Proof.
  induction 1 as [|s l [H1 H15] _ IH]; [done|].
  change (s :: l) with ([s] ++ l) at 1. rewrite limit_sections_app, IH.
  change (s :: l) with ([s] ++ l). f_equal.
  unfold limit_sections. cbn [flat_map]. rewrite app_nil_r.
  destruct (articles s) as [|a arts] eqn:E.
  { simpl in H1. lia. }
  unfold MAX_ARTICLES_PER_SECTION. rewrite take_ge by done.
  by rewrite <- E, set_articles_same.
Qed.

Lemma links_of_limit l : links_of (limit_sections l) `sublist_of` links_of l.
Proof.
  induction l as [|s l IH]; [done|].
  change (s :: l) with ([s] ++ l).
  rewrite limit_sections_app, !links_of_app.
  apply sublist_app; [|exact IH]. rewrite links_of_one.
  unfold limit_sections. cbn [flat_map]. rewrite app_nil_r.
  destruct (articles s) as [|a arts]; [apply sublist_nil_l|].
  rewrite links_of_one. cbn [set_articles articles].
  unfold MAX_ARTICLES_PER_SECTION.
  apply (fmap_sublist link), sublist_take.
Qed.

Lemma fetch_from_feeds_sizes parse feeds :
  Forall (λ s, (1 ≤ length (articles s) ≤ 15)%nat) (fetch_from_feeds parse feeds).
Proof.
  induction feeds as [|f feeds IH]; [constructor|].
  rewrite fetch_from_feeds_cons. apply Forall_app. split; [|done].
  destruct (feed_sections_cases parse f)
    as [->|(entries & arts & _ & Hne & Ht & _ & ->)]; [constructor|].
  apply Forall_cons_2; [|constructor]. cbn [new_section articles]. split.
  - destruct arts; [done|]. simpl. lia.
  - assert (Hl : length (take 15 entries) = length arts)
      by (by rewrite Ht, length_map).
    rewrite length_take in Hl.
    pose proof (Nat.le_min_l 15 (length entries)). lia.
Qed.

(** X17. What [fetch_the_hindu] returns when the page was read: the
    sections scraped from the links, followed by the sections of the
    RSS feeds when fewer than five links were kept. In the scraped
    sections no link occurs twice, in one section or in two; every
    article sits in the section that [_detect_hindu_section] gives for
    its link, has an absolute link, a title of at least ten characters
    and no other key. Whatever the page and the feeds give, page read
    or not, no returned section is empty or has more than fifteen
    articles. *)
Theorem hindu_sections_sound
    (parse : string → option (list (option (string * string))))
    (tags : list (string * option string)) :
  let scraped := limit_sections (scrape_links tags) in
  fetch_the_hindu parse (Some tags)
    = scraped ++
      (if (list_sum (map (λ s, length (articles s)) (scrape_links tags)) <? 5)%nat
       then _fetch_hindu_rss parse else []) ∧
  NoDup (links_of scraped) ∧
  (∀ s, s ∈ scraped →
        fresh_section s ∧ Forall (filed (page s)) (articles s)) ∧
  (∀ all_links s, s ∈ fetch_the_hindu parse all_links →
                  (1 ≤ length (articles s) ≤ 15)%nat).
Proof.
  intros scraped.
  pose proof (scraped_ok_fold tags _ scraped_ok_start) as [Hf Hs Hd He Hfr].
  fold (scrape_links tags) in Hf, Hd, Hfr.
  assert (Hsizes : ∀ l s, s ∈ limit_sections l →
                          (1 ≤ length (articles s) ≤ 15)%nat).
  { intros l s (s0 & _ & Hne & ->)%limit_sections_elem.
    cbn [set_articles articles]. rewrite length_take.
    destruct (articles s0); [done|]. cbn [length]. lia. }
  assert (Heq : fetch_the_hindu parse (Some tags)
    = scraped ++
      (if (list_sum (map (λ s, length (articles s)) (scrape_links tags)) <? 5)%nat
       then _fetch_hindu_rss parse else [])).
  { unfold fetch_the_hindu. cbv zeta.
    destruct (_ <? 5)%nat; [|by rewrite app_nil_r].
    rewrite limit_sections_app. f_equal.
    apply limit_sections_id, fetch_from_feeds_sizes. }
  split; [exact Heq|]. split; [|split].
  - eapply sublist_NoDup; [exact Hd|apply links_of_limit].
  - intros s (s0 & Hin & Hne & ->)%limit_sections_elem.
    rewrite Forall_forall in Hf, Hfr. split.
    + pose proof (Hfr s0 Hin) as Hs0. unfold fresh_section in *.
      destruct s0 as [p a e su m ta]. unfold new_section in *.
      cbn [set_articles page articles sec_error sec_summary summary_method
           sec_summary_ta] in *.
      by injection Hs0 as -> -> -> ->.
    + cbn [set_articles page articles].
      eapply Forall_forall. intros a Ha.
      eapply Forall_forall; [apply (Hf s0 Hin)|]. by eapply subseteq_take.
  - intros [tags'|] s Hs'.
    + unfold fetch_the_hindu in Hs'. cbv zeta in Hs'. by eapply Hsizes.
    + exact (proj1 (Forall_forall _ _) (fetch_from_feeds_sizes parse _) s Hs').
Qed.


(** ** [clean_text] *)

Lemma chars_replace_on old new k s :
  chars (replace_on old new k s) ⊆ chars new ++ chars s.
Proof.
  revert k. induction s as [|c s IH]; intros k; cbn [replace_on].
  { intros x Hx. by apply elem_of_nil in Hx. }
  destruct k as [|k].
  - destruct (String.prefix old (String c s)).
    + rewrite chars_app. intros x [Hx|Hx]%elem_of_app.
      * apply elem_of_app. by left.
      * apply IH, elem_of_app in Hx as [Hx|Hx]; apply elem_of_app; [by left|].
        right. by apply list_elem_of_further.
    + cbn [chars]. intros x [->|Hx]%elem_of_cons.
      * apply elem_of_app. right. apply list_elem_of_here.
      * apply IH, elem_of_app in Hx as [Hx|Hx]; apply elem_of_app; [by left|].
        right. by apply list_elem_of_further.
  - intros x Hx. apply IH, elem_of_app in Hx as [Hx|Hx]; apply elem_of_app;
      [by left|]. right. by apply list_elem_of_further.
Qed.

(** Replacing a character leaves none of it. *)
Lemma replace_char_gone c new s :
  c ∉ chars new → c ∉ chars (replace (String c "") new s).
Proof.
  intros Hnew. unfold replace. induction s as [|x s IH]; cbn [replace_on].
  { apply not_elem_of_nil. }
  rewrite prefix_cons. destruct (ascii_dec c x) as [<-|Hne].
  - rewrite prefix_nil. cbn [String.length Nat.sub]. rewrite chars_app.
    intros [H|H]%elem_of_app; [by apply Hnew|by apply IH].
  - cbn [chars]. intros [H|H]%elem_of_cons; [done|by apply IH].
Qed.

(** Without an occurrence of [old], [replace] changes nothing. *)
Lemma replace_absent old new s :
  contains old s = false → replace old new s = s.
Proof.
  unfold replace. induction s as [|c s IH]; [done|].
  rewrite contains_cons. intros [Hp Hc]%orb_false_elim.
  cbn [replace_on]. by rewrite Hp, IH.
Qed.

(** X18. The text [clean_text] returns has no line break, and no
    character that is neither a character of its argument nor a
    space. A text whose stripped form has no line break and no two
    spaces in a row is only stripped; an empty or blank text gives the
    empty text. A run of three spaces is left as two: the result may
    still hold two spaces in a row. *)
Theorem clean_text_chars (text : string) :
  (ascii_of_nat 10 ∉ chars (clean_text text)) ∧
  chars (clean_text text) ⊆ " "%char :: chars text ∧
  (contains nl (strip text) = false → contains "  " (strip text) = false →
   clean_text text = strip text) ∧
  (strip text = "" → clean_text text = "") ∧
  clean_text "a   b" = "a  b".
Proof.
  assert (Hsp : chars " " = [" "%char]) by reflexivity.
  split; [|split; [|split; [|split]]].
  - unfold clean_text. destruct (is_empty text); [apply not_elem_of_nil|].
    intros H. apply chars_replace_on in H. rewrite Hsp in H.
    apply elem_of_app in H as [H|H].
    + by apply list_elem_of_singleton in H.
    + revert H. apply (replace_char_gone (ascii_of_nat 10) " ").
      rewrite Hsp. by intros ?%list_elem_of_singleton.
  - unfold clean_text. destruct (is_empty text).
    { intros x Hx. by apply elem_of_nil in Hx. }
    intros x Hx. apply chars_replace_on in Hx. rewrite Hsp in Hx.
    apply elem_of_app in Hx as [Hx|Hx].
    { apply list_elem_of_singleton in Hx as ->. apply list_elem_of_here. }
    apply chars_replace_on in Hx. rewrite Hsp in Hx.
    apply elem_of_app in Hx as [Hx|Hx].
    { apply list_elem_of_singleton in Hx as ->. apply list_elem_of_here. }
    apply list_elem_of_further. by apply chars_strip.
  - intros H1 H2. unfold clean_text. destruct text as [|c t]; [done|].
    cbn [is_empty]. rewrite (replace_absent nl) by done.
    by rewrite replace_absent.
  - intros H. unfold clean_text. rewrite H. by destruct (is_empty text).
  - reflexivity.
Qed.

Lemma clean_text_chars_witness :
  clean_text "  Budget 2024: what changes  " = "Budget 2024: what changes".
Proof.
  destruct (clean_text_chars "  Budget 2024: what changes  ")
    as (_ & _ & H & _).
  rewrite H; reflexivity.
Defined.


(** ** What every scraper returns *)

(** A section as [main] receives it: page and articles only, the
    articles with title and link only, between one and fifteen. *)
Definition scraped_section (s : Section) : Prop :=
  fresh_section s ∧ Forall fresh_article (articles s) ∧
  (1 ≤ length (articles s) ≤ 15)%nat.

Lemma fetch_from_feeds_scraped parse feeds :
  Forall scraped_section (fetch_from_feeds parse feeds).
Proof.
  pose proof (fetch_from_feeds_sizes parse feeds) as Hsz.
  induction feeds as [|f feeds IH]; [constructor|].
  rewrite fetch_from_feeds_cons in *. apply Forall_app in Hsz as [Hs1 Hs2].
  apply Forall_app. split; [|by apply IH].
  destruct (feed_sections_cases parse f)
    as [->|(entries & arts & _ & _ & _ & Hf & E)]; [constructor|].
  rewrite E in *. apply Forall_inv in Hs1.
  apply Forall_cons_2; [|constructor]. by split.
Qed.

Lemma limit_sections_scraped l :
  Forall (λ s, fresh_section s ∧ Forall fresh_article (articles s)) l →
  Forall scraped_section (limit_sections l).
Proof.
  intros Hl. apply Forall_forall.
  intros s (s0 & Hin & Hne & ->)%limit_sections_elem.
  rewrite Forall_forall in Hl. destruct (Hl s0 Hin) as [Hs0 Ha].
  split; [|split]; cbn [set_articles articles].
  - unfold fresh_section in *.
    destruct s0 as [p a e su m ta]. unfold new_section in *.
    cbn [set_articles page articles sec_error sec_summary summary_method
         sec_summary_ta] in *.
    by injection Hs0 as -> -> -> ->.
  - apply Forall_forall. intros a Hin'.
    rewrite Forall_forall in Ha. by eapply Ha, subseteq_take.
  - rewrite length_take. destruct (articles s0); [done|]. cbn [length]. lia.
Qed.

Lemma fetch_the_hindu_scraped parse all_links :
  Forall scraped_section (fetch_the_hindu parse all_links).
Proof.
  destruct all_links as [tags|]; [|apply fetch_from_feeds_scraped].
  unfold fetch_the_hindu. cbv zeta. apply limit_sections_scraped.
  pose proof (scraped_ok_fold tags _ scraped_ok_start) as [Hf _ _ _ Hfr].
  fold (scrape_links tags) in Hf, Hfr.
  assert (H : Forall (λ s, fresh_section s ∧ Forall fresh_article (articles s))
                     (scrape_links tags)).
  { apply Forall_forall. intros s Hs. rewrite Forall_forall in Hf, Hfr.
    split; [by apply Hfr|].
    eapply Forall_impl; [apply (Hf s Hs)|]. by intros a (_ & _ & _ & Ha). }
  destruct (_ <? 5)%nat; [|done].
  apply Forall_app. split; [done|].
  eapply Forall_impl; [apply fetch_from_feeds_scraped|].
  by intros s (? & ? & _).
Qed.

End ScraperProps.

(* ===================================================================== *)
(** * One run of the daily brief                                          *)
(* ===================================================================== *)

Module BriefProps.
Import PyStr DailyBrief SummarizerProps TranslatorProps SummarizerShape
  ScraperProps.

Lemma fetch_bodies_same tr arts :
  map title (fetch_bodies tr arts) = map title arts ∧
  map link (fetch_bodies tr arts) = map link arts ∧
  map title_en (fetch_bodies tr arts) = map title_en arts ∧
  length (fetch_bodies tr arts) = length arts.
Proof.
  unfold fetch_bodies.
  set (f := λ article : Article,
              let body := fetch_article_body tr (link article) in
              if truthy body then set_body (take_chars 3000 body) article
              else article).
  assert (Hf : ∀ a, title (f a) = title a ∧ link (f a) = link a ∧
                    title_en (f a) = title_en a).
  { intros a. unfold f. cbv zeta. by destruct (truthy _). }
  generalize (take_drop BODY_FETCH_LIMIT arts).
  generalize (take BODY_FETCH_LIMIT arts) (drop BODY_FETCH_LIMIT arts).
  intros hd tl <-.
  rewrite !map_app, !map_map, !length_app, length_map.
  split; [|split; [|split; [|done]]]; f_equal; apply map_ext; intros a;
    by destruct (Hf a) as (? & ? & ?).
Qed.

Lemma translate_batch_same env arts :
  map title (translate_titles_batch env arts) = map title arts ∧
  map link (translate_titles_batch env arts) = map link arts ∧
  length (translate_titles_batch env arts) = length arts.
Proof.
  unfold translate_titles_batch.
  destruct (model env) as [llm|]; [|done].
  destruct arts as [|a arts]; [done|].
  destruct (llm _) as [msg|t]; [done|]. apply translate_lines_titles.
Qed.

Lemma pop_body_same arts :
  map title (map pop_body arts) = map title arts ∧
  map link (map pop_body arts) = map link arts ∧
  map title_en (map pop_body arts) = map title_en arts ∧
  Forall (λ a, body a = None) (map pop_body arts).
Proof.
  rewrite !map_map. split; [|split; [|split]]; try done.
  apply Forall_forall. intros a (b & -> & _)%(list_elem_of_fmap_1 pop_body).
  done.
Qed.

Lemma result_truthy_outcome r : one_outcome r → result_truthy r = true.
Proof.
  unfold one_outcome, has_summary, has_error, result_truthy.
  intros [[[s ->] _]|[_ [e ->]]]; [done|].
  by rewrite (bool_decide_true (is_Some (Some e))), !orb_true_r by by eexists.
Qed.

(** The section keys after step 2, for a section that has only page
    and articles. *)
Lemma record_result_outcome r s :
  one_outcome r → sec_error s = None → sec_summary s = None →
  let out := record_result r s in
  page out = page s ∧ articles out = articles s ∧
  ((sec_error out = error r ∧ is_Some (error r) ∧ sec_summary out = None ∧
    summary_method out = summary_method s ∧
    sec_summary_ta out = sec_summary_ta s)
   ∨ (sec_error out = None ∧ error r = None ∧ is_Some (summary r) ∧
      sec_summary out = Some (summary r))).
Proof.
  intros Ho He Hs out. subst out. unfold record_result.
  rewrite (result_truthy_outcome r Ho). cbn [negb].
  destruct Ho as [[Hsum Herr]|[Hsum [e Herr]]].
  - rewrite Herr. cbn [page articles sec_error sec_summary].
    split; [done|]. split; [done|]. right. done.
  - rewrite Herr. cbn [page articles sec_error sec_summary summary_method
                       sec_summary_ta].
    split; [done|]. split; [done|]. left. split; [done|].
    split; [by eexists|done].
Qed.


Lemma section_result_keys env src sec arts :
  let r := summarize_section env src sec arts in
  (∀ m, method r = Some m → m = "extractive" ∨ m = "headlines") ∧
  (is_Some (summary_ta r) → tamil src ∧ is_Some (model env)).
Proof.
  intros r. subst r. destruct arts as [|a arts'].
  { simpl. split; [done|by intros [? ?]]. }
  destruct (summarize_section_cases env src sec (a :: arts'))
    as [(llm & r & Hm & Hg & Hs & Heq)|Heq]; [done| |]; rewrite Heq.
  - apply gemini_shape in Hg as [Hmeth Hta]. split.
    + intros m Hm'. congruence.
    + intros H. destruct (Hta H). rewrite Hm. split; [done|by eexists].
  - unfold lower_tiers.
    destruct (extractive_tier env (a :: arts')) as [r|] eqn:E.
    + apply extractive_tier_shape in E as (Hta & Hmeth & _).
      split.
      * intros m Hm'. rewrite Hmeth in Hm'. injection Hm' as <-. by left.
      * rewrite Hta. by intros [? ?].
    + destruct (headlines_tier_shape (a :: arts')) as [Hta [Hn|[Hh Hs]]].
      * split; [intros m Hm'; congruence|]. rewrite Hta. by intros [? ?].
      * split; [|rewrite Hta; by intros [? ?]].
        intros m Hm'. rewrite Hh in Hm'. injection Hm' as <-. by right.
Qed.

(** What the loop body of [main] makes of a section a scraper
    returned. *)
Definition processed (env : Env) (key : string) (s out : Section) : Prop :=
  page out = page s ∧
  map entry_of (articles out) = map entry_of (articles s) ∧
  Forall (λ a, body a = None) (articles out) ∧
  ((is_Some (sec_error out) ∧ sec_summary out = None ∧
    summary_method out = None ∧ sec_summary_ta out = None)
   ∨ (sec_error out = None ∧ ∃ t, sec_summary out = Some (Some t))) ∧
  (∀ m, summary_method out = Some m → m = "extractive" ∨ m = "headlines") ∧
  ((is_Some (sec_summary_ta out) ∨
    ∃ a, a ∈ articles out ∧ is_Some (title_en a)) →
   is_tamil_source key = true ∧ is_Some (model env)).

Lemma entry_of_map (l1 l2 : list Article) :
  map title l1 = map title l2 → map link l1 = map link l2 →
  map entry_of l1 = map entry_of l2.
Proof.
  revert l2. induction l1 as [|a l1 IH]; intros [|b l2]; simpl; try done.
  intros [= Ht Hts] [= Hl Hls]. unfold entry_of at 1 3.
  rewrite Ht, Hl. f_equal. by apply IH.
Qed.

Lemma process_section_processed env tr key s :
  scraped_section s → processed env key s (process_section env tr key s).
Proof.
  intros (Hfresh & Harts & _). unfold process_section. cbv zeta.
  set (arts := fetch_bodies tr (articles s)).
  set (r := summarize_section env key (page s) arts).
  set (arts' := if is_tamil_source key && bool_decide (is_Some (model env))
                then translate_titles_batch env arts else arts).
  destruct (fetch_bodies_same tr (articles s)) as (Ht1 & Hl1 & He1 & _).
  fold arts in Ht1, Hl1, He1.
  assert (Ht2 : map title arts' = map title arts ∧
                map link arts' = map link arts).
  { unfold arts'. destruct (_ && _); [|done].
    by destruct (translate_batch_same env arts) as (? & ? & _). }
  destruct (pop_body_same arts') as (Ht3 & Hl3 & He3 & Hb3).
  assert (Hs0 : sec_error (set_articles arts s) = None ∧
                sec_summary (set_articles arts s) = None ∧
                summary_method (set_articles arts s) = None ∧
                sec_summary_ta (set_articles arts s) = None).
  { unfold fresh_section in Hfresh. rewrite Hfresh. done. }
  destruct Hs0 as (Hse & Hss & Hsm & Hst).
  pose proof (record_result_outcome r (set_articles arts s)
                (summarize_section_one_outcome env key (page s) arts) Hse Hss)
    as (Hp & _ & Hout).
  cbv zeta in Hp, Hout.
  destruct (section_result_keys env key (page s) arts) as [Hmeth Hta].
  fold r in Hmeth, Hta.
  unfold processed.
  cbn [set_articles page articles sec_error sec_summary summary_method
       sec_summary_ta] in *.
  split; [done|]. split.
  { apply entry_of_map; [rewrite Ht3|rewrite Hl3]; destruct Ht2; congruence. }
  split; [done|]. split; [|split].
  - destruct Hout as [(-> & He & -> & -> & ->)|(-> & _ & [t Ht] & ->)].
    + left. done.
    + right. split; [done|]. exists t. by rewrite Ht.
  - intros m Hm. apply Hmeth.
    destruct Hout as [(_ & _ & _ & Hm' & _)|(_ & Herr & _ & _)].
    + congruence.
    + unfold record_result in Hm.
      rewrite (result_truthy_outcome r
                 (summarize_section_one_outcome env key (page s) arts)) in Hm.
      rewrite Herr in Hm. cbn [negb summary_method set_articles] in Hm.
      rewrite Hsm in Hm.
      destruct (method r) as [m'|]; [|congruence].
      destruct (truthy m'); congruence.
  - intros [Hta'|(a & Ha & Hen)].
    + assert (Hr : is_Some (summary_ta r)).
      { destruct Hout as [(_ & _ & _ & _ & H)|(_ & Herr & _ & _)].
        - rewrite H, Hst in Hta'. by destruct Hta'.
        - unfold record_result in Hta'.
          rewrite (result_truthy_outcome r
                     (summarize_section_one_outcome env key (page s) arts))
            in Hta'.
          rewrite Herr in Hta'. cbn [negb sec_summary_ta set_articles] in Hta'.
          destruct (summary_ta r); [by eexists|].
          rewrite Hst in Hta'. by destruct Hta'. }
      destruct (Hta Hr) as [Htam Hmod].
      split; [by apply is_tamil_source_true|done].
    + destruct (is_tamil_source key && bool_decide (is_Some (model env)))
        eqn:Hc.
      { apply andb_true_iff in Hc as [? Hm%bool_decide_eq_true]. done. }
      exfalso. subst arts'.
      assert (Hin : title_en a ∈ map title_en (articles s)).
      { rewrite <- He1, <- He3. by apply (list_elem_of_fmap_2 title_en). }
      apply (list_elem_of_fmap_1 title_en) in Hin as (a0 & Ha0 & Hin0).
      rewrite Forall_forall in Harts. specialize (Harts a0 Hin0).
      unfold fresh_article in Harts. rewrite Harts in Ha0.
      cbn [new_article title_en] in Ha0. rewrite Ha0 in Hen.
      by destruct Hen.
Qed.


(** X19. The document [main] writes holds the four sources in their
    order, and every section of it is a section a scraper returned,
    between one and fifteen articles under page and articles only,
    after the loop body: the page and the titles and links of the
    articles are unchanged and in order, no article has a body left,
    the section has either an error and none of the summary keys or a
    summary that is not null and no error, a summary method is
    "extractive" or "headlines", and a Tamil summary or a translated
    title appears only for a Tamil source with a configured model. *)
Theorem brief_sections_processed (env : Env) (web : Web) :
  let data := main env web in
  lastUpdated data = now web ∧
  map fst (sources data)
    = ["THE_HINDU"; "INDIAN_EXPRESS"; "DINAMANI"; "DAILY_THANTHI"] ∧
  ∀ key secs out,
    (key, secs) ∈ sources data → out ∈ secs →
    ∃ s, scraped_section s ∧
         out = process_section env (trafilatura web) key s ∧
         processed env key s out.
Proof.
  intros data. subst data. unfold main. cbv zeta.
  cbn [lastUpdated sources map fst].
  split; [done|]. split; [done|].
  intros key secs out Hk Hout.
  assert (H : ∃ l, Forall scraped_section l ∧
                   secs = map (process_section env (trafilatura web) key) l).
  { repeat (apply elem_of_cons in Hk as [[= -> ->]|Hk];
              [eexists; split; [|reflexivity];
               (apply fetch_the_hindu_scraped || apply fetch_from_feeds_scraped)|]).
    by apply elem_of_nil in Hk. }
  destruct H as (l & Hl & ->).
  apply (list_elem_of_fmap_1 (process_section env (trafilatura web) key)) in Hout
    as (s & -> & Hs).
  rewrite Forall_forall in Hl. exists s.
  split; [by apply Hl|]. split; [done|].
  by apply process_section_processed, Hl.
Qed.


(** ** The body fetch *)

Lemma take_chars_length n s : (len (take_chars n s) ≤ n)%nat.
Proof.
  unfold len. revert s. induction n as [|n IH]; intros [|c s]; simpl; try lia.
  specialize (IH s). lia.
Qed.

Lemma take_chars_truthy n s :
  truthy s = true → truthy (take_chars (S n) s) = true.
Proof. by destruct s. Qed.

Lemma drop_fetch_bodies tr arts :
  drop BODY_FETCH_LIMIT (fetch_bodies tr arts) = drop BODY_FETCH_LIMIT arts.
Proof.
  unfold fetch_bodies, BODY_FETCH_LIMIT.
  destruct (decide (5 ≤ length arts)%nat) as [Hge|Hlt].
  - rewrite drop_app_length'; [done|].
    rewrite length_map, length_take. lia.
  - rewrite (drop_ge arts) by lia. rewrite app_nil_r.
    apply drop_ge. rewrite length_map, length_take. lia.
Qed.

Lemma fetch_bodies_elem tr arts a :
  a ∈ fetch_bodies tr arts →
  a ∈ arts ∨
  ∃ a0, a0 ∈ arts ∧ truthy (fetch_article_body tr (link a0)) = true ∧
        a = set_body (take_chars 3000 (fetch_article_body tr (link a0))) a0.
Proof.
  unfold fetch_bodies. intros [H|H]%elem_of_app.
  - apply list_elem_of_fmap in H as (a0 & -> & Ha0).
    apply subseteq_take in Ha0. cbv zeta.
    destruct (truthy (fetch_article_body tr (link a0))) eqn:E; [|by left].
    right. by exists a0.
  - left. by eapply subseteq_drop.
Qed.

Lemma fetch_article_body_off tr url :
  HAS_TRAFILATURA tr = false → fetch_article_body tr url = "".
Proof. intros H. unfold fetch_article_body. by rewrite H. Qed.

Lemma fetch_bodies_off tr arts :
  (∀ url, fetch_article_body tr url = "") → fetch_bodies tr arts = arts.
Proof.
  intros H. unfold fetch_bodies.
  rewrite (map_ext _ id); [by rewrite map_id, take_drop|].
  intros a. cbv zeta. by rewrite H.
Qed.

(** X20. Step 1 of the loop body of [main], on articles that have
    title and link only: a body is set on none but the first five
    articles; a body that is set is not empty, has at most 3000
    characters and is the first 3000 characters of the text extracted
    for the link of its article. Without trafilatura no body is set at
    all. *)
Theorem body_fetch_limits (tr : Trafilatura) (arts : list Article) :
  Forall fresh_article arts →
  let fetched := fetch_bodies tr arts in
  (∀ i a, fetched !! i = Some a → is_Some (body a) → (i < 5)%nat) ∧
  (∀ a b, a ∈ fetched → body a = Some b →
          b ≠ "" ∧ (len b ≤ 3000)%nat ∧
          b = take_chars 3000 (fetch_article_body tr (link a))) ∧
  (HAS_TRAFILATURA tr = false → fetched = arts).
Proof.
  intros Hfresh fetched. subst fetched.
  assert (Hnone : ∀ a, a ∈ arts → body a = None).
  { intros a Ha. rewrite Forall_forall in Hfresh.
    specialize (Hfresh a Ha). unfold fresh_article in Hfresh.
    by rewrite Hfresh. }
  split; [|split].
  - intros i a Hi [b Hb]. destruct (decide (i < 5)%nat) as [|Hge]; [done|].
    exfalso.
    assert (Hd : drop BODY_FETCH_LIMIT (fetch_bodies tr arts) !! (i - 5)%nat
                 = Some a).
    { rewrite lookup_drop. unfold BODY_FETCH_LIMIT.
      by replace (5 + (i - 5))%nat with i by lia. }
    rewrite drop_fetch_bodies in Hd. apply list_elem_of_lookup_2 in Hd.
    apply subseteq_drop in Hd. rewrite (Hnone a Hd) in Hb. done.
  - intros a b Ha Hb.
    apply fetch_bodies_elem in Ha as [Ha|(a0 & Ha0 & Ht & ->)].
    { rewrite (Hnone a Ha) in Hb. done. }
    change (link (set_body _ a0)) with (link a0).
    change (body (set_body ?x a0)) with (Some x) in Hb.
    assert (Hb' : b = take_chars 3000 (fetch_article_body tr (link a0)))
      by congruence.
    clear Hb. subst b.
    split; [|split; [apply take_chars_length|done]].
    apply (take_chars_truthy 2999) in Ht.
    intros He. rewrite He in Ht. done.
  - intros H. apply fetch_bodies_off. intros url.
    by apply fetch_article_body_off.
Qed.

Lemma body_fetch_limits_witness :
  let tr := mkTrafilatura true (λ url, Some ("<html>" +:+ url))
                          (λ page, Some ("Body of " +:+ page)) in
  let a := new_article "Budget presented" "https://example.com/a" in
  let b := "Body of <html>https://example.com/a" in
  fetch_bodies tr [a] = [set_body b a] ∧
  b ≠ "" ∧ (len b ≤ 3000)%nat ∧
  b = take_chars 3000 (fetch_article_body tr (link (set_body b a))).
Proof.
  intros tr a b. split; [reflexivity|].
  assert (Hfresh : Forall fresh_article [a]) by (by repeat constructor).
  destruct (body_fetch_limits tr [a] Hfresh) as (_ & H & _).
  apply (H (set_body b a) b); [|reflexivity].
  replace (fetch_bodies tr [a]) with [set_body b a] by reflexivity.
  apply list_elem_of_here.
Defined.


(** ** Installed packages and the tiers *)

Lemma fresh_no_bodies arts : Forall fresh_article arts → body_texts arts = [].
Proof.
  unfold body_texts. induction 1 as [|a arts Ha _ IH]; [done|].
  cbn [flat_map]. rewrite IH. unfold fresh_article in Ha. by rewrite Ha.
Qed.

Lemma method_without_bodies env src sec arts :
  body_texts arts = [] →
  method (summarize_section env src sec arts) ≠ Some "extractive".
Proof.
  intros Hb. destruct arts as [|a arts']; [done|].
  destruct (summarize_section_cases env src sec (a :: arts'))
    as [(llm & r & _ & Hg & _ & Heq)|Heq]; [done| |]; rewrite Heq.
  - apply gemini_shape in Hg as [-> _]. done.
  - unfold lower_tiers. rewrite no_bodies_no_extractive by done.
    destruct (headlines_tier_shape (a :: arts')) as [_ [->|[-> _]]]; done.
Qed.

Lemma process_section_method env tr key s m :
  scraped_section s →
  summary_method (process_section env tr key s) = Some m →
  method (summarize_section env key (page s) (fetch_bodies tr (articles s)))
  = Some m.
Proof.
  intros (Hfresh & _ & _). unfold process_section. cbv zeta.
  cbn [set_articles summary_method]. unfold record_result.
  rewrite (result_truthy_outcome _
             (summarize_section_one_outcome env key (page s)
                (fetch_bodies tr (articles s)))).
  cbn [negb].
  assert (Hsm : summary_method s = None).
  { unfold fresh_section in Hfresh. by rewrite Hfresh. }
  destruct (error _); cbn [summary_method set_articles]; rewrite ?Hsm; [done|].
  destruct (method _) as [m'|]; [|done]. by destruct (truthy m').
Qed.

(** X21. Without trafilatura, or when no body can be extracted, the
    extractive tier is out of reach for [main]: no section of the
    document written has the summary method "extractive", whatever
    sumy and the model do. *)
Theorem no_bodies_no_extractive_sections (env : Env) (web : Web) :
  (HAS_TRAFILATURA (trafilatura web) = false ∨
   ∀ url, fetch_article_body (trafilatura web) url = "") →
  ∀ key secs out,
    (key, secs) ∈ sources (main env web) → out ∈ secs →
    summary_method out ≠ Some "extractive".
Proof.
  intros Hoff key secs out Hk Hout Hm.
  assert (Hno : ∀ url, fetch_article_body (trafilatura web) url = "").
  { destruct Hoff as [H|H]; [|done]. intros url.
    by apply fetch_article_body_off. }
  unfold main in Hk. cbv zeta in Hk. cbn [sources map fst snd] in Hk.
  assert (H : ∃ l, Forall scraped_section l ∧
                   secs = map (process_section env (trafilatura web) key) l).
  { repeat (apply elem_of_cons in Hk as [[= -> ->]|Hk];
              [eexists; split; [|reflexivity];
               (apply fetch_the_hindu_scraped || apply fetch_from_feeds_scraped)|]).
    by apply elem_of_nil in Hk. }
  destruct H as (l & Hl & ->).
  apply (list_elem_of_fmap_1 (process_section env (trafilatura web) key)) in Hout
    as (s & -> & Hs).
  rewrite Forall_forall in Hl. specialize (Hl s Hs).
  apply process_section_method in Hm; [|done].
  rewrite fetch_bodies_off in Hm by done.
  revert Hm. apply method_without_bodies, fresh_no_bodies.
  by destruct Hl as (_ & ? & _).
Qed.

Lemma no_bodies_no_extractive_sections_witness :
  let env := mkEnv None true (λ text n, Some ["A sentence."]) in
  let web := mkWeb None
               (λ url, Some [Some ("Budget presented in parliament", url)])
               (mkTrafilatura false (λ _, None) (λ _, None))
               "2024-01-02T06:00:00" in
  Forall (λ out, summary_method out ≠ Some "extractive")
         (map (process_section env (trafilatura web) "DINAMANI")
              (fetch_dinamani (parse web))).
Proof.
  intros env web. apply Forall_forall. intros out Hout.
  apply (no_bodies_no_extractive_sections env web (or_introl eq_refl)
           "DINAMANI"
           (map (process_section env (trafilatura web) "DINAMANI")
                (fetch_dinamani (parse web))) out); [|exact Hout].
  unfold main. cbv zeta. cbn [sources map fst snd].
  do 2 apply list_elem_of_further. apply list_elem_of_here.
Defined.

End BriefProps.

(* ===================================================================== *)
(** * Dates written and dates read                                        *)
(* ===================================================================== *)

Module DateProps.
Import PyStr UpAhead MergeProps.

(** A calendar day with a year of four digits. *)
Definition valid_date (d : Date) : Prop :=
  (1000 ≤ Z.of_nat (year d) ≤ 9999)%Z ∧ (1 ≤ month d ≤ 12)%nat ∧
  (1 ≤ day d ≤ days_in_month (year d) (month d))%nat.

Lemma digit_char_digit k :
  (k < 10)%nat → is_digit (digit_char k) = true ∧ dnat (digit_char k) = k.
Proof.
  intros Hk. do 10 (destruct k as [|k]; [by vm_compute|]). lia.
Qed.

(** The month and day groups of the regex match, for a text of two
    padded numbers. *)
Lemma month_day_groups (y m d : nat) :
  (1 ≤ m ≤ 12)%nat → (1 ≤ d ≤ 31)%nat →
  head (flat_map
          (λ '(m, r1),
             match r1 with
             | String "-" r2 =>
                 match day_alternatives r2 with
                 | (d, r3) :: _ => [(y, m, d, r3)]
                 | [] => []
                 end
             | _ => []
             end)
          (month_alternatives (pad2 m +:+ "-" +:+ pad2 d)))
  = Some (y, m, d, EmptyString).
Proof.
  intros Hm Hd.
  assert (Hin : m ∈ seq 1 12 ∧ d ∈ seq 1 31) by (rewrite !elem_of_seq; lia).
  destruct Hin as [Hmi Hdi]. clear Hm Hd.
  assert (H : Forall (λ m, Forall (λ d,
    head (flat_map
            (λ '(m, r1),
               match r1 with
               | String "-" r2 =>
                   match day_alternatives r2 with
                   | (d, r3) :: _ => [(y, m, d, r3)]
                   | [] => []
                   end
               | _ => []
               end)
            (month_alternatives (pad2 m +:+ "-" +:+ pad2 d)))
    = Some (y, m, d, EmptyString)) (seq 1 31)) (seq 1 12)).
  { cbv [seq].
    repeat (apply Forall_cons_2;
              [repeat (apply Forall_cons_2; [reflexivity|]); apply Forall_nil_2|]).
    apply Forall_nil_2. }
  rewrite Forall_forall in H. specialize (H m Hmi).
  rewrite Forall_forall in H. exact (H d Hdi).
Qed.

Lemma days_in_month_le y m : (days_in_month y m ≤ 31)%nat.
Proof.
  unfold days_in_month.
  do 13 (destruct m as [|m]; [try lia; destruct (is_leap y); lia|]). lia.
Qed.


Lemma year_digits y :
  (y < 10 * 1000)%nat →
  (y / 1000 < 10)%nat ∧ (y / 100 mod 10 < 10)%nat ∧
  (y mod 100 / 10 < 10)%nat ∧ (y mod 100 mod 10 < 10)%nat ∧
  (1000 * (y / 1000) + 100 * (y / 100 mod 10) + 10 * (y mod 100 / 10)
   + y mod 100 mod 10 = y)%nat.
Proof.
  intros Hy.
  pose proof (Nat.div_mod_eq y 1000). pose proof (Nat.div_mod_eq y 100).
  pose proof (Nat.div_mod_eq (y / 100) 10).
  pose proof (Nat.div_mod_eq (y mod 100) 10).
  pose proof (Nat.mod_upper_bound y 1000). pose proof (Nat.mod_upper_bound y 100).
  pose proof (Nat.mod_upper_bound (y / 100) 10).
  pose proof (Nat.mod_upper_bound (y mod 100) 10).
  pose proof (Nat.div_mod_eq (y / 100) 10).
  assert (y / 100 / 10 = y / 1000)%nat by (by rewrite Nat.Div0.div_div).
  lia.
Qed.

Lemma strftime_chars d :
  strftime d
  = String (digit_char (year d / 1000))
      (String (digit_char (year d / 100 mod 10))
         (String (digit_char (year d mod 100 / 10))
            (String (digit_char (year d mod 100 mod 10))
               (String "-" (pad2 (month d) +:+ "-" +:+ pad2 (day d)))))).
Proof. reflexivity. Qed.

(** X22. The date string [strftime] writes for a calendar day with a
    four-digit year is read back by [strptime] as the same day. So the
    bucket the fallback generator dates today is never dropped by a
    merge run on that day or on an earlier one. *)
Theorem strftime_round_trip (d : Date) :
  valid_date d →
  strptime (strftime d) = Some d ∧
  ∀ today lbl its,
    date_leb today d = true →
    in_window today (mkDay (Some (strftime d)) lbl its) = true.
Proof.
  intros (Hy & Hm & Hd).
  assert (Hrt : strptime (strftime d) = Some d).
  { destruct d as [y m dd]. cbn [year month day] in *.
    destruct (year_digits y) as (H1 & H2 & H3 & H4 & Hsum); [lia|].
    unfold strptime, match_ymd. rewrite strftime_chars. cbn [year month day].
    destruct (digit_char_digit _ H1) as [-> ->].
    destruct (digit_char_digit _ H2) as [-> ->].
    destruct (digit_char_digit _ H3) as [-> ->].
    destruct (digit_char_digit _ H4) as [-> ->].
    cbn [andb]. cbv zeta. rewrite Hsum.
    pose proof (days_in_month_le y m).
    rewrite month_day_groups by lia.
    destruct (Nat.leb_spec 1 y); [|lia].
    destruct (Nat.leb_spec 1 dd); [|lia].
    destruct (Nat.leb_spec dd (days_in_month y m)); [|lia].
    reflexivity. }
  split; [exact Hrt|].
  intros today lbl its Hle. unfold in_window. cbn [date]. by rewrite Hrt.
Qed.

Lemma strftime_round_trip_witness :
  strftime (mkDate 2024 2 29) = "2024-02-29" ∧
  strptime "2024-02-29" = Some (mkDate 2024 2 29).
Proof.
  split; [reflexivity|].
  apply (strftime_round_trip (mkDate 2024 2 29)).
  unfold valid_date. cbn [year month day]. vm_compute days_in_month.
  lia.
Defined.


(** ** The sort key *)

(** Lexicographic combination of two comparisons. *)
Definition lex (c r : comparison) : comparison :=
  match c with Eq => r | Lt => Lt | Gt => Gt end.

Lemma compare_cons c1 c2 s1 s2 :
  String.compare (String c1 s1) (String c2 s2)
  = lex (Ascii.compare c1 c2) (String.compare s1 s2).
Proof. reflexivity. Qed.

Lemma digit_compare j k :
  (j < 10)%nat → (k < 10)%nat →
  Ascii.compare (digit_char j) (digit_char k) = Nat.compare j k.
Proof.
  intros Hj Hk.
  do 10 (destruct j as [|j];
         [do 10 (destruct k as [|k]; [reflexivity|]); lia|]).
  lia.
Qed.

Lemma lex_digits (a b a' b' : nat) r :
  (b < 10)%nat → (b' < 10)%nat →
  lex (Nat.compare a a') (lex (Nat.compare b b') r)
  = lex (Nat.compare (10 * a + b) (10 * a' + b')) r.
Proof.
  intros Hb Hb'.
  destruct (Nat.compare_spec a a'), (Nat.compare_spec b b'),
    (Nat.compare_spec (10 * a + b) (10 * a' + b')); simpl; (done || lia).
Qed.

Lemma pad2_compare m n r1 r2 :
  (m < 100)%nat → (n < 100)%nat →
  String.compare (pad2 m +:+ r1) (pad2 n +:+ r2)
  = lex (Nat.compare m n) (String.compare r1 r2).
Proof.
  intros Hm Hn. unfold pad2.
  change (String ?a (String ?b "") +:+ ?r) with (String a (String b r)).
  rewrite !compare_cons.
  pose proof (Nat.div_mod_eq m 10). pose proof (Nat.div_mod_eq n 10).
  pose proof (Nat.mod_upper_bound m 10). pose proof (Nat.mod_upper_bound n 10).
  rewrite !digit_compare by lia.
  rewrite lex_digits by lia. f_equal. f_equal; lia.
Qed.

Lemma pad4_compare y z r1 r2 :
  (y < 10 * 1000)%nat → (z < 10 * 1000)%nat →
  String.compare (pad4 y +:+ r1) (pad4 z +:+ r2)
  = lex (Nat.compare y z) (String.compare r1 r2).
Proof.
  intros Hy Hz. unfold pad4.
  change (String ?a (String ?b ?p) +:+ ?r) with (String a (String b (p +:+ r))).
  rewrite !compare_cons.
  destruct (year_digits y Hy) as (H1 & H2 & _ & _ & _).
  destruct (year_digits z Hz) as (H1' & H2' & _ & _ & _).
  pose proof (Nat.mod_upper_bound y 100). pose proof (Nat.mod_upper_bound z 100).
  rewrite !digit_compare, pad2_compare by lia.
  rewrite lex_digits by lia.
  assert (Hl : ∀ a a' b b' r, (b < 100)%nat → (b' < 100)%nat →
             lex (Nat.compare a a') (lex (Nat.compare b b') r)
             = lex (Nat.compare (100 * a + b) (100 * a' + b')) r).
  { intros a a' b b' r Hb Hb'.
    destruct (Nat.compare_spec a a'), (Nat.compare_spec b b'),
      (Nat.compare_spec (100 * a + b) (100 * a' + b')); simpl; (done || lia). }
  rewrite Hl by lia. f_equal.
  pose proof (Nat.div_mod_eq y 100). pose proof (Nat.div_mod_eq z 100).
  pose proof (Nat.div_mod_eq (y / 100) 10). pose proof (Nat.div_mod_eq (z / 100) 10).
  assert (y / 100 / 10 = y / 1000)%nat by (by rewrite Nat.Div0.div_div).
  assert (z / 100 / 10 = z / 1000)%nat by (by rewrite Nat.Div0.div_div).
  f_equal; lia.
Qed.


Lemma strftime_compare a b :
  valid_date a → valid_date b →
  String.compare (strftime a) (strftime b)
  = lex (Nat.compare (year a) (year b))
        (lex (Nat.compare (month a) (month b))
             (Nat.compare (day a) (day b))).
Proof.
  intros (Hya & Hma & Hda) (Hyb & Hmb & Hdb).
  pose proof (days_in_month_le (year a) (month a)).
  pose proof (days_in_month_le (year b) (month b)).
  assert (Hdash : ∀ x y, String.compare ("-" +:+ x) ("-" +:+ y)
                         = String.compare x y) by reflexivity.
  unfold strftime. rewrite pad4_compare by lia.
  rewrite Hdash, pad2_compare by lia. rewrite Hdash.
  assert (Hnil : ∀ s, s = s +:+ "").
  { intros s. induction s as [|c s IH]; [done|].
    change (String c s +:+ "") with (String c (s +:+ "")). by f_equal. }
  rewrite (Hnil (pad2 (day a))), (Hnil (pad2 (day b))).
  rewrite pad2_compare by lia. f_equal. f_equal.
  by destruct (Nat.compare (day a) (day b)).
Qed.

(** X23. On the date strings [strftime] writes, with their padded
    month and day, the order of the sort key [x["date"]] is the order
    of the days: sorting the timeline by date string sorts it by date.
    For the unpadded strings that [strptime] accepts as well it is
    not: "2024-9-01" parses as a day before "2024-10-01" and sorts
    after it. *)
Theorem date_strings_order (a b : Date) :
  valid_date a → valid_date b →
  String.leb (strftime a) (strftime b) = date_leb a b ∧
  (strptime "2024-9-01" = Some (mkDate 2024 9 1) ∧
   strptime "2024-10-01" = Some (mkDate 2024 10 1) ∧
   date_leb (mkDate 2024 10 1) (mkDate 2024 9 1) = false ∧
   String.leb "2024-10-01" "2024-9-01" = true).
Proof.
  intros Ha Hb. split; [|by vm_compute].
  unfold String.leb. rewrite strftime_compare by done.
  unfold date_leb.
  destruct (Nat.compare_spec (year a) (year b)) as [Hy|Hy|Hy];
    destruct (Nat.ltb_spec (year a) (year b));
    destruct (Nat.eqb_spec (year a) (year b)); try lia; cbn [lex orb andb];
    try reflexivity.
  destruct (Nat.compare_spec (month a) (month b)) as [Hm|Hm|Hm];
    destruct (Nat.ltb_spec (month a) (month b));
    destruct (Nat.eqb_spec (month a) (month b)); try lia; cbn [lex orb andb];
    try reflexivity.
  destruct (Nat.compare_spec (day a) (day b));
    destruct (Nat.leb_spec (day a) (day b)); try lia; reflexivity.
Qed.

Lemma date_strings_order_witness :
  String.leb "2024-02-29" "2024-03-01" = true.
Proof.
  assert (Ha : valid_date (mkDate 2024 2 29)).
  { unfold valid_date. cbn [year month day]. vm_compute days_in_month. lia. }
  assert (Hb : valid_date (mkDate 2024 3 1)).
  { unfold valid_date. cbn [year month day]. vm_compute days_in_month. lia. }
  destruct (date_strings_order (mkDate 2024 2 29) (mkDate 2024 3 1) Ha Hb)
    as [H _].
  exact H.
Defined.

End DateProps.
